(** * Export pipeline of the video editor backend: job queue and composition engine

    Shallow embedding of [backend/app/models.py], [backend/app/job_queue.py],
    [backend/app/video_processor.py] and, of [backend/app/main.py], the path
    resolution, the worker and the endpoints on jobs; and the properties of
    the export pipeline established (or refuted) on it.

    Conventions of the embedding:
    - Python [float] is IEEE binary64, i.e. Rocq's primitive [float]; Python
      [int] values that meet floats (progress 60, 100, clip sizes) are
      converted exactly, as Python does when it compares or divides them.
    - [datetime] values are naive wall-clock instants, counted in
      microseconds; every call of [datetime.now()] is an explicit argument.
    - [uuid.uuid4()] results are explicit arguments.
    - a Python [dict] whose iteration order is observed is an association
      list in insertion order with unique keys; dict literals that are only
      looked up are [gmap]s.
    - [threading.Lock] is a boolean in the queue state; acquiring a lock that
      is already held never returns ([Blocked]).
    - [print] diagnostics go to stdout and are not part of the state.
    - the requests served while an export runs are explicit: each one is
      served between two calls of the export's callbacks.  A request and
      the callbacks concern different jobs, or the request changes nothing,
      so a finer interleaving of their locked sections gives the same
      states. *)

From Stdlib Require Import ZArith Floats Uint63 Lia Sorted Permutation DecimalString.
From Stdlib Require QArith Qround Qminmax.
From stdpp Require Import gmap strings list.

Open Scope Z_scope.

(** ** Python built-ins used by the sources *)

Module Py.

(** [min(a, b)]: the first argument unless the second is strictly smaller. *)
Definition min (a b : float) : float := if (b <? a)%float then b else a.

(** Conversion of a Python int to float, as int/int true division and
    int*float do it: exact below 2^53 in magnitude and rounded to nearest up
    to 2^63; the ints converted here are pixel sizes and clip counts. *)
Definition float_of_int (n : Z) : float :=
  if n <? 0 then (- of_uint63 (Uint63.of_Z (- n)))%float
  else of_uint63 (Uint63.of_Z n).

(** A call that may raise: [Raise e] carries [str(e)] of the exception. *)
Inductive result (A : Type) :=
| Ok (a : A)
| Raise (e : string).
Arguments Ok {A} a.
Arguments Raise {A} e.

#[global] Instance result_ret : MRet result := @Ok.
#[global] Instance result_bind : MBind result :=
  λ A B f r, match r with Ok a => f a | Raise e => Raise e end.

(** [int(f)]: truncation toward zero; nan raises ValueError and the
    infinities raise OverflowError. *)
Definition int (f : float) : result Z :=
  match Prim2SF f with
  | S754_zero _ => Ok 0
  | S754_finite s m e =>
      let mag := if 0 <=? e then Z.pos m * 2 ^ e else Z.pos m / 2 ^ (- e) in
      Ok (if s then - mag else mag)
  | S754_infinity _ => Raise "cannot convert float infinity to integer"
  | S754_nan => Raise "cannot convert float NaN to integer"
  end.

(** [a / b] on ints (true division): ZeroDivisionError on [b = 0]; the
    quotient is the correctly rounded one, which for operands below 2^53 in
    magnitude is the float quotient of the converted operands. *)
Definition truediv (a b : Z) : result float :=
  if decide (b = 0) then Raise "division by zero"
  else Ok (float_of_int a / float_of_int b)%float.

(** [a // b] on ints (floor division); the callers divide by the literal 2. *)
Definition floordiv (a b : Z) : Z := a / b.

Definition datetime := Z.

Definition digit (n : Z) : string :=
  String (Ascii.ascii_of_nat (48 + Z.to_nat n)) "".

Definition two_digits (n : Z) : string := digit (n / 10) +:+ digit (n mod 10).

(** [t.strftime("%H:%M:%S")] *)
Definition strftime_HMS (t : datetime) : string :=
  let s := t / 1000000 in
  two_digits ((s / 3600) mod 24) +:+ ":" +:+
  two_digits ((s / 60) mod 60) +:+ ":" +:+ two_digits (s mod 60).

(** [str(n)] for a non-negative int. *)
Definition str_of_nat (n : nat) : string :=
  NilZero.string_of_uint (Nat.to_uint n).

(** [str(b)] *)
Definition str_of_bool (b : bool) : string := if b then "True" else "False".

(** [s.startswith(p)] *)
Definition startswith (s p : string) : bool := String.prefix p s.

(** [s.replace(old, new)] for a non-empty [old]: [skip] counts the
    characters of a match that are still to be dropped. *)
Fixpoint replace_from (old new : string) (skip : nat) (s : string) : string :=
  match s with
  | EmptyString => EmptyString
  | String c s' =>
      match skip with
      | S k => replace_from old new k s'
      | O =>
          if String.prefix old s
          then new +:+ replace_from old new (Nat.pred (String.length old)) s'
          else String c (replace_from old new O s')
      end
  end.

Definition replace (s old new : string) : string := replace_from old new 0 s.

Fixpoint endswith_slash (s : string) : bool :=
  match s with
  | EmptyString => false
  | String _ EmptyString => bool_decide (s = "/"%string)
  | String _ s' => endswith_slash s'
  end.

(** [os.path.join(a, b)] on POSIX paths. *)
Definition os_path_join (a b : string) : string :=
  if String.prefix "/" b then b
  else if bool_decide (a = EmptyString) || endswith_slash a then a +:+ b
  else a +:+ "/" +:+ b.

(** An insertion-ordered dict: association list with unique keys. *)
Section Dict.
Context {V : Type}.

Fixpoint dict_get (d : list (string * V)) (k : string) : option V :=
  match d with
  | [] => None
  | (k', v) :: d' => if decide (k' = k) then Some v else dict_get d' k
  end.

(** [d[k] = v]: an existing key keeps its position, a new key goes last. *)
Fixpoint dict_set (d : list (string * V)) (k : string) (v : V)
  : list (string * V) :=
  match d with
  | [] => [(k, v)]
  | (k', v') :: d' =>
      if decide (k' = k) then (k, v) :: d' else (k', v') :: dict_set d' k v
  end.

Definition dict_values (d : list (string * V)) : list V := d.*2.
End Dict.

(** [sorted(l, key=...)]: a stable sort, ascending in the key order [lt]
    (the comparison [key a < key b] that list.sort performs). *)
Section SortedBuiltin.
Context {A : Type} (lt : A → A → bool).

Fixpoint insert_sorted (a : A) (l : list A) : list A :=
  match l with
  | [] => [a]
  | b :: l' => if lt b a then b :: insert_sorted a l' else a :: b :: l'
  end.

Definition sorted (l : list A) : list A := foldr insert_sorted [] l.
End SortedBuiltin.

(** [deque.remove(x)]: drops the first occurrence; [None] is ValueError. *)
Fixpoint deque_remove (x : string) (q : list string) : option (list string) :=
  match q with
  | [] => None
  | y :: q' =>
      if decide (y = x) then Some q'
      else option_map (cons y) (deque_remove x q')
  end.

End Py.

(** ** models.py *)

Module Position.
Record t := { x : float; y : float }.
End Position.

Module TextOverlay.
Record t := {
  text : string;
  font_family : string;
  font_size : Z;
  color : string;
  position : Position.t;
  start_time : float;
  end_time : float }.
End TextOverlay.

Module ImageOverlay.
Record t := {
  image_url : string;
  image_shape : string;
  shape_image_url : option string;
  percentage_width : float;
  percentage_from_top : float;
  percentage_from_start : float;
  start_time : float;
  end_time : float }.
End ImageOverlay.

Module ClipEffects.
Record t := { fade_in : float; fade_out : float; speed : float }.
End ClipEffects.

Module ClipRequest.
Record t := {
  video_url : string;
  start_time : float;
  end_time : float;
  track : Z;
  effects : ClipEffects.t;
  text_overlays : list TextOverlay.t;
  image_overlays : list ImageOverlay.t }.
End ClipRequest.

Module AudioTrackRequest.
Record t := { url : string; volume : float; start_time : float }.
End AudioTrackRequest.

Module ExportSettings.
Record t := { aspect_ratio : string; quality : string; format : string }.

(** The [Literal[...]] annotations that pydantic enforces on construction. *)
Definition aspect_ratios : list string := ["1:1"; "16:9"; "9:16"]%string.
Definition qualities : list string := ["low"; "optimised"; "high"]%string.
Definition formats : list string := ["mp4"; "mov"; "avi"]%string.

Definition valid (s : t) : Prop :=
  aspect_ratio s ∈ aspect_ratios ∧ quality s ∈ qualities ∧ format s ∈ formats.
End ExportSettings.

Module ExportRequest.
Record t := {
  clips : list ClipRequest.t;
  audio_tracks : list AudioTrackRequest.t;
  settings : ExportSettings.t }.
End ExportRequest.

Module JobStatus.
Inductive t := PENDING | PROCESSING | COMPLETED | FAILED.

#[global] Instance eq_dec : EqDecision t.
Proof. solve_decision. Defined.

Definition value (s : t) : string :=
  match s with
  | PENDING => "pending"
  | PROCESSING => "processing"
  | COMPLETED => "completed"
  | FAILED => "failed"
  end.
End JobStatus.

Module Job.
Record t := {
  id : string;
  status : JobStatus.t;
  progress : float;
  logs : list string;
  created_at : Py.datetime;
  completed_at : option Py.datetime;
  output_url : option string;
  request : option ExportRequest.t }.

(** A keyword argument of [update_job]: a declared field and its new value.
    Every caller in the repository passes declared fields only, for which
    [hasattr(job, key)] holds. *)
Inductive kwarg :=
| kw_id (v : string)
| kw_status (v : JobStatus.t)
| kw_progress (v : float)
| kw_logs (v : list string)
| kw_created_at (v : Py.datetime)
| kw_completed_at (v : option Py.datetime)
| kw_output_url (v : option string)
| kw_request (v : option ExportRequest.t).

(** [setattr(job, key, value)] *)
Definition setattr (j : t) (kw : kwarg) : t :=
  match kw with
  | kw_id v =>
      Build_t v (status j) (progress j) (logs j) (created_at j)
        (completed_at j) (output_url j) (request j)
  | kw_status v =>
      Build_t (id j) v (progress j) (logs j) (created_at j)
        (completed_at j) (output_url j) (request j)
  | kw_progress v =>
      Build_t (id j) (status j) v (logs j) (created_at j)
        (completed_at j) (output_url j) (request j)
  | kw_logs v =>
      Build_t (id j) (status j) (progress j) v (created_at j)
        (completed_at j) (output_url j) (request j)
  | kw_created_at v =>
      Build_t (id j) (status j) (progress j) (logs j) v
        (completed_at j) (output_url j) (request j)
  | kw_completed_at v =>
      Build_t (id j) (status j) (progress j) (logs j) (created_at j)
        v (output_url j) (request j)
  | kw_output_url v =>
      Build_t (id j) (status j) (progress j) (logs j) (created_at j)
        (completed_at j) v (request j)
  | kw_request v =>
      Build_t (id j) (status j) (progress j) (logs j) (created_at j)
        (completed_at j) (output_url j) v
  end.
End Job.

(** ** job_queue.py *)

Module JobQueue.

(** The state of a [JobQueue] object: [jobs] in insertion order, the
    [queue] deque (front first) and whether [_lock] is currently held.
    [current_job_id] and [is_processing] are never read or written after
    [__init__], and [_callbacks] only by the callback registry that the
    pipeline does not use; they are left out. *)
Record t := {
  jobs : list (string * Job.t);
  queue : list string;
  _lock : bool }.

Definition init : t := {| jobs := []; queue := []; _lock := false |}.

Definition with_jobs (q : t) (js : list (string * Job.t)) : t :=
  {| jobs := js; queue := queue q; _lock := _lock q |}.
Definition with_queue (q : t) (ids : list string) : t :=
  {| jobs := jobs q; queue := ids; _lock := _lock q |}.
Definition with__lock (q : t) (b : bool) : t :=
  {| jobs := jobs q; queue := queue q; _lock := b |}.

(** Result of running a method on a queue state: it returns a value and the
    new state, or it blocks forever waiting for [_lock], leaving the state in
    which it stopped. *)
Inductive outcome (A : Type) :=
| Returns (a : A) (q : t)
| Blocked (q : t).
Arguments Returns {A} a q.
Arguments Blocked {A} q.

Definition method (A : Type) := t → outcome A.

Definition ret {A} (a : A) : method A := fun q => Returns a q.

Definition bind {A B} (m : method A) (f : A → method B) : method B :=
  fun q => match m q with
           | Returns a q' => f a q'
           | Blocked q' => Blocked q'
           end.

#[global] Instance method_ret : MRet method := @ret.
#[global] Instance method_bind : MBind method := λ A B f m, bind m f.

(** [with self._lock: body]: [threading.Lock] is not reentrant, so entering
    while the lock is held blocks; the lock is released when the body is left. *)
Definition with_lock {A} (body : method A) : method A :=
  fun q =>
    if _lock q then Blocked q
    else match body (with__lock q true) with
         | Returns a q' => Returns a (with__lock q' false)
         | Blocked q' => Blocked q'
         end.

(** [self.jobs.get(job_id)] *)
Definition jobs_get (job_id : string) (q : t) : option Job.t :=
  Py.dict_get (jobs q) job_id.

(** In-place mutation of the job object stored under [job_id]. *)
Definition mutate_job (job_id : string) (f : Job.t → Job.t) : method () :=
  fun q => match jobs_get job_id q with
           | Some job => Returns () (with_jobs q (Py.dict_set (jobs q) job_id (f job)))
           | None => Returns () q
           end.

Definition get_job (job_id : string) (q : t) : option Job.t := jobs_get job_id q.

Definition status_order : gmap string Z :=
  list_to_map [("processing", 0); ("pending", 1); ("completed", 2); ("failed", 3)]%string.

(** The sort key [(status_order.get(job.status.value, 4), job.created_at)]. *)
Definition sort_key (job : Job.t) : Z * Py.datetime :=
  (default 4 (status_order !! JobStatus.value (Job.status job)), Job.created_at job).

(** Tuple comparison [k1 < k2]. *)
Definition key_lt (k1 k2 : Z * Py.datetime) : bool :=
  (k1.1 <? k2.1) || ((k1.1 =? k2.1) && (k1.2 <? k2.2)).

Definition get_all_jobs (q : t) : list Job.t :=
  Py.sorted (fun a b => key_lt (sort_key a) (sort_key b)) (Py.dict_values (jobs q)).

Definition update_job (job_id : string) (kwargs : list Job.kwarg) : method () :=
  with_lock (mutate_job job_id (fun job => foldl Job.setattr job kwargs)).

Definition append_log (entry : string) (job : Job.t) : Job.t :=
  Job.setattr job (Job.kw_logs (Job.logs job ++ [entry])).

Definition add_log (job_id : string) (log : string) (now : Py.datetime) : method () :=
  with_lock
    (mutate_job job_id
       (append_log ("[" +:+ Py.strftime_HMS now +:+ "] " +:+ log))).

Definition set_progress (job_id : string) (progress : float) : method () :=
  update_job job_id [Job.kw_progress (Py.min progress 100)].

(** The [while self.queue:] loop of [get_next_job]. *)
Fixpoint pop_pending (js : list (string * Job.t)) (ids : list string)
  : option Job.t * list string :=
  match ids with
  | [] => (None, [])
  | job_id :: ids' =>
      match Py.dict_get js job_id with
      | Some job =>
          if decide (Job.status job = JobStatus.PENDING) then (Some job, ids')
          else pop_pending js ids'
      | None => pop_pending js ids'
      end
  end.

Definition get_next_job : method (option Job.t) :=
  with_lock (fun q =>
    let '(found, ids) := pop_pending (jobs q) (queue q) in
    Returns found (with_queue q ids)).

Definition create_job (request : ExportRequest.t) (job_id : string)
    (now now_log : Py.datetime) : method Job.t :=
  let job := {| Job.id := job_id; Job.status := JobStatus.PENDING;
                Job.progress := 0; Job.logs := []; Job.created_at := now;
                Job.completed_at := None; Job.output_url := None;
                Job.request := Some request |} in
  with_lock (fun q =>
    Returns () {| jobs := Py.dict_set (jobs q) job_id job;
                  queue := queue q ++ [job_id];
                  _lock := _lock q |}) ;;
  add_log job_id "Job created and added to queue" now_log ;;
  (λ q, Returns (default job (jobs_get job_id q)) q) : method Job.t.

Definition complete_job (job_id : string) (output_url : string)
    (now now_log : Py.datetime) : method () :=
  update_job job_id
    [Job.kw_status JobStatus.COMPLETED; Job.kw_progress 100;
     Job.kw_completed_at (Some now); Job.kw_output_url (Some output_url)] ;;
  add_log job_id "Job completed successfully" now_log.

Definition fail_job (job_id : string) (error : string)
    (now now_log : Py.datetime) : method () :=
  update_job job_id
    [Job.kw_status JobStatus.FAILED; Job.kw_completed_at (Some now)] ;;
  add_log job_id ("Job failed: " +:+ error) now_log.

Definition cancel_job (job_id : string) (now now_log : Py.datetime) : method () :=
  with_lock (fun q =>
    match jobs_get job_id q with
    | Some job =>
        if decide (Job.status job = JobStatus.PENDING) then
          (mutate_job job_id (fun j =>
             Job.setattr (Job.setattr j (Job.kw_status JobStatus.FAILED))
               (Job.kw_completed_at (Some now))) ;;
           add_log job_id "Job cancelled by user" now_log ;;
           ((λ q', Returns () (with_queue q'
                     (default (queue q') (Py.deque_remove job_id (queue q')))))
            : method ())) q
        else Returns () q
    | None => Returns () q
    end).

(** [stats[key] += 1]; [None] is the KeyError of a missing key. *)
Definition stats_incr (stats : gmap string Z) (key : string) : option (gmap string Z) :=
  v ← stats !! key; Some (<[key := v + 1]> stats).

Definition get_queue_stats (q : t) : option (gmap string Z) :=
  let stats : gmap string Z :=
    list_to_map [("pending", 0); ("processing", 0); ("completed", 0);
                 ("failed", 0); ("total", Z.of_nat (length (jobs q)))]%string in
  foldl (fun acc job => stats ← acc; stats_incr stats (JobStatus.value (Job.status job)))
        (Some stats) (Py.dict_values (jobs q)).

End JobQueue.

(** ** video_processor.py *)

Module VideoProcessor.

Record preset := { width : Z; height : Z; bitrate : string; fps : Z }.

Definition QUALITY_SETTINGS : gmap string preset :=
  list_to_map
    [("low", {| width := 854; height := 480; bitrate := "1000k"; fps := 24 |});
     ("optimised", {| width := 1280; height := 720; bitrate := "2500k"; fps := 30 |});
     ("high", {| width := 1920; height := 1080; bitrate := "5000k"; fps := 30 |})]%string.

(** [QUALITY_SETTINGS[quality]] *)
Definition quality_settings_of (quality : string) : Py.result preset :=
  match QUALITY_SETTINGS !! quality with
  | Some p => Py.Ok p
  | None => Py.Raise ("'" +:+ quality +:+ "'")
  end.

(** A coordinate handed to moviepy: a Python int or float. *)
Inductive number := Int (n : Z) | Float (f : float).

(** The external collaborators: the file system, the HTTP client, the image
    library and moviepy.  Clip objects are opaque; [clip_w], [clip_h],
    [clip_duration], [clip_fps] and [clip_audio] are the attributes the
    sources read.  Calls that construct, decode, fetch or encode may raise;
    attribute setters do not. *)
Class Externals := {
  Clip : Type;
  AudioClip : Type;
  clip_w : Clip → Z;
  clip_h : Clip → Z;
  clip_duration : Clip → float;
  clip_fps : Clip → option float;
  clip_audio : Clip → option AudioClip;
  (** [str(f)] of a float and [repr] of a list of strings in f-strings *)
  str_float : float → string;
  repr_list : list string → string;
  os_path_exists : string → bool;
  os_listdir : string → Py.result (list string);
  (** lines 62-68 of [download_image]: GET the url (30 s timeout), raise on
      an HTTP error status, write the body to a fresh file under the given
      directory, return its path *)
  requests_get_to_file : string → string → Py.result string;
  (** lines 76-96 of [process_overlay_image]: open the image, shrink it to
      fit the bounding box keeping its aspect ratio, save it under the given
      directory, return the new path *)
  pil_fit_and_save : string → string → Z → Z → Py.result string;
  VideoFileClip : string → Py.result Clip;
  subclip : Clip → float → float → Py.result Clip;
  speedx : Clip → float → Py.result Clip;
  fadein : Clip → float → Py.result Clip;
  fadeout : Clip → float → Py.result Clip;
  TextClip : string → Z → string → string → Py.result Clip;
  ImageClip : string → float → Py.result Clip;
  resize_width : Clip → Z → Py.result Clip;
  resize : Clip → Z * Z → Py.result Clip;
  ColorClip : Z * Z → Z * Z * Z → float → Py.result Clip;
  CompositeVideoClip : list Clip → option (Z * Z) → Py.result Clip;
  concatenate_videoclips : list Clip → Py.result Clip;
  set_position : Clip → number * number → Clip;
  set_start : Clip → float → Clip;
  set_duration : Clip → float → Clip;
  set_fps : Clip → float → Clip;
  set_audio : Clip → AudioClip → Clip;
  AudioFileClip : string → Py.result AudioClip;
  volumex : AudioClip → float → AudioClip;
  audio_set_start : AudioClip → float → AudioClip;
  CompositeAudioClip : list AudioClip → Py.result AudioClip;
  (** [clip.write_videofile(path, codec, audio_codec, bitrate, fps)] *)
  write_videofile : Clip → string → string → string → string → Z → Py.result ();
  close : Clip → Py.result () }.

(** What an export does to its caller and to the file system, in order. *)
Inductive event :=
| Log (msg : string)
| Progress (p : float)
| Written (path : string).

(** A computation that emits events and returns or raises. *)
Definition M (A : Type) : Type := list event * Py.result A.

#[global] Instance M_ret : MRet M := λ A a, ([], Py.Ok a).
#[global] Instance M_bind : MBind M :=
  λ A B f m,
    match m with
    | (es, Py.Ok a) => let '(es', r) := f a in (es ++ es', r)
    | (es, Py.Raise e) => (es, Py.Raise e)
    end.

Definition emit (e : event) : M () := ([e], Py.Ok ()).
Definition lift {A} (r : Py.result A) : M A := ([], r).
Definition raise {A} (e : string) : M A := ([], Py.Raise e).

(** [try: body  except Exception as e: handler(e)] *)
Definition try_except {A} (body : M A) (handler : string → M A) : M A :=
  match body with
  | (es, Py.Ok a) => (es, Py.Ok a)
  | (es, Py.Raise e) => let '(es', r) := handler e in (es ++ es', r)
  end.

Definition events {A} (m : M A) : list event := m.1.
Definition outcome {A} (m : M A) : Py.result A := m.2.

(** The callbacks the worker passes in: they forward to the job's log and
    progress. *)
Definition log_event (msg : string) : M () := emit (Log msg).
Definition progress_event (p : float) : M () := emit (Progress p).

Record t := { uploads_dir : string; exports_dir : string; temp_dir : string }.

Section Methods.
Context `{Externals} (self : t).

Definition download_image (url : string) : Py.result string :=
  match requests_get_to_file (temp_dir self) url with
  | Py.Ok local_path => Py.Ok local_path
  | Py.Raise e => Py.Raise ("Failed to download image from " +:+ url +:+ ": " +:+ e)
  end.

Definition process_overlay_image (image_path : string) (max_width max_height : Z)
  : Py.result string :=
  match pil_fit_and_save (temp_dir self) image_path max_width max_height with
  | Py.Ok processed_path => Py.Ok processed_path
  | Py.Raise e => Py.Raise ("Failed to process overlay image: " +:+ e)
  end.

Definition call_log (log_callback : option (string → M ())) (msg : string) : M () :=
  match log_callback with
  | Some cb => cb msg
  | None => mret ()
  end.

Definition create_image_overlay_clip (overlay : ImageOverlay.t)
    (video_width video_height : Z) (log_callback : option (string → M ())) : M Clip :=
  let log := call_log log_callback in
  try_except
    (image_path ← lift (download_image (ImageOverlay.image_url overlay));
     image_path ← lift (process_overlay_image image_path 400 400);
     log ("Processed overlay image: " +:+ ImageOverlay.image_url overlay);;
     overlay_width ← lift (Py.int
       (ImageOverlay.percentage_width overlay / 100 * Py.float_of_int video_width)%float);
     x_pos ← lift (Py.int
       (ImageOverlay.percentage_from_start overlay / 100 * Py.float_of_int video_width)%float);
     y_pos ← lift (Py.int
       (ImageOverlay.percentage_from_top overlay / 100 * Py.float_of_int video_height)%float);
     img_clip ← lift (ImageClip image_path
       (ImageOverlay.end_time overlay - ImageOverlay.start_time overlay)%float);
     img_clip ← lift (resize_width img_clip overlay_width);
     let img_clip := set_position img_clip (Int x_pos, Int y_pos) in
     let img_clip := set_start img_clip (ImageOverlay.start_time overlay) in
     mret img_clip)
    (λ e, log ("Failed to create image overlay: " +:+ e);; raise e).

Definition resize_to_aspect_ratio (clip : Clip) (aspect_ratio quality : string)
  : Py.result Clip :=
  quality_settings ← quality_settings_of quality;
  let '(target_width, target_height) :=
    if decide (aspect_ratio = "16:9"%string) then
      (width quality_settings, height quality_settings)
    else if decide (aspect_ratio = "9:16"%string) then
      (height quality_settings, width quality_settings)
    else
      (Z.min (width quality_settings) (height quality_settings),
       Z.min (width quality_settings) (height quality_settings)) in
  scale_w ← Py.truediv target_width (clip_w clip);
  scale_h ← Py.truediv target_height (clip_h clip);
  let scale := Py.min scale_w scale_h in
  new_width ← Py.int (Py.float_of_int (clip_w clip) * scale)%float;
  new_height ← Py.int (Py.float_of_int (clip_h clip) * scale)%float;
  resized ← resize clip (new_width, new_height);
  background ← ColorClip (target_width, target_height) (0, 0, 0) (clip_duration clip);
  let x_pos := Py.floordiv (target_width - new_width) 2 in
  let y_pos := Py.floordiv (target_height - new_height) 2 in
  let resized := set_position resized (Int x_pos, Int y_pos) in
  final_clip ← CompositeVideoClip [background; resized] (Some (target_width, target_height));
  let final_clip :=
    set_fps final_clip
      (match clip_fps clip with
       | Some f => if (f =? 0)%float then Py.float_of_int (fps quality_settings) else f
       | None => Py.float_of_int (fps quality_settings)
       end) in
  let final_clip :=
    match clip_audio clip with
    | Some a => set_audio final_clip a
    | None => final_clip
    end in
  mret final_clip.

(** The [for overlay in clip_request.text_overlays] loop of [process_clip];
    [text_clips] is the list built so far. *)
Fixpoint text_overlay_loop (log : string → M ()) (clip : Clip)
    (overlays : list TextOverlay.t) (text_clips : list Clip) : M (list Clip) :=
  match overlays with
  | [] => mret text_clips
  | overlay :: rest =>
      text_clips ←
        try_except
          (txt_clip ← lift (TextClip (TextOverlay.text overlay)
                              (TextOverlay.font_size overlay)
                              (TextOverlay.color overlay)
                              (TextOverlay.font_family overlay));
           let x_pos := (Position.x (TextOverlay.position overlay) / 100
                         * Py.float_of_int (clip_w clip))%float in
           let y_pos := (Position.y (TextOverlay.position overlay) / 100
                         * Py.float_of_int (clip_h clip))%float in
           let txt_clip := set_position txt_clip (Float x_pos, Float y_pos) in
           let txt_clip := set_start txt_clip (TextOverlay.start_time overlay) in
           let txt_clip := set_duration txt_clip
             (TextOverlay.end_time overlay - TextOverlay.start_time overlay)%float in
           mret (text_clips ++ [txt_clip]))
          (λ e, log ("Warning: Failed to add text overlay: " +:+ e);;
                mret text_clips);
      text_overlay_loop log clip rest text_clips
  end.

(** The [for overlay in clip_request.image_overlays] loop of [process_clip]. *)
Fixpoint image_overlay_loop (log : string → M ())
    (log_callback : option (string → M ())) (clip : Clip)
    (overlays : list ImageOverlay.t) (image_clips : list Clip) : M (list Clip) :=
  match overlays with
  | [] => mret image_clips
  | overlay :: rest =>
      image_clips ←
        try_except
          (img_clip ← create_image_overlay_clip overlay (clip_w clip) (clip_h clip)
                        log_callback;
           mret (image_clips ++ [img_clip]))
          (λ e, log ("Warning: Failed to add image overlay: " +:+ e);;
                mret image_clips);
      image_overlay_loop log log_callback clip rest image_clips
  end.

Definition process_clip (clip_request : ClipRequest.t) (aspect_ratio quality : string)
    (log_callback : option (string → M ()))
    (url_resolver : option (string → string)) : M Clip :=
  let log := call_log log_callback in
  clip ←
    try_except
      (log "=== Starting process_clip ===";;
       log ("Input video_url: " +:+ ClipRequest.video_url clip_request);;
       log ("URL resolver provided: " +:+ Py.str_of_bool (bool_decide (is_Some url_resolver)));;
       log ("self.uploads_dir: " +:+ uploads_dir self);;
       let video_path := ClipRequest.video_url clip_request in
       video_path ←
         match url_resolver with
         | Some resolve =>
             log "Calling url_resolver...";;
             let video_path := resolve video_path in
             log ("Resolved path from url_resolver: " +:+ video_path);;
             mret video_path
         | None =>
             log "WARNING: No URL resolver provided!";;
             if Py.startswith video_path "/static/uploads/" then
               let video_path :=
                 Py.os_path_join (uploads_dir self)
                   (Py.replace video_path "/static/uploads/" "") in
               log ("Fallback resolved path: " +:+ video_path);;
               mret video_path
             else mret video_path
         end;
       log ("Final video path: " +:+ video_path);;
       let exists_ := os_path_exists video_path in
       log ("File exists check: " +:+ Py.str_of_bool exists_);;
       (if exists_ then mret ()
        else
          try_except
            (files ← lift (os_listdir (uploads_dir self));
             log ("Files in uploads dir (" +:+ Py.str_of_nat (length files) +:+ "): "
                  +:+ repr_list (take 10 files) +:+ "..."))
            (λ e, log ("Could not list uploads dir: " +:+ e));;
          raise ("Video file not found at path: " +:+ video_path));;
       log "Loading video file with MoviePy...";;
       clip ← lift (VideoFileClip video_path);
       log ("Video loaded successfully. Duration: " +:+ str_float (clip_duration clip) +:+ "s");;
       mret clip)
      (λ e, log ("ERROR in process_clip during load: " +:+ e);; raise e);
  log ("Trimming: " +:+ str_float (ClipRequest.start_time clip_request) +:+ "s to "
       +:+ str_float (ClipRequest.end_time clip_request) +:+ "s");;
  clip ← lift (subclip clip (ClipRequest.start_time clip_request)
                 (ClipRequest.end_time clip_request));
  let effects := ClipRequest.effects clip_request in
  clip ←
    (if negb (ClipEffects.speed effects =? 1)%float then
       log ("Applying speed: " +:+ str_float (ClipEffects.speed effects) +:+ "x");;
       lift (speedx clip (ClipEffects.speed effects))
     else mret clip);
  clip ←
    (if (0 <? ClipEffects.fade_in effects)%float then
       log ("Applying fade in: " +:+ str_float (ClipEffects.fade_in effects) +:+ "s");;
       lift (fadein clip (ClipEffects.fade_in effects))
     else mret clip);
  clip ←
    (if (0 <? ClipEffects.fade_out effects)%float then
       log ("Applying fade out: " +:+ str_float (ClipEffects.fade_out effects) +:+ "s");;
       lift (fadeout clip (ClipEffects.fade_out effects))
     else mret clip);
  '(clip, text_clips) ←
    match ClipRequest.text_overlays clip_request with
    | [] => mret (clip, [])
    | _ :: _ =>
        log ("Adding " +:+ Py.str_of_nat (length (ClipRequest.text_overlays clip_request))
             +:+ " text overlay(s)");;
        text_clips ← text_overlay_loop log clip (ClipRequest.text_overlays clip_request) [];
        match text_clips with
        | [] => mret (clip, text_clips)
        | _ :: _ =>
            clip ← lift (CompositeVideoClip ([clip] ++ text_clips) None);
            mret (clip, text_clips)
        end
    end;
  image_clips ←
    match ClipRequest.image_overlays clip_request with
    | [] => mret []
    | _ :: _ =>
        log ("Adding " +:+ Py.str_of_nat (length (ClipRequest.image_overlays clip_request))
             +:+ " image overlay(s)");;
        image_overlay_loop log log_callback clip (ClipRequest.image_overlays clip_request) []
    end;
  let all_overlays := text_clips ++ image_clips in
  match all_overlays with
  | [] => mret clip
  | _ :: _ =>
      clip ← lift (CompositeVideoClip ([clip] ++ all_overlays) None);
      log ("Successfully added " +:+ Py.str_of_nat (length text_clips) +:+ " text and "
           +:+ Py.str_of_nat (length image_clips) +:+ " image overlay(s)");;
      mret clip
  end.

(** The value [(i + 1) / total_clips * 50] reported after clip [i]. *)
Definition clip_progress (i total_clips : nat) : Py.result float :=
  ratio ← Py.truediv (Z.of_nat i + 1) (Z.of_nat total_clips);
  mret (ratio * 50)%float.

(** The [for i, clip_req in enumerate(clips_requests)] loop of
    [process_export], from index [i] on. *)
Fixpoint clips_loop (log : string → M ()) (progress_callback : float → M ())
    (settings : ExportSettings.t) (url_resolver : option (string → string))
    (total_clips : nat) (i : nat) (clips_requests : list ClipRequest.t)
    (processed_clips : list Clip) : M (list Clip) :=
  match clips_requests with
  | [] => mret processed_clips
  | clip_req :: rest =>
      log ("Processing clip " +:+ Py.str_of_nat (i + 1) +:+ "/"
           +:+ Py.str_of_nat total_clips);;
      log ("Clip video_url: " +:+ ClipRequest.video_url clip_req);;
      clip ← process_clip clip_req (ExportSettings.aspect_ratio settings)
               (ExportSettings.quality settings) (Some log) url_resolver;
      p ← lift (clip_progress i total_clips);
      progress_callback p;;
      clips_loop log progress_callback settings url_resolver total_clips (S i) rest
        (processed_clips ++ [clip])
  end.

(** The [for audio_req in audio_tracks] loop of [process_export]. *)
Fixpoint audio_loop (log : string → M ()) (url_resolver : option (string → string))
    (audio_tracks : list AudioTrackRequest.t) (audio_clips : list AudioClip)
  : M (list AudioClip) :=
  match audio_tracks with
  | [] => mret audio_clips
  | audio_req :: rest =>
      audio_clips ←
        try_except
          (let audio_path := AudioTrackRequest.url audio_req in
           let audio_path :=
             match url_resolver with
             | Some resolve => resolve audio_path
             | None => audio_path
             end in
           if negb (os_path_exists audio_path) then
             log ("Warning: Audio file not found: " +:+ audio_path);;
             mret audio_clips
           else
             audio_clip ← lift (AudioFileClip audio_path);
             let audio_clip := volumex audio_clip (AudioTrackRequest.volume audio_req) in
             let audio_clip :=
               audio_set_start audio_clip (AudioTrackRequest.start_time audio_req) in
             mret (audio_clips ++ [audio_clip]))
          (λ e, log ("Warning: Failed to add audio track: " +:+ e);;
                mret audio_clips);
      audio_loop log url_resolver rest audio_clips
  end.

(** [for clip in processed_clips: clip.close()] *)
Fixpoint close_all (clips : list Clip) : Py.result () :=
  match clips with
  | [] => Py.Ok ()
  | clip :: rest => close clip;; close_all rest
  end.

(** [uuid8] is [uuid.uuid4().hex[:8]] of the output file name. *)
Definition process_export (job : Job.t) (clips_requests : list ClipRequest.t)
    (audio_tracks : list AudioTrackRequest.t) (settings : ExportSettings.t)
    (log_callback : string → M ()) (progress_callback : float → M ())
    (url_resolver : option (string → string)) (uuid8 : string) : M string :=
  let log := log_callback in
  try_except
    (log "Starting export process...";;
     log ("URL resolver provided: " +:+ Py.str_of_bool (bool_decide (is_Some url_resolver)));;
     log ("Uploads directory: " +:+ uploads_dir self);;
     let total_clips := length clips_requests in
     processed_clips ←
       clips_loop log progress_callback settings url_resolver total_clips 0
         clips_requests [];
     log "Concatenating clips...";;
     final_video ←
       match processed_clips with
       | [only] => mret only
       | _ => lift (concatenate_videoclips processed_clips)
       end;
     progress_callback 60%float;;
     log ("Resizing to " +:+ ExportSettings.aspect_ratio settings +:+ " aspect ratio...");;
     final_video ← lift (resize_to_aspect_ratio final_video
                           (ExportSettings.aspect_ratio settings)
                           (ExportSettings.quality settings));
     progress_callback 70%float;;
     final_video ←
       match audio_tracks with
       | [] => mret final_video
       | _ :: _ =>
           log ("Adding " +:+ Py.str_of_nat (length audio_tracks) +:+ " audio track(s)...");;
           let audio_clips :=
             match clip_audio final_video with
             | Some a => [a]
             | None => []
             end in
           audio_clips ← audio_loop log url_resolver audio_tracks audio_clips;
           match audio_clips with
           | [] => mret final_video
           | _ :: _ =>
               final_audio ← lift (CompositeAudioClip audio_clips);
               mret (set_audio final_video final_audio)
           end
       end;
     progress_callback 80%float;;
     let output_filename :=
       "export_" +:+ uuid8 +:+ "." +:+ ExportSettings.format settings in
     let output_path := Py.os_path_join (exports_dir self) output_filename in
     quality_settings ← lift (quality_settings_of (ExportSettings.quality settings));
     log ("Encoding video (" +:+ ExportSettings.quality settings +:+ " quality)...");;
     let codec :=
       if bool_decide (ExportSettings.format settings ∈ ["mp4"; "mov"]%string)
       then "libx264"%string else "mpeg4"%string in
     lift (write_videofile final_video output_path codec "aac"
             (bitrate quality_settings) (fps quality_settings));;
     emit (Written output_path);;
     progress_callback 100%float;;
     log "Export completed successfully!";;
     lift (close_all processed_clips);;
     lift (close final_video);;
     mret ("/api/download/" +:+ output_filename))
    (λ e, log ("Export failed: " +:+ e);; raise e).

End Methods.
End VideoProcessor.

(** ** Vocabulary of the properties *)

Module Observe.
Import JobQueue.

(** The progress stored for [job_id] after each of a sequence of
    [set_progress] calls, in call order. *)
Fixpoint progress_history (job_id : string) (vs : list float) (q : JobQueue.t)
  : list float :=
  match vs with
  | [] => []
  | v :: vs' =>
      match set_progress job_id v q with
      | Returns _ q' =>
          match jobs_get job_id q' with
          | Some job => Job.progress job :: progress_history job_id vs' q'
          | None => []
          end
      | Blocked _ => []
      end
  end.

(** Each value is at most the next one. *)
Definition non_decreasing (l : list float) : Prop :=
  ∀ i a b, l !! i = Some a → l !! S i = Some b → (a <=? b)%float = true.

(** The job as [cancel_job] leaves it before it logs. *)
Definition cancelled (job : Job.t) (now : Py.datetime) : Job.t :=
  Job.setattr (Job.setattr job (Job.kw_status JobStatus.FAILED))
    (Job.kw_completed_at (Some now)).

(** The state in which a method stopped, returning or blocked. *)
Definition state_of {A} (o : outcome A) : JobQueue.t :=
  match o with
  | Returns _ q => q
  | Blocked q => q
  end.

(** An id the dequeue loop passes over: its job is not stored or not
    PENDING. *)
Definition skippable (js : list (string * Job.t)) (job_id : string) : Prop :=
  ∀ job, Py.dict_get js job_id = Some job → Job.status job ≠ JobStatus.PENDING.

(** The status priority key of the listing:
    processing(0) < pending(1) < completed(2) < failed(3). *)
Definition status_priority (s : JobStatus.t) : Z :=
  match s with
  | JobStatus.PROCESSING => 0
  | JobStatus.PENDING => 1
  | JobStatus.COMPLETED => 2
  | JobStatus.FAILED => 3
  end.

(** [a] may be listed before [b]: lower status priority, or the same
    priority and created no later. *)
Definition listed_before (a b : Job.t) : Prop :=
  status_priority (Job.status a) < status_priority (Job.status b) ∨
  (status_priority (Job.status a) = status_priority (Job.status b) ∧
   Job.created_at a ≤ Job.created_at b).

(** Number of stored jobs in a given status. *)
Definition count_status (s : JobStatus.t) (q : JobQueue.t) : Z :=
  Z.of_nat (length (filter (λ job, Job.status job = s) (Py.dict_values (jobs q)))).

(** The progress values among the events of an export, in order. *)
Fixpoint progress_of (es : list VideoProcessor.event) : list float :=
  match es with
  | [] => []
  | VideoProcessor.Progress p :: es' => p :: progress_of es'
  | _ :: es' => progress_of es'
  end.

(** The checkpoint [(i + 1) / n * 50] after clip [i] of [n]. *)
Definition clip_checkpoint (n i : nat) : float :=
  (Py.float_of_int (Z.of_nat i + 1) / Py.float_of_int (Z.of_nat n) * 50)%float.

(** The checkpoints of clips [i], [i + 1], ... while [k] clips remain. *)
Fixpoint clip_checkpoints_from (n i k : nat) : list float :=
  match k with
  | O => []
  | S k' => clip_checkpoint n i :: clip_checkpoints_from n (S i) k'
  end.

(** All checkpoints of an export of [n] clips: the clips share 0-50 evenly,
    then 60, 70, 80 and 100. *)
Definition checkpoints (n : nat) : list float :=
  clip_checkpoints_from n 0 n ++ [60; 70; 80; 100]%float.

(** An event that is a log line. *)
Definition is_log (e : VideoProcessor.event) : Prop :=
  match e with
  | VideoProcessor.Log _ => True
  | _ => False
  end.

(** The events of an export other than log lines: what it reports as
    progress and what it writes, in order. *)
Fixpoint milestones (es : list VideoProcessor.event) : list VideoProcessor.event :=
  match es with
  | [] => []
  | VideoProcessor.Log _ :: es' => milestones es'
  | e :: es' => e :: milestones es'
  end.

(** The milestones of a complete export of [n] clips to [path]. *)
Definition plan (n : nat) (path : string) : list VideoProcessor.event :=
  map VideoProcessor.Progress (clip_checkpoints_from n 0 n) ++
  [VideoProcessor.Progress 60; VideoProcessor.Progress 70; VideoProcessor.Progress 80;
   VideoProcessor.Written path; VideoProcessor.Progress 100].

(** A computation keeps to the milestones [ms]: it reaches them in order,
    all of them if it returns. *)
Definition follows {A} (ms : list VideoProcessor.event) (m : VideoProcessor.M A) : Prop :=
  ∃ k, (k ≤ length ms)%nat ∧
       milestones (VideoProcessor.events m) = take k ms ∧
       (∀ a, VideoProcessor.outcome m = Py.Ok a → k = length ms).

(** A computation that emits log lines only. *)
Definition only_logs {A} (m : VideoProcessor.M A) : Prop :=
  Forall is_log (VideoProcessor.events m).

(** Where [process_export] writes its artifact. *)
Definition output_path (self : VideoProcessor.t) (settings : ExportSettings.t)
    (uuid8 : string) : string :=
  Py.os_path_join (VideoProcessor.exports_dir self)
    ("export_" +:+ uuid8 +:+ "." +:+ ExportSettings.format settings).

(** The composed clip with the source's fps if it is known, the preset's
    otherwise, and with the source's audio if it has one. *)
Definition keep_fps_and_audio `{VideoProcessor.Externals}
    (source composed : VideoProcessor.Clip) (preset_fps : Z) : VideoProcessor.Clip :=
  let fps :=
    match VideoProcessor.clip_fps source with
    | Some f => if (f =? 0)%float then Py.float_of_int preset_fps else f
    | None => Py.float_of_int preset_fps
    end in
  let with_fps := VideoProcessor.set_fps composed fps in
  match VideoProcessor.clip_audio source with
  | Some a => VideoProcessor.set_audio with_fps a
  | None => with_fps
  end.

(** The geometry of the specification, in exact arithmetic: the scale is
    the rational [min(targetW/srcW, targetH/srcH)] for a source of positive
    size. *)
Definition fit_scale (target_w target_h src_w src_h : Z) : QArith_base.Q :=
  Qminmax.Qmin (QArith_base.Qmake target_w (Z.to_pos src_w))
               (QArith_base.Qmake target_h (Z.to_pos src_h)).

(** The size [(srcW*scale, srcH*scale)] of the scaled content, in whole
    pixels. *)
Definition content_size (target_w target_h src_w src_h : Z) : Z * Z :=
  let scale := fit_scale target_w target_h src_w src_h in
  (Qround.Qfloor (QArith_base.Qmult (QArith_base.inject_Z src_w) scale),
   Qround.Qfloor (QArith_base.Qmult (QArith_base.inject_Z src_h) scale)).

(** Where content of size [new_w] x [new_h] is centred:
    [((targetW-newW)/2, (targetH-newH)/2)], floor halves as in the scenario
    of the specification (437 for 875/2). *)
Definition content_pos (target_w target_h new_w new_h : Z) : Z * Z :=
  ((target_w - new_w) `div` 2, (target_h - new_h) `div` 2).

(** The source resized to [size] and put at [pos] on an opaque black
    background of size [target]; the result keeps the source's fps if it is
    known, the preset's otherwise, and the source's audio if it has one. *)
Definition place `{VideoProcessor.Externals} (clip : VideoProcessor.Clip)
    (target size pos : Z * Z) (preset_fps : Z) : Py.result VideoProcessor.Clip :=
  resized ← VideoProcessor.resize clip size;
  background ← VideoProcessor.ColorClip target (0, 0, 0)
                  (VideoProcessor.clip_duration clip);
  composed ← VideoProcessor.CompositeVideoClip
                [background;
                 VideoProcessor.set_position resized
                   (VideoProcessor.Int pos.1, VideoProcessor.Int pos.2)]
                (Some target);
  mret (keep_fps_and_audio clip composed preset_fps).

(** Aspect-ratio normalization in the words of the specification: scale
    the source uniformly by [min(targetW/srcW, targetH/srcH)], resize it to
    [(srcW*scale, srcH*scale)], and centre it at
    [((targetW-newW)/2, (targetH-newH)/2)] on an opaque background of the
    target size. *)
Definition letterbox `{VideoProcessor.Externals} (clip : VideoProcessor.Clip)
    (target_w target_h preset_fps : Z) : Py.result VideoProcessor.Clip :=
  let size := content_size target_w target_h
                (VideoProcessor.clip_w clip) (VideoProcessor.clip_h clip) in
  place clip (target_w, target_h) size
    (content_pos target_w target_h size.1 size.2) preset_fps.

(** The content size that the binary64 arithmetic of
    [resize_to_aspect_ratio] arrives at: the quotients, their [min] and the
    products are rounded to binary64, and [int()] cuts the products. *)
Definition truncated_size (target_w target_h src_w src_h : Z) : Py.result (Z * Z) :=
  let scale := Py.min (Py.float_of_int target_w / Py.float_of_int src_w)
                      (Py.float_of_int target_h / Py.float_of_int src_h)%float in
  new_w ← Py.int (Py.float_of_int src_w * scale)%float;
  new_h ← Py.int (Py.float_of_int src_h * scale)%float;
  mret (new_w, new_h).

(** Source sizes in common use, among them the presets of the service. *)
Definition standard_sources : list (Z * Z) :=
  [(3840, 2160); (1920, 1080); (1280, 720); (640, 360); (640, 480); (320, 240);
   (1080, 1920); (720, 1280); (1080, 1080); (1000, 1000)].

(** The preset sizes and the target size per aspect ratio, as the
    specification lists them. *)
Definition preset_size (quality : string) : Z * Z :=
  if decide (quality = "low"%string) then (854, 480)
  else if decide (quality = "optimised"%string) then (1280, 720)
  else (1920, 1080).

Definition preset_fps (quality : string) : Z :=
  if decide (quality = "low"%string) then 24 else 30.

Definition target_size (aspect_ratio quality : string) : Z * Z :=
  let '(w, h) := preset_size quality in
  if decide (aspect_ratio = "16:9"%string) then (w, h)
  else if decide (aspect_ratio = "9:16"%string) then (h, w)
  else (Z.min w h, Z.min w h).

(** The clip request without its image overlays. *)
Definition without_image_overlays (c : ClipRequest.t) : ClipRequest.t :=
  {| ClipRequest.video_url := ClipRequest.video_url c;
     ClipRequest.start_time := ClipRequest.start_time c;
     ClipRequest.end_time := ClipRequest.end_time c;
     ClipRequest.track := ClipRequest.track c;
     ClipRequest.effects := ClipRequest.effects c;
     ClipRequest.text_overlays := ClipRequest.text_overlays c;
     ClipRequest.image_overlays := [] |}.

(** The error [download_image] raises when the fetch of [url] fails with [e]. *)
Definition download_error (url e : string) : string :=
  "Failed to download image from " +:+ url +:+ ": " +:+ e.

(** What [process_clip] logs for one image overlay whose download fails. *)
Definition dropped_overlay_logs (url e : string) : list VideoProcessor.event :=
  [VideoProcessor.Log "Adding 1 image overlay(s)";
   VideoProcessor.Log ("Failed to create image overlay: " +:+ download_error url e);
   VideoProcessor.Log ("Warning: Failed to add image overlay: " +:+ download_error url e)].

(** [m] behaves as [base] does, and when [base] returns it logs [extra]
    at the end besides. *)
Definition extends {A} (extra : list VideoProcessor.event)
    (m base : VideoProcessor.M A) : Prop :=
  match VideoProcessor.outcome base with
  | Py.Ok a => m = (VideoProcessor.events base ++ extra, Py.Ok a)
  | Py.Raise _ => m = base
  end.

(** Two runs that return or raise the same and reach the same milestones;
    they may differ in their log lines. *)
Definition same_but_logs {A} (m1 m2 : VideoProcessor.M A) : Prop :=
  VideoProcessor.outcome m1 = VideoProcessor.outcome m2 ∧
  milestones (VideoProcessor.events m1) = milestones (VideoProcessor.events m2).

(** The log entry [add_log] makes of [msg] at time [t]. *)
Definition stamped (t : Py.datetime) (msg : string) : string :=
  "[" +:+ Py.strftime_HMS t +:+ "] " +:+ msg.

End Observe.

(** ** Sample data on which the properties are exercised *)

Module Sample.

Definition settings : ExportSettings.t :=
  {| ExportSettings.aspect_ratio := "9:16";
     ExportSettings.quality := "optimised";
     ExportSettings.format := "mp4" |}.

Definition request : ExportRequest.t :=
  {| ExportRequest.clips := [];
     ExportRequest.audio_tracks := [];
     ExportRequest.settings := settings |}.

(** A job as [create_job] leaves it, in the given status. *)
Definition job (job_id : string) (status : JobStatus.t) (created_at : Py.datetime)
  : Job.t :=
  {| Job.id := job_id; Job.status := status; Job.progress := 0;
     Job.logs := ["[00:00:00] Job created and added to queue"%string];
     Job.created_at := created_at; Job.completed_at := None;
     Job.output_url := None; Job.request := Some request |}.

(** A store holding one job, with the lock free. *)
Definition store (j : Job.t) (ids : list string) : JobQueue.t :=
  {| JobQueue.jobs := [(Job.id j, j)]; JobQueue.queue := ids;
     JobQueue._lock := false |}.

(** Jobs A, B and C created in that order on a fresh queue. *)
Definition abc : JobQueue.t :=
  Observe.state_of
    ((JobQueue.create_job request "A" 1000000 1000001;;
      JobQueue.create_job request "B" 2000000 2000001;;
      JobQueue.create_job request "C" 3000000 3000001) JobQueue.init).

(** A stand-in for the external collaborators: clips are their size, the
    source file "/uploads/a.mp4" exists and is 1280x720, every media call
    succeeds, and every remote image fetch fails. *)
#[local] Instance externals : VideoProcessor.Externals := {|
  VideoProcessor.Clip := Z * Z;
  VideoProcessor.AudioClip := ();
  VideoProcessor.clip_w := fst;
  VideoProcessor.clip_h := snd;
  VideoProcessor.clip_duration := λ _, 10%float;
  VideoProcessor.clip_fps := λ _, Some 30%float;
  VideoProcessor.clip_audio := λ _, None;
  VideoProcessor.str_float := λ _, "<float>"%string;
  VideoProcessor.repr_list := λ _, "[...]"%string;
  VideoProcessor.os_path_exists := λ path, bool_decide (path = "/uploads/a.mp4"%string);
  VideoProcessor.os_listdir := λ _, Py.Ok [];
  VideoProcessor.requests_get_to_file := λ _ _, Py.Raise "404 Client Error";
  VideoProcessor.pil_fit_and_save := λ _ path _ _, Py.Ok path;
  VideoProcessor.VideoFileClip := λ _, Py.Ok (1280, 720);
  VideoProcessor.subclip := λ clip _ _, Py.Ok clip;
  VideoProcessor.speedx := λ clip _, Py.Ok clip;
  VideoProcessor.fadein := λ clip _, Py.Ok clip;
  VideoProcessor.fadeout := λ clip _, Py.Ok clip;
  VideoProcessor.TextClip := λ _ _ _ _, Py.Ok (100, 20);
  VideoProcessor.ImageClip := λ _ _, Py.Ok (400, 400);
  VideoProcessor.resize_width := λ _ w, Py.Ok (w, w);
  VideoProcessor.resize := λ _ size, Py.Ok size;
  VideoProcessor.ColorClip := λ size _ _, Py.Ok size;
  VideoProcessor.CompositeVideoClip := λ clips size,
    Py.Ok (default (default (0, 0) (head clips)) size);
  VideoProcessor.concatenate_videoclips := λ clips,
    match clips with
    | [] => Py.Raise "list index out of range"
    | clip :: _ => Py.Ok clip
    end;
  VideoProcessor.set_position := λ clip _, clip;
  VideoProcessor.set_start := λ clip _, clip;
  VideoProcessor.set_duration := λ clip _, clip;
  VideoProcessor.set_fps := λ clip _, clip;
  VideoProcessor.set_audio := λ clip _, clip;
  VideoProcessor.AudioFileClip := λ _, Py.Ok ();
  VideoProcessor.volumex := λ a _, a;
  VideoProcessor.audio_set_start := λ a _, a;
  VideoProcessor.CompositeAudioClip := λ _, Py.Ok ();
  VideoProcessor.write_videofile := λ _ _ _ _ _ _, Py.Ok ();
  VideoProcessor.close := λ _, Py.Ok () |}.

Definition processor : VideoProcessor.t :=
  {| VideoProcessor.uploads_dir := "/uploads";
     VideoProcessor.exports_dir := "/exports";
     VideoProcessor.temp_dir := "/temp" |}.

(** The worker's resolver, on the urls of the samples. *)
Definition resolver (url : string) : string :=
  Py.os_path_join "/uploads" (Py.replace url "/static/uploads/" "").

Definition overlay : ImageOverlay.t :=
  {| ImageOverlay.image_url := "https://example.org/logo.png";
     ImageOverlay.image_shape := "CIRCLE";
     ImageOverlay.shape_image_url := None;
     ImageOverlay.percentage_width := 30;
     ImageOverlay.percentage_from_top := 20;
     ImageOverlay.percentage_from_start := 35;
     ImageOverlay.start_time := 0;
     ImageOverlay.end_time := 2 |}.

(** One clip of the existing source, with the given image overlays. *)
Definition clip (image_overlays : list ImageOverlay.t) : ClipRequest.t :=
  {| ClipRequest.video_url := "/static/uploads/a.mp4";
     ClipRequest.start_time := 0;
     ClipRequest.end_time := 5;
     ClipRequest.track := 0;
     ClipRequest.effects :=
       {| ClipEffects.fade_in := 0; ClipEffects.fade_out := 0; ClipEffects.speed := 1 |};
     ClipRequest.text_overlays := [];
     ClipRequest.image_overlays := image_overlays |}.

(** An export of the given clips and audio tracks with the worker's
    callbacks. *)
Definition export (clips : list ClipRequest.t) (audio : list AudioTrackRequest.t)
  : VideoProcessor.M string :=
  VideoProcessor.process_export processor (job "j1" JobStatus.PROCESSING 0)
    clips audio settings VideoProcessor.log_event VideoProcessor.progress_event
    (Some resolver) "0123abcd".

(** A clock that ticks one second per reading, from noon. *)
Definition clock (k : nat) : Py.datetime := (43200 + Z.of_nat k) * 1000000.

(** A PENDING job asking for one clip with one image overlay. *)
Definition overlay_job : Job.t :=
  {| Job.id := "j1"; Job.status := JobStatus.PENDING; Job.progress := 0;
     Job.logs := ["[11:59:59] Job created and added to queue"%string];
     Job.created_at := 43199000000; Job.completed_at := None;
     Job.output_url := None;
     Job.request :=
       Some {| ExportRequest.clips := [clip [overlay]];
               ExportRequest.audio_tracks := [];
               ExportRequest.settings := settings |} |}.

End Sample.

(** ** Further built-ins *)

Module PyMore.

(** [max(a, b)]: the first argument unless the second is strictly greater. *)
Definition max (a b : float) : float := if (a <? b)%float then b else a.

(** The path separator "/". *)
Definition slash : Ascii.ascii := Ascii.ascii_of_nat 47.

(** [os.path.isabs(p)] on POSIX paths. *)
Definition os_path_isabs (p : string) : bool := String.prefix "/" p.

(** The part of [s] after its last "/", or all of [s]; [acc] is the part
    read since the last "/", reversed. *)
Fixpoint basename_from (acc : string) (s : string) : string :=
  match s with
  | EmptyString => String.rev acc
  | String c s' =>
      if bool_decide (c = slash) then basename_from EmptyString s'
      else basename_from (String c acc) s'
  end.

(** [os.path.basename(p)] on POSIX paths. *)
Definition os_path_basename (p : string) : string := basename_from EmptyString p.

(** No "/" occurs in [s]. *)
Fixpoint no_slash (s : string) : bool :=
  match s with
  | EmptyString => true
  | String c s' => negb (bool_decide (c = slash)) && no_slash s'
  end.

(** The path made of the directory [dir] and the name [name]: [dir], a "/"
    unless [dir] is empty or ends with one, and [name] as it is. *)
Definition entry_path (dir name : string) : string :=
  dir +:+ (if bool_decide (dir = EmptyString) || Py.endswith_slash dir
           then EmptyString else "/"%string) +:+ name.

End PyMore.

(** ** video_processor.py: thumbnails *)

Module VideoTools.
Import VideoProcessor.

(** Frames of a clip and the image library, besides [Externals]:
    [get_frame] is [clip.get_frame(t)]; [save_thumbnail] is lines 202-210
    of [generate_thumbnail] (the frame as an image, shrunk to fit the given
    box, saved as JPEG at the given path). *)
Class Frames `{Externals} := {
  Frame : Type;
  get_frame : Clip → float → Py.result Frame;
  save_thumbnail : Frame → Z * Z → string → Py.result () }.

(** The float that the literal [0.1] denotes. *)
Definition tenth : float := 0x1.999999999999ap-4%float.

(** The time at which [generate_thumbnail] takes its frame:
    [time = min(time, clip.duration - 0.1)] and then [time = max(time, 0)]. *)
Definition frame_time (time duration : float) : float :=
  PyMore.max (Py.min time (duration - tenth)%float) 0.

(** [uuid8] is the [uuid.uuid4().hex[:8]] of the default output name. *)
Definition generate_thumbnail `{Frames} (self : VideoProcessor.t) (video_path : string)
    (time : float) (output_path : option string) (uuid8 : string) : Py.result string :=
  match
    (clip ← VideoFileClip video_path;
     let time := frame_time time (clip_duration clip) in
     frame ← get_frame clip time;
     let output_path :=
       match output_path with
       | Some path => path
       | None => Py.os_path_join (temp_dir self) ("thumb_" +:+ uuid8 +:+ ".jpg")
       end in
     save_thumbnail frame (320, 180) output_path;;
     close clip;;
     mret output_path)
  with
  | Py.Ok path => Py.Ok path
  | Py.Raise e => Py.Raise ("Failed to generate thumbnail: " +:+ e)
  end.

End VideoTools.

(** ** main.py: path resolution and the endpoints on jobs *)

Module Api.
Import JobQueue.

Section Paths.
(** The directories of the service and [urlparse(url).path]. *)
Context (UPLOADS_DIR EXPORTS_DIR TEMP_DIR : string) (urlparse_path : string → string).

Definition url_to_filepath (url : string) : string :=
  if bool_decide (url = EmptyString) then EmptyString
  else
    let url :=
      if Py.startswith url "http://" || Py.startswith url "https://"
      then urlparse_path url else url in
    if Py.startswith url "/static/uploads/" then
      Py.os_path_join UPLOADS_DIR (Py.replace url "/static/uploads/" "")
    else if Py.startswith url "/static/exports/" then
      Py.os_path_join EXPORTS_DIR (Py.replace url "/static/exports/" "")
    else if Py.startswith url "/static/temp/" then
      Py.os_path_join TEMP_DIR (Py.replace url "/static/temp/" "")
    else if PyMore.os_path_isabs url then url
    else Py.os_path_join UPLOADS_DIR (PyMore.os_path_basename url).

(** The file that [download_export] serves for [filename]. *)
Definition download_path (filename : string) : string :=
  Py.os_path_join EXPORTS_DIR filename.

End Paths.

(** What an endpoint answers: a body, or an [HTTPException]. *)
Inductive answer (A : Type) :=
| Response (body : A)
| HTTPException (status_code : Z) (detail : string).
Arguments Response {A} body.
Arguments HTTPException {A} status_code detail.

(** POST /api/job/{job_id}/cancel *)
Definition cancel_job_endpoint (job_id : string) (now now_log : Py.datetime)
  : method (answer string) :=
  λ q,
    match get_job job_id q with
    | None => Returns (HTTPException 404 "Job not found") q
    | Some job =>
        if decide (Job.status job ≠ JobStatus.PENDING) then
          Returns (HTTPException 400 "Can only cancel pending jobs") q
        else
          (cancel_job job_id now now_log;; mret (Response "Job cancelled"%string)) q
    end.

(** POST /api/export: the id of the job created for the request. *)
Definition start_export (request : ExportRequest.t) (job_id : string)
    (now now_log : Py.datetime) : method string :=
  job ← create_job request job_id now now_log; mret (Job.id job).

End Api.

(** ** main.py: one round of the background worker

    [process_jobs] and the request handlers are coroutines of one event
    loop.  From [get_next_job] to the start of the export the worker does not
    await, so no request is served in between.  The export then runs in a
    thread of its own, from which its callbacks call [add_log] and
    [set_progress], while the worker awaits it; requests are served during
    that time, up to the moment the worker resumes and calls [complete_job]
    or [fail_job].  The handlers that change the job store are
    [start_export] and [cancel_job]; [get_job], [get_all_jobs] and
    [get_queue_stats] take no lock and change nothing. *)

Module Worker.
Import JobQueue.

(** A request served while an export runs. *)
Inductive handled :=
| StartExport (request : ExportRequest.t) (job_id : string) (now now_log : Py.datetime)
| Cancel (job_id : string) (now now_log : Py.datetime).

Definition serve (h : handled) : method () :=
  match h with
  | StartExport request job_id now now_log =>
      Api.start_export request job_id now now_log;; mret ()
  | Cancel job_id now now_log =>
      Api.cancel_job_endpoint job_id now now_log;; mret ()
  end.

Fixpoint serve_all (hs : list handled) : method () :=
  match hs with
  | [] => mret ()
  | h :: hs' => serve h;; serve_all hs'
  end.

(** The callbacks that [process_jobs] hands to the export, applied to the
    events of a run in order: [log_callback] is [add_log] on the job,
    [progress_callback] is [set_progress].  [meanwhile j] are the requests
    served before the [j]-th event of the run, in the order in which they are
    served.  [clock k] is the [k]-th reading of [datetime.now()] by the
    worker in this round; the result is the number of readings made. *)
Fixpoint forward (job_id : string) (clock : nat → Py.datetime)
    (meanwhile : nat → list handled) (j k : nat)
    (es : list VideoProcessor.event) : method nat :=
  match es with
  | [] => mret k
  | e :: es' =>
      serve_all (meanwhile j);;
      match e with
      | VideoProcessor.Log msg =>
          add_log job_id msg (clock k);; forward job_id clock meanwhile (S j) (S k) es'
      | VideoProcessor.Progress p =>
          set_progress job_id p;; forward job_id clock meanwhile (S j) k es'
      | VideoProcessor.Written _ => forward job_id clock meanwhile (S j) k es'
      end
  end.

(** The export that a round of the worker runs for [job], with the worker's
    callbacks and resolver; for a job without a request the round fails on
    reading its clips. *)
Definition export_of `{VideoProcessor.Externals} (processor : VideoProcessor.t)
    (url_to_filepath : string → string) (uuid8 : string) (job : Job.t)
  : VideoProcessor.M string :=
  match Job.request job with
  | Some request =>
      VideoProcessor.process_export processor job
        (ExportRequest.clips request) (ExportRequest.audio_tracks request)
        (ExportRequest.settings request)
        VideoProcessor.log_event VideoProcessor.progress_event
        (Some url_to_filepath) uuid8
  | None => VideoProcessor.raise "'NoneType' object has no attribute 'clips'"
  end.

(** The [if job:] branch of [process_jobs] for the job that
    [get_next_job] returned.  The export touches the store only through its
    callbacks, so its run is computed first and then forwarded, with the
    requests served meanwhile in their places; the last of them are served
    after the last event of the run, before the worker resumes. *)
Definition process_job `{VideoProcessor.Externals} (processor : VideoProcessor.t)
    (url_to_filepath : string → string) (clock : nat → Py.datetime)
    (meanwhile : nat → list handled) (uuid8 : string) (job : Job.t) : method () :=
  update_job (Job.id job) [Job.kw_status JobStatus.PROCESSING];;
  add_log (Job.id job) "Starting processing..." (clock 0%nat);;
  let run := export_of processor url_to_filepath uuid8 job in
  k ← forward (Job.id job) clock meanwhile 0 1 (VideoProcessor.events run);
  serve_all (meanwhile (length (VideoProcessor.events run)));;
  match VideoProcessor.outcome run with
  | Py.Ok output_url => complete_job (Job.id job) output_url (clock k) (clock (S k))
  | Py.Raise e => fail_job (Job.id job) e (clock k) (clock (S k))
  end.

(** A request that does not disturb the round of the job [job_id]: the
    start of an export under another id, or a cancel request for the job of
    the round, which is refused while the job is in progress. *)
Definition harmless (job_id : string) (h : handled) : Prop :=
  match h with
  | StartExport _ other _ _ => other ≠ job_id
  | Cancel other _ _ => other = job_id
  end.

End Worker.

(** ** Sequences of calls on the job store *)

Module Calls.
Import JobQueue.

(** The calls the service makes on its [JobQueue]: the API handlers create,
    cancel and read; the worker dequeues, marks a job PROCESSING, forwards
    log lines and progress, and completes or fails it. *)
Inductive call :=
| CreateJob (request : ExportRequest.t) (job_id : string) (now now_log : Py.datetime)
| MarkProcessing (job_id : string)
| AddLog (job_id : string) (log : string) (now : Py.datetime)
| SetProgress (job_id : string) (progress : float)
| GetNextJob
| CompleteJob (job_id : string) (output_url : string) (now now_log : Py.datetime)
| FailJob (job_id : string) (error : string) (now now_log : Py.datetime)
| CancelJob (job_id : string) (now now_log : Py.datetime).

Definition run (c : call) : method () :=
  match c with
  | CreateJob request job_id now now_log =>
      create_job request job_id now now_log;; mret ()
  | MarkProcessing job_id => update_job job_id [Job.kw_status JobStatus.PROCESSING]
  | AddLog job_id log now => add_log job_id log now
  | SetProgress job_id progress => set_progress job_id progress
  | GetNextJob => get_next_job;; mret ()
  | CompleteJob job_id output_url now now_log =>
      complete_job job_id output_url now now_log
  | FailJob job_id error now now_log => fail_job job_id error now now_log
  | CancelJob job_id now now_log => cancel_job job_id now now_log
  end.

(** [n] calls of [get_next_job] in a row, with what each returned. *)
Fixpoint drain (n : nat) : method (list (option Job.t)) :=
  match n with
  | O => mret []
  | S n' => job ← get_next_job; jobs ← drain n'; mret (job :: jobs)
  end.

(** The store after the job under [job_id], if there is one, has been
    changed by [f]. *)
Definition apply_job (job_id : string) (f : Job.t → Job.t) (q : JobQueue.t)
  : JobQueue.t :=
  match jobs_get job_id q with
  | Some job => with_jobs q (Py.dict_set (jobs q) job_id (f job))
  | None => q
  end.

(** The ids of the stored jobs, in store order. *)
Definition stored_ids (q : JobQueue.t) : list string := (jobs q).*1.

(** [job'] is a later state of [job]: same id, creation time and request,
    and a log that continues the log of [job]. *)
Definition continues (job job' : Job.t) : Prop :=
  Job.id job' = Job.id job ∧
  Job.created_at job' = Job.created_at job ∧
  Job.request job' = Job.request job ∧
  Job.logs job `prefix_of` Job.logs job'.

(** The stored PENDING jobs among the ids [ids], in order. *)
Definition pending_of (js : list (string * Job.t)) (ids : list string) : list Job.t :=
  omap (λ job_id,
          job ← Py.dict_get js job_id;
          if decide (Job.status job = JobStatus.PENDING) then Some job else None)
       ids.

End Calls.

(** ** Vocabulary of the properties of the overlay and audio stages *)

Module Stages.
Import VideoProcessor.

Section Kept.
Context `{Externals} (self : VideoProcessor.t).

(** The clip that the text loop adds for [overlay] on [clip], when the text
    can be rendered. *)
Definition text_clip_of (clip : Clip) (overlay : TextOverlay.t) : option Clip :=
  match TextClip (TextOverlay.text overlay) (TextOverlay.font_size overlay)
          (TextOverlay.color overlay) (TextOverlay.font_family overlay) with
  | Py.Ok txt_clip =>
      let x_pos := (Position.x (TextOverlay.position overlay) / 100
                    * Py.float_of_int (clip_w clip))%float in
      let y_pos := (Position.y (TextOverlay.position overlay) / 100
                    * Py.float_of_int (clip_h clip))%float in
      Some (set_duration
              (set_start (set_position txt_clip (Float x_pos, Float y_pos))
                 (TextOverlay.start_time overlay))
              (TextOverlay.end_time overlay - TextOverlay.start_time overlay)%float)
  | Py.Raise _ => None
  end.

(** The warning that the text loop logs for [overlay], when the text cannot
    be rendered. *)
Definition text_warning_of (overlay : TextOverlay.t) : option event :=
  match TextClip (TextOverlay.text overlay) (TextOverlay.font_size overlay)
          (TextOverlay.color overlay) (TextOverlay.font_family overlay) with
  | Py.Ok _ => None
  | Py.Raise e => Some (Log ("Warning: Failed to add text overlay: " +:+ e))
  end.

(** The clip that the image loop adds for [overlay] on [clip], when it can be
    made. *)
Definition image_clip_of (clip : Clip) (overlay : ImageOverlay.t) : option Clip :=
  match outcome (create_image_overlay_clip self overlay (clip_w clip) (clip_h clip)
                   (Some log_event)) with
  | Py.Ok img_clip => Some img_clip
  | Py.Raise _ => None
  end.

(** Where the audio stage looks for the track of [audio_req]. *)
Definition audio_path_of (url_resolver : option (string → string))
    (audio_req : AudioTrackRequest.t) : string :=
  match url_resolver with
  | Some resolve => resolve (AudioTrackRequest.url audio_req)
  | None => AudioTrackRequest.url audio_req
  end.

(** The audio clip that the audio stage adds for [audio_req], when its file
    exists and can be read. *)
Definition audio_clip_of (url_resolver : option (string → string))
    (audio_req : AudioTrackRequest.t) : option AudioClip :=
  if os_path_exists (audio_path_of url_resolver audio_req) then
    match AudioFileClip (audio_path_of url_resolver audio_req) with
    | Py.Ok audio_clip =>
        Some (audio_set_start
                (volumex audio_clip (AudioTrackRequest.volume audio_req))
                (AudioTrackRequest.start_time audio_req))
    | Py.Raise _ => None
    end
  else None.

(** The warning that the audio stage logs for [audio_req], when it adds no
    clip for it. *)
Definition audio_warning_of (url_resolver : option (string → string))
    (audio_req : AudioTrackRequest.t) : option event :=
  if os_path_exists (audio_path_of url_resolver audio_req) then
    match AudioFileClip (audio_path_of url_resolver audio_req) with
    | Py.Ok _ => None
    | Py.Raise e => Some (Log ("Warning: Failed to add audio track: " +:+ e))
    end
  else Some (Log ("Warning: Audio file not found: "
                  +:+ audio_path_of url_resolver audio_req)).

(** Where [process_clip] looks for the source of [clip_request]: what the
    resolver makes of its url or, without a resolver, the file under the
    uploads directory for an upload url and the url itself otherwise. *)
Definition video_path_of (url_resolver : option (string → string))
    (clip_request : ClipRequest.t) : string :=
  match url_resolver with
  | Some resolve => resolve (ClipRequest.video_url clip_request)
  | None =>
      if Py.startswith (ClipRequest.video_url clip_request) "/static/uploads/" then
        Py.os_path_join (uploads_dir self)
          (Py.replace (ClipRequest.video_url clip_request) "/static/uploads/" "")
      else ClipRequest.video_url clip_request
  end.

End Kept.

(** A computation that returns nothing but [v]. *)
Definition returns_only {A} (v : A) (m : M A) : Prop :=
  ∀ a, outcome m = Py.Ok a → a = v.

(** The name of the file that an export writes. *)
Definition output_filename (settings : ExportSettings.t) (uuid8 : string) : string :=
  "export_" +:+ uuid8 +:+ "." +:+ ExportSettings.format settings.

(** Every stored job is stored under its own id. *)
Definition well_keyed (q : JobQueue.t) : Prop :=
  ∀ job_id job, JobQueue.jobs_get job_id q = Some job → Job.id job = job_id.

End Stages.

(** ** The stages of an export *)

Module Staging.
Import VideoProcessor.

Section Stages.
Context `{Externals} (self : VideoProcessor.t) (settings : ExportSettings.t)
  (url_resolver : option (string → string)).

(** How the processing of one clip of the export ends. *)
Definition clip_outcome (clip_req : ClipRequest.t) : Py.result Clip :=
  outcome (process_clip self clip_req (ExportSettings.aspect_ratio settings)
             (ExportSettings.quality settings) (Some log_event) url_resolver).

(** The clips processed before the first clip whose processing raises, and
    the error of that one. *)
Fixpoint clips_outcome (clips_requests : list ClipRequest.t)
  : list Clip * option string :=
  match clips_requests with
  | [] => ([], None)
  | clip_req :: rest =>
      match clip_outcome clip_req with
      | Py.Ok clip =>
          let '(processed, err) := clips_outcome rest in (clip :: processed, err)
      | Py.Raise e => ([], Some e)
      end
  end.

(** What is logged and reported while the clips are processed, from clip [i]
    on: for each clip the two lines that announce it, what its processing
    logs and, if the processing returned, its checkpoint; nothing after a
    clip whose processing raised. *)
Fixpoint clip_rounds (total_clips i : nat) (clips_requests : list ClipRequest.t)
  : list event :=
  match clips_requests with
  | [] => []
  | clip_req :: rest =>
      [Log ("Processing clip " +:+ Py.str_of_nat (i + 1) +:+ "/"
            +:+ Py.str_of_nat total_clips);
       Log ("Clip video_url: " +:+ ClipRequest.video_url clip_req)] ++
      events (process_clip self clip_req (ExportSettings.aspect_ratio settings)
                (ExportSettings.quality settings) (Some log_event) url_resolver) ++
      match clip_outcome clip_req with
      | Py.Ok _ =>
          Progress (Observe.clip_checkpoint total_clips i)
            :: clip_rounds total_clips (S i) rest
      | Py.Raise _ => []
      end
  end.

(** Lines 428-431 of [process_export]: the one processed clip, or the
    concatenation of the processed clips. *)
Definition concatenated (processed_clips : list Clip) : Py.result Clip :=
  match processed_clips with
  | [only] => Py.Ok only
  | _ => concatenate_videoclips processed_clips
  end.

(** Lines 443-471 of [process_export]: the audio stage. *)
Definition audio_stage (audio_tracks : list AudioTrackRequest.t) (final_video : Clip)
  : M Clip :=
  match audio_tracks with
  | [] => mret final_video
  | _ :: _ =>
      log_event ("Adding " +:+ Py.str_of_nat (length audio_tracks)
                 +:+ " audio track(s)...");;
      let audio_clips :=
        match clip_audio final_video with
        | Some a => [a]
        | None => []
        end in
      audio_clips ← audio_loop log_event url_resolver audio_tracks audio_clips;
      match audio_clips with
      | [] => mret final_video
      | _ :: _ =>
          final_audio ← lift (CompositeAudioClip audio_clips);
          mret (set_audio final_video final_audio)
      end
  end.

(** Lines 476-494 of [process_export]: the preset of the quality is looked up
    and the video is written to the output path. *)
Definition encoded (final_video : Clip) (uuid8 : string) : Py.result () :=
  quality_settings ← quality_settings_of (ExportSettings.quality settings);
  write_videofile final_video (Observe.output_path self settings uuid8)
    (if bool_decide (ExportSettings.format settings ∈ ["mp4"; "mov"]%string)
     then "libx264"%string else "mpeg4"%string)
    "aac" (bitrate quality_settings) (fps quality_settings).

(** Lines 500-502 of [process_export]: the clips are closed. *)
Definition cleaned_up (processed_clips : list Clip) (final_video : Clip)
  : Py.result () :=
  close_all processed_clips;; close final_video.

End Stages.

End Staging.

(** ** More sample data *)

Module MoreSamples.

(** A clip whose source file does not exist. *)
Definition missing_clip : ClipRequest.t :=
  {| ClipRequest.video_url := "/static/uploads/b.mp4";
     ClipRequest.start_time := 0;
     ClipRequest.end_time := 5;
     ClipRequest.track := 0;
     ClipRequest.effects :=
       {| ClipEffects.fade_in := 0; ClipEffects.fade_out := 0; ClipEffects.speed := 1 |};
     ClipRequest.text_overlays := [];
     ClipRequest.image_overlays := [] |}.

(** A PENDING job, stored under its id, asking for the given clips. *)
Definition job_of (clips : list ClipRequest.t) : Job.t :=
  {| Job.id := "j1"; Job.status := JobStatus.PENDING; Job.progress := 0;
     Job.logs := ["[11:59:59] Job created and added to queue"%string];
     Job.created_at := 43199000000; Job.completed_at := None;
     Job.output_url := None;
     Job.request :=
       Some {| ExportRequest.clips := clips;
               ExportRequest.audio_tracks := [];
               ExportRequest.settings := Sample.settings |} |}.

End MoreSamples.

(** * Properties *)

(** ** Order facts on binary64 floats, from their specification *)

Module FloatOrder.

Local Ltac cmp_cases :=
  repeat match goal with
    | |- context [Z.compare ?a ?b] => destruct (Z.compare_spec a b)
    | |- context [Pos.compare_cont Eq ?a ?b] =>
        change (Pos.compare_cont Eq a b) with (Pos.compare a b);
        destruct (Pos.compare_spec a b)
    end.

Local Ltac by_cases x y :=
  destruct x as [[]|[]| |[] ? ?], y as [[]|[]| |[] ? ?];
  simpl; try congruence; cmp_cases; simpl; try congruence; try lia.

Lemma SFltb_leb_trans x y z :
  SFltb x y = true → SFleb y z = true → SFltb x z = true.
Proof.
  unfold SFltb, SFleb. destruct z as [[]|[]| |[] ? ?]; by_cases x y.
Qed.

Lemma SFltb_trans x y z :
  SFltb x y = true → SFltb y z = true → SFltb x z = true.
Proof.
  unfold SFltb. destruct z as [[]|[]| |[] ? ?]; by_cases x y.
Qed.

Lemma SFltb_asym x y : SFltb x y = true → SFltb y x = false.
Proof. unfold SFltb. by_cases x y. Qed.

Lemma SFleb_total x y :
  SFeqb x x = true → SFeqb y y = true → SFltb y x = false → SFleb x y = true.
Proof. unfold SFltb, SFleb, SFeqb. by_cases x y. Qed.

Lemma SFleb_ltb_false x y : SFleb x y = true → SFltb y x = false.
Proof. unfold SFltb, SFleb. by_cases x y. Qed.

Lemma SFleb_refl_l x y : SFleb x y = true → SFeqb x x = true.
Proof.
  unfold SFleb, SFeqb. destruct x as [[]|[]| |[] ? ?], y as [[]|[]| |[] ? ?];
    simpl; try congruence; intros _;
    rewrite ?Z.compare_refl, ?Pos.compare_cont_refl; done.
Qed.

Lemma ltb_leb_trans (x y z : float) :
  (x <? y)%float = true → (y <=? z)%float = true → (x <? z)%float = true.
Proof. rewrite !FloatAxioms.ltb_spec, FloatAxioms.leb_spec. apply SFltb_leb_trans. Qed.

Lemma ltb_trans (x y z : float) :
  (x <? y)%float = true → (y <? z)%float = true → (x <? z)%float = true.
Proof. rewrite !FloatAxioms.ltb_spec. apply SFltb_trans. Qed.

Lemma ltb_asym (x y : float) : (x <? y)%float = true → (y <? x)%float = false.
Proof. rewrite !FloatAxioms.ltb_spec. apply SFltb_asym. Qed.

Lemma leb_ltb_false (x y : float) : (x <=? y)%float = true → (y <? x)%float = false.
Proof. rewrite FloatAxioms.ltb_spec, FloatAxioms.leb_spec. apply SFleb_ltb_false. Qed.

Lemma leb_total (x y : float) :
  (x =? x)%float = true → (y =? y)%float = true →
  (y <? x)%float = false → (x <=? y)%float = true.
Proof.
  rewrite !FloatAxioms.eqb_spec, FloatAxioms.ltb_spec, FloatAxioms.leb_spec.
  apply SFleb_total.
Qed.

Lemma leb_refl_l (x y : float) : (x <=? y)%float = true → (x =? x)%float = true.
Proof. rewrite FloatAxioms.eqb_spec, FloatAxioms.leb_spec. apply SFleb_refl_l. Qed.

(** [min(v, 100)] as the sources call it. *)
Lemma min_100_le (v : float) : (100 <? Py.min v 100)%float = false.
Proof.
  unfold Py.min. destruct (100 <? v)%float eqn:E; [reflexivity | exact E].
Qed.

Lemma min_100_of_le (v : float) : (v <=? 100)%float = true → Py.min v 100 = v.
Proof. intros Hle. unfold Py.min. by rewrite (leb_ltb_false _ _ Hle). Qed.

Lemma min_100_of_gt (v : float) : (100 <? v)%float = true → Py.min v 100 = 100%float.
Proof. intros Hlt. unfold Py.min. by rewrite Hlt. Qed.

Lemma min_100_mono (v1 v2 : float) :
  (v1 <=? v2)%float = true → (Py.min v1 100 <=? Py.min v2 100)%float = true.
Proof.
  intros Hle. unfold Py.min.
  destruct (100 <? v1)%float eqn:E1, (100 <? v2)%float eqn:E2; try done.
  - by rewrite (ltb_leb_trans _ _ _ E1 Hle) in E2.
  - apply leb_total; [by eapply leb_refl_l | done | done].
Qed.

End FloatOrder.

(** ** The job store *)

Module JobQueueFacts.
Import JobQueue Observe.

Section DictFacts.
Context {V : Type}.
Implicit Types (d : list (string * V)) (k : string) (v : V).

Lemma dict_get_set_eq d k v : Py.dict_get (Py.dict_set d k v) k = Some v.
Proof.
  induction d as [|[k' v'] d IH]; simpl.
  - by rewrite decide_True.
  - destruct (decide (k' = k)) as [->|Hne]; simpl.
    + by rewrite decide_True.
    + by rewrite decide_False.
Qed.

Lemma dict_get_set_ne d k k' v :
  k ≠ k' → Py.dict_get (Py.dict_set d k v) k' = Py.dict_get d k'.
Proof.
  intros Hne. induction d as [|[k0 v0] d IH]; simpl.
  - by rewrite decide_False.
  - destruct (decide (k0 = k)) as [->|Hne0]; simpl.
    + by rewrite !decide_False.
    + by rewrite IH.
Qed.

Lemma dict_set_length d k v v0 :
  Py.dict_get d k = Some v0 → length (Py.dict_set d k v) = length d.
Proof.
  induction d as [|[k' v'] d IH]; simpl; [done|].
  destruct (decide (k' = k)); simpl; [done|]. intros Hget. by rewrite IH.
Qed.
End DictFacts.

(** A method that takes the lock once, on a state where nobody holds it. *)
Lemma with_lock_free {A} (body : method A) q :
  _lock q = false →
  with_lock body q =
    match body (with__lock q true) with
    | Returns a q' => Returns a (with__lock q' false)
    | Blocked q' => Blocked q'
    end.
Proof. intros Hfree. unfold with_lock. by rewrite Hfree. Qed.

Lemma with_lock_held {A} (body : method A) q :
  _lock q = true → with_lock body q = Blocked q.
Proof. intros Hheld. unfold with_lock. by rewrite Hheld. Qed.

Lemma update_job_present q job_id job kwargs :
  _lock q = false → jobs_get job_id q = Some job →
  update_job job_id kwargs q =
    Returns () (with_jobs q (Py.dict_set (jobs q) job_id (foldl Job.setattr job kwargs))).
Proof.
  intros Hfree Hget. unfold update_job. rewrite with_lock_free by done.
  unfold mutate_job, jobs_get in *. simpl. rewrite Hget.
  destruct q; simpl in *; by subst.
Qed.

Lemma update_job_absent q job_id kwargs :
  _lock q = false → jobs_get job_id q = None → update_job job_id kwargs q = Returns () q.
Proof.
  intros Hfree Hget. unfold update_job. rewrite with_lock_free by done.
  unfold mutate_job, jobs_get in *. simpl. rewrite Hget.
  destruct q; simpl in *; by subst.
Qed.

Lemma add_log_present q job_id job log now :
  _lock q = false → jobs_get job_id q = Some job →
  add_log job_id log now q =
    Returns () (with_jobs q (Py.dict_set (jobs q) job_id
      (append_log (stamped now log) job))).
Proof.
  intros Hfree Hget. unfold add_log. rewrite with_lock_free by done.
  unfold mutate_job, jobs_get in *. simpl. rewrite Hget.
  destruct q; simpl in *; by subst.
Qed.

Lemma jobs_get_with_jobs_eq q job_id job :
  jobs_get job_id (with_jobs q (Py.dict_set (jobs q) job_id job)) = Some job.
Proof. unfold jobs_get. simpl. apply dict_get_set_eq. Qed.

Lemma jobs_get_with_jobs_ne q job_id other job :
  job_id ≠ other →
  jobs_get other (with_jobs q (Py.dict_set (jobs q) job_id job)) = jobs_get other q.
Proof. intros Hne. unfold jobs_get. simpl. by apply dict_get_set_ne. Qed.

(** What [set_progress] does to a job that is in the store. *)
Lemma set_progress_present q job_id job v :
  _lock q = false → jobs_get job_id q = Some job →
  set_progress job_id v q =
    Returns () (with_jobs q (Py.dict_set (jobs q) job_id
                  (Job.setattr job (Job.kw_progress (Py.min v 100))))).
Proof. intros Hfree Hget. unfold set_progress. by rewrite (update_job_present _ _ job). Qed.

(** C9. For a job that is in the store (and a lock nobody holds),
    [set_progress job_id v] returns and stores exactly [min(v, 100)] as the
    job's progress: [v] itself when [v <= 100], 100 when [v > 100]; nothing
    bounds it from below, so a negative [v] is stored as it is.  Every other
    field of the job, every other job and the queue are left as they were. *)
Theorem set_progress_stores_min q job_id job (v : float) :
  _lock q = false → jobs_get job_id q = Some job →
  ∃ q' job',
    set_progress job_id v q = Returns () q' ∧
    jobs_get job_id q' = Some job' ∧
    job' = Job.setattr job (Job.kw_progress (Py.min v 100)) ∧
    ((v <=? 100)%float = true → Job.progress job' = v) ∧
    ((100 <? v)%float = true → Job.progress job' = 100%float) ∧
    ((v <? 0)%float = true →
       Job.progress job' = v ∧ (Job.progress job' <? 0)%float = true) ∧
    (∀ other, other ≠ job_id → jobs_get other q' = jobs_get other q) ∧
    queue q' = queue q ∧ _lock q' = false.
Proof.
  intros Hfree Hget. eexists _, _.
  split; [by apply (set_progress_present _ _ job)|].
  split; [apply jobs_get_with_jobs_eq|].
  split; [done|]. simpl.
  split; [apply FloatOrder.min_100_of_le|].
  split; [apply FloatOrder.min_100_of_gt|].
  split.
  - intros Hneg.
    assert (Py.min v 100 = v) as ->; [|done].
    unfold Py.min. rewrite FloatOrder.ltb_asym; [done|].
    by apply (FloatOrder.ltb_trans v 0 100).
  - split; [|done]. intros other Hne. by apply jobs_get_with_jobs_ne.
Qed.

Lemma set_progress_stores_min_witness :
  ∃ q' job',
    set_progress "j1" (-5)%float
      (Sample.store (Sample.job "j1" JobStatus.PROCESSING 0) []) = Returns () q' ∧
    jobs_get "j1" q' = Some job' ∧
    job' = Job.setattr (Sample.job "j1" JobStatus.PROCESSING 0)
             (Job.kw_progress (Py.min (-5) 100)) ∧
    (((-5) <=? 100)%float = true → Job.progress job' = (-5)%float) ∧
    ((100 <? (-5))%float = true → Job.progress job' = 100%float) ∧
    (((-5) <? 0)%float = true →
       Job.progress job' = (-5)%float ∧ (Job.progress job' <? 0)%float = true) ∧
    (∀ other, other ≠ "j1"%string →
       jobs_get other q' =
       jobs_get other (Sample.store (Sample.job "j1" JobStatus.PROCESSING 0) [])) ∧
    queue q' = [] ∧ _lock q' = false.
Proof.
  apply (set_progress_stores_min
           (Sample.store (Sample.job "j1" JobStatus.PROCESSING 0) []) "j1"
           (Sample.job "j1" JobStatus.PROCESSING 0) (-5)%float); reflexivity.
Defined.

Lemma non_decreasing_cons a b l :
  (a <=? b)%float = true → non_decreasing (b :: l) → non_decreasing (a :: b :: l).
Proof.
  intros Hab Hl [|i] x y Hx Hy; simpl in *.
  - by simplify_eq.
  - by apply (Hl i).
Qed.

Lemma non_decreasing_inv a b l :
  non_decreasing (a :: b :: l) → (a <=? b)%float = true ∧ non_decreasing (b :: l).
Proof.
  intros Hl. split.
  - by apply (Hl 0%nat).
  - intros i x y Hx Hy. by apply (Hl (S i)).
Qed.

Lemma non_decreasing_map_min vs :
  non_decreasing vs → non_decreasing (map (λ v, Py.min v 100) vs).
Proof.
  induction vs as [|a [|b vs] IH]; intros Hvs.
  - by intros [|i] x y.
  - intros [|i] x y; simpl; [done|by destruct i].
  - apply non_decreasing_inv in Hvs as [Hab Hvs].
    change (non_decreasing (Py.min a 100 :: Py.min b 100 :: map (λ v, Py.min v 100) vs)).
    apply non_decreasing_cons; [by apply FloatOrder.min_100_mono|by apply IH].
Qed.

(** A sequence of [set_progress] calls stores the clamped arguments, one
    after the other. *)
Lemma progress_history_map vs : ∀ q job_id job,
  _lock q = false → jobs_get job_id q = Some job →
  progress_history job_id vs q = map (λ v, Py.min v 100) vs.
Proof.
  induction vs as [|v vs IH]; intros q job_id job Hfree Hget; [done|].
  simpl. rewrite (set_progress_present _ _ job) by done.
  rewrite jobs_get_with_jobs_eq. simpl. f_equal.
  eapply IH; [done|apply jobs_get_with_jobs_eq].
Qed.

(** C1, as the code has it. For a job in the store and any sequence of
    [set_progress] calls, every call returns and the stored progress is
    [min(v, 100)] of that call's argument: it never exceeds 100.  It is
    non-decreasing from one call to the next when the arguments are; nothing
    in the store compares a new value with the stored one. *)
Theorem progress_history_clamped q job_id job vs :
  _lock q = false → jobs_get job_id q = Some job →
  progress_history job_id vs q = map (λ v, Py.min v 100) vs ∧
  Forall (λ p, (100 <? p)%float = false) (progress_history job_id vs q) ∧
  (non_decreasing vs → non_decreasing (progress_history job_id vs q)).
Proof.
  intros Hfree Hget. rewrite (progress_history_map vs q job_id job) by done.
  split; [done|]. split.
  - apply Forall_map, Forall_true. intros v. apply FloatOrder.min_100_le.
  - apply non_decreasing_map_min.
Qed.

Lemma progress_history_clamped_witness :
  progress_history "j1" [10; 55.5; 120]%float
    (Sample.store (Sample.job "j1" JobStatus.PROCESSING 0) []) =
    map (λ v, Py.min v 100) [10; 55.5; 120]%float ∧
  Forall (λ p, (100 <? p)%float = false)
    (progress_history "j1" [10; 55.5; 120]%float
       (Sample.store (Sample.job "j1" JobStatus.PROCESSING 0) [])) ∧
  (non_decreasing [10; 55.5; 120]%float →
   non_decreasing
     (progress_history "j1" [10; 55.5; 120]%float
        (Sample.store (Sample.job "j1" JobStatus.PROCESSING 0) []))).
Proof.
  apply (progress_history_clamped
           (Sample.store (Sample.job "j1" JobStatus.PROCESSING 0) []) "j1"
           (Sample.job "j1" JobStatus.PROCESSING 0)); reflexivity.
Defined.

(** C1 as stated fails: after [set_progress(j1, 50)] the store holds 50, and
    after [set_progress(j1, 30)] it holds 30, a smaller value. *)
Lemma progress_can_decrease :
  progress_history "j1" [50; 30]%float
    (Sample.store (Sample.job "j1" JobStatus.PROCESSING 0) []) = [50; 30]%float ∧
  (30 <? 50)%float = true ∧
  ¬ non_decreasing
      (progress_history "j1" [50; 30]%float
         (Sample.store (Sample.job "j1" JobStatus.PROCESSING 0) [])).
Proof.
  split; [reflexivity|]. split; [reflexivity|].
  intros Hmono. by specialize (Hmono 0%nat 50%float 30%float eq_refl eq_refl).
Qed.

(** C10. For a job in the store, [fail_job] returns; afterwards the job has
    status FAILED, [completed_at] set to the time of the call and one more log
    entry, the timestamped text "Job failed: " followed by the error; its id,
    progress, creation time, output url and request are the ones it had, in
    particular progress is neither reset nor forced to 100.  Every other job
    and the queue are untouched. *)
Theorem fail_job_frame q job_id job error now now_log :
  _lock q = false → jobs_get job_id q = Some job →
  ∃ q' job' entry,
    fail_job job_id error now now_log q = Returns () q' ∧
    jobs_get job_id q' = Some job' ∧
    Job.status job' = JobStatus.FAILED ∧
    Job.completed_at job' = Some now ∧
    Job.logs job' = Job.logs job ++ [entry] ∧
    entry = ("[" +:+ Py.strftime_HMS now_log +:+ "] Job failed: " +:+ error)%string ∧
    Job.progress job' = Job.progress job ∧
    Job.output_url job' = Job.output_url job ∧
    Job.id job' = Job.id job ∧
    Job.created_at job' = Job.created_at job ∧
    Job.request job' = Job.request job ∧
    (∀ other, other ≠ job_id → jobs_get other q' = jobs_get other q) ∧
    queue q' = queue q ∧ _lock q' = false.
Proof.
  intros Hfree Hget. eexists _, _, _. split.
  - unfold fail_job, mbind, method_bind, bind.
    rewrite (update_job_present _ _ job) by done.
    erewrite add_log_present; [done|done|apply jobs_get_with_jobs_eq].
  - split; [apply jobs_get_with_jobs_eq|]. simpl.
    repeat (split; [done|]). split; [|done].
    intros other Hne. unfold jobs_get. simpl.
    by rewrite !dict_get_set_ne.
Qed.

Lemma fail_job_frame_witness :
  ∃ q' job' entry,
    fail_job "j1" "Video file not found" 7000000 8000000
      (Sample.store (Sample.job "j1" JobStatus.PROCESSING 0) []) = Returns () q' ∧
    jobs_get "j1" q' = Some job' ∧
    Job.status job' = JobStatus.FAILED ∧
    Job.completed_at job' = Some 7000000 ∧
    Job.logs job' = Job.logs (Sample.job "j1" JobStatus.PROCESSING 0) ++ [entry] ∧
    entry = "[00:00:08] Job failed: Video file not found"%string ∧
    Job.progress job' = Job.progress (Sample.job "j1" JobStatus.PROCESSING 0) ∧
    Job.output_url job' = Job.output_url (Sample.job "j1" JobStatus.PROCESSING 0) ∧
    Job.id job' = Job.id (Sample.job "j1" JobStatus.PROCESSING 0) ∧
    Job.created_at job' = Job.created_at (Sample.job "j1" JobStatus.PROCESSING 0) ∧
    Job.request job' = Job.request (Sample.job "j1" JobStatus.PROCESSING 0) ∧
    (∀ other, other ≠ "j1"%string →
       jobs_get other q' =
       jobs_get other (Sample.store (Sample.job "j1" JobStatus.PROCESSING 0) [])) ∧
    queue q' = [] ∧ _lock q' = false.
Proof.
  apply (fail_job_frame
           (Sample.store (Sample.job "j1" JobStatus.PROCESSING 0) []) "j1"
           (Sample.job "j1" JobStatus.PROCESSING 0) "Video file not found"
           7000000 8000000); reflexivity.
Defined.

(** *** Cancellation and the scheduler queue *)

Lemma cancel_job_not_pending q job_id job now now_log :
  _lock q = false → jobs_get job_id q = Some job →
  Job.status job ≠ JobStatus.PENDING →
  cancel_job job_id now now_log q = Returns () q.
Proof.
  intros Hfree Hget Hst. unfold cancel_job. rewrite with_lock_free by done.
  unfold jobs_get in *. simpl. rewrite Hget, decide_False by done.
  destruct q; simpl in *; by subst.
Qed.

Lemma cancel_job_unknown q job_id now now_log :
  _lock q = false → jobs_get job_id q = None →
  cancel_job job_id now now_log q = Returns () q.
Proof.
  intros Hfree Hget. unfold cancel_job. rewrite with_lock_free by done.
  unfold jobs_get in *. simpl. rewrite Hget.
  destruct q; simpl in *; by subst.
Qed.

Lemma get_next_job_held q : _lock q = true → get_next_job q = Blocked q.
Proof. apply with_lock_held. Qed.

Lemma add_log_held q job_id log now : _lock q = true → add_log job_id log now q = Blocked q.
Proof. apply with_lock_held. Qed.

Lemma update_job_held q job_id kwargs : _lock q = true → update_job job_id kwargs q = Blocked q.
Proof. apply with_lock_held. Qed.

(** On a PENDING job [cancel_job] takes the lock, marks the job, and then
    calls [add_log], which waits for the lock its caller holds. *)
Lemma cancel_job_pending q job_id job now now_log :
  _lock q = false → jobs_get job_id q = Some job →
  Job.status job = JobStatus.PENDING →
  cancel_job job_id now now_log q =
    Blocked {| jobs := Py.dict_set (jobs q) job_id (cancelled job now);
               queue := queue q; _lock := true |}.
Proof.
  intros Hfree Hget Hst. unfold cancel_job. rewrite with_lock_free by done.
  unfold jobs_get in *. simpl. rewrite Hget, decide_True by done.
  unfold mbind, method_bind, bind, mutate_job, jobs_get. simpl. rewrite Hget.
  by rewrite add_log_held.
Qed.

Lemma get_next_job_free q :
  _lock q = false →
  get_next_job q =
    Returns (pop_pending (jobs q) (queue q)).1
            (with_queue q (pop_pending (jobs q) (queue q)).2).
Proof.
  intros Hfree. unfold get_next_job. rewrite with_lock_free by done. simpl.
  destruct (pop_pending (jobs q) (queue q)) as [found ids]. simpl.
  destruct q; simpl in *; by subst.
Qed.

(** The dequeue loop: it drops the ids at the front whose job is missing or
    not PENDING and stops at the first PENDING one. *)
Lemma pop_pending_found js ids job rest :
  pop_pending js ids = (Some job, rest) →
  ∃ skipped job_id,
    ids = skipped ++ job_id :: rest ∧
    Py.dict_get js job_id = Some job ∧ Job.status job = JobStatus.PENDING ∧
    Forall (skippable js) skipped.
Proof.
  induction ids as [|i ids IH]; simpl; [done|].
  destruct (Py.dict_get js i) as [j|] eqn:Hi.
  - destruct (decide (Job.status j = JobStatus.PENDING)) as [Hp|Hp].
    + intros [= -> ->]. by exists [], i.
    + intros (skipped & job_id & -> & ? & ? & ?)%IH.
      exists (i :: skipped), job_id. repeat split; try done.
      constructor; [|done]. intros j' Hj'. by simplify_eq.
  - intros (skipped & job_id & -> & ? & ? & ?)%IH.
    exists (i :: skipped), job_id. repeat split; try done.
    constructor; [|done]. intros j' Hj'. by simplify_eq.
Qed.

Lemma pop_pending_none js ids rest :
  pop_pending js ids = (None, rest) →
  rest = [] ∧ Forall (skippable js) ids.
Proof.
  induction ids as [|i ids IH]; simpl; [by intros [= <-]|].
  destruct (Py.dict_get js i) as [j|] eqn:Hi.
  - destruct (decide (Job.status j = JobStatus.PENDING)) as [Hp|Hp]; [done|].
    intros [-> ?]%IH. split; [done|].
    constructor; [|done]. intros j' Hj'. by simplify_eq.
  - intros [-> ?]%IH. split; [done|].
    constructor; [|done]. intros j' Hj'. by simplify_eq.
Qed.

(** Had the cancellation of B completed (B marked FAILED, lock released),
    two dequeues would return A and then C, whether or not B's id had been
    taken out of the queue. *)
Example dequeue_skips_cancelled :
  let jobs := [("A", Sample.job "A" JobStatus.PENDING 1);
               ("B", cancelled (Sample.job "B" JobStatus.PENDING 2) 4);
               ("C", Sample.job "C" JobStatus.PENDING 3)]%string in
  ∀ ids, ids = ["A"; "B"; "C"]%string ∨ ids = ["A"; "C"]%string →
  (j1 ← get_next_job; j2 ← get_next_job; j3 ← get_next_job;
   mret (Job.id <$> j1, Job.id <$> j2, Job.id <$> j3))
    {| jobs := jobs; queue := ids; _lock := false |} =
  Returns (Some "A", Some "C", None)%string
          {| jobs := jobs; queue := []; _lock := false |}.
Proof. intros jobs ids [-> | ->]; reflexivity. Qed.

(** C5. For a job in the store, [cancel_job] on a PROCESSING, COMPLETED or
    FAILED job returns and changes nothing, neither the job nor the queue.
    On a PENDING job it marks the job FAILED and sets [completed_at], and
    then never returns: [add_log] waits for the non-reentrant lock that
    [cancel_job] itself holds.  The cancellation is not logged, the id stays
    in the queue, and the lock stays held, so every later locking call
    blocks as well. *)
Theorem cancel_job_guard_and_deadlock q job_id job now now_log :
  _lock q = false → jobs_get job_id q = Some job →
  (Job.status job ≠ JobStatus.PENDING →
     cancel_job job_id now now_log q = Returns () q) ∧
  (Job.status job = JobStatus.PENDING →
     ∃ q' job',
       cancel_job job_id now now_log q = Blocked q' ∧
       jobs_get job_id q' = Some job' ∧
       Job.status job' = JobStatus.FAILED ∧
       Job.completed_at job' = Some now ∧
       Job.logs job' = Job.logs job ∧
       queue q' = queue q ∧
       _lock q' = true ∧
       get_next_job q' = Blocked q' ∧
       (∀ log t, add_log job_id log t q' = Blocked q')).
Proof.
  intros Hfree Hget. split.
  - by apply cancel_job_not_pending.
  - intros Hst. eexists _, _. split; [by apply cancel_job_pending|].
    split; [apply dict_get_set_eq|]. simpl. repeat (split; [done|]).
    intros. by apply add_log_held.
Qed.

Lemma cancel_job_guard_and_deadlock_witness :
  (Job.status (Sample.job "B" JobStatus.PENDING 2) ≠ JobStatus.PENDING →
     cancel_job "B" 5000000 6000000
       (Sample.store (Sample.job "B" JobStatus.PENDING 2) ["B"%string]) =
     Returns () (Sample.store (Sample.job "B" JobStatus.PENDING 2) ["B"%string])) ∧
  (Job.status (Sample.job "B" JobStatus.PENDING 2) = JobStatus.PENDING →
     ∃ q' job',
       cancel_job "B" 5000000 6000000
         (Sample.store (Sample.job "B" JobStatus.PENDING 2) ["B"%string]) = Blocked q' ∧
       jobs_get "B" q' = Some job' ∧
       Job.status job' = JobStatus.FAILED ∧
       Job.completed_at job' = Some 5000000 ∧
       Job.logs job' = Job.logs (Sample.job "B" JobStatus.PENDING 2) ∧
       queue q' = ["B"%string] ∧
       _lock q' = true ∧
       get_next_job q' = Blocked q' ∧
       (∀ log t, add_log "B" log t q' = Blocked q')).
Proof.
  apply (cancel_job_guard_and_deadlock
           (Sample.store (Sample.job "B" JobStatus.PENDING 2) ["B"%string]) "B"
           (Sample.job "B" JobStatus.PENDING 2) 5000000 6000000); reflexivity.
Defined.

(** [get_next_job] on a free lock returns, with the queue cut after the id
    it stopped at. *)
Lemma get_next_job_returns q :
  _lock q = false →
  ∃ found rest,
    get_next_job q = Returns found (with_queue q rest) ∧
    match found with
    | Some job =>
        ∃ skipped job_id,
          queue q = skipped ++ job_id :: rest ∧
          jobs_get job_id q = Some job ∧ Job.status job = JobStatus.PENDING ∧
          Forall (skippable (jobs q)) skipped
    | None => rest = [] ∧ Forall (skippable (jobs q)) (queue q)
    end.
Proof.
  intros Hfree. rewrite get_next_job_free by done.
  destruct (pop_pending (jobs q) (queue q)) as [[job|] rest] eqn:Hpop;
    eexists _, _; (split; [done|]); simpl.
  - by apply pop_pending_found.
  - by apply pop_pending_none.
Qed.

(** C3. On a free lock the dequeue itself is as described: it pops ids from
    the front, drops those whose job is missing or not PENDING, returns the
    first PENDING job, or none with the queue emptied.  The scenario fails
    before it gets there: cancelling a PENDING job B never returns (see
    [cancel_job_pending]), so no dequeue follows it, and a dequeue made from
    elsewhere on the state B's cancellation left blocks on the held lock;
    neither returns A or C. *)
Theorem dequeue_after_cancel_blocks q b job now now_log :
  _lock q = false → jobs_get b q = Some job → Job.status job = JobStatus.PENDING →
  (∃ found rest,
     get_next_job q = Returns found (with_queue q rest) ∧
     match found with
     | Some first =>
         ∃ skipped job_id,
           queue q = skipped ++ job_id :: rest ∧
           jobs_get job_id q = Some first ∧ Job.status first = JobStatus.PENDING ∧
           Forall (skippable (jobs q)) skipped
     | None => rest = [] ∧ Forall (skippable (jobs q)) (queue q)
     end) ∧
  (∃ q',
     (cancel_job b now now_log;;
      j1 ← get_next_job; j2 ← get_next_job; mret (j1, j2)) q = Blocked q' ∧
     cancel_job b now now_log q = Blocked q' ∧
     get_next_job q' = Blocked q' ∧
     queue q' = queue q).
Proof.
  intros Hfree Hget Hst. split; [by apply get_next_job_returns|].
  eexists. unfold mbind, method_bind, bind.
  rewrite (cancel_job_pending _ _ job) by done.
  by repeat split.
Qed.

Lemma dequeue_after_cancel_blocks_witness :
  (∃ found rest,
     get_next_job Sample.abc = Returns found (with_queue Sample.abc rest) ∧
     match found with
     | Some first =>
         ∃ skipped job_id,
           queue Sample.abc = skipped ++ job_id :: rest ∧
           jobs_get job_id Sample.abc = Some first ∧
           Job.status first = JobStatus.PENDING ∧
           Forall (skippable (jobs Sample.abc)) skipped
     | None => rest = [] ∧ Forall (skippable (jobs Sample.abc)) (queue Sample.abc)
     end) ∧
  (∃ q',
     (cancel_job "B" 4000000 4000001;;
      j1 ← get_next_job; j2 ← get_next_job; mret (j1, j2)) Sample.abc = Blocked q' ∧
     cancel_job "B" 4000000 4000001 Sample.abc = Blocked q' ∧
     get_next_job q' = Blocked q' ∧
     queue q' = queue Sample.abc).
Proof.
  apply (dequeue_after_cancel_blocks Sample.abc "B"
           (Job.setattr (Sample.job "B" JobStatus.PENDING 2000000)
              (Job.kw_logs ["[00:00:02] Job created and added to queue"%string]))
           4000000 4000001); reflexivity.
Defined.

(** *** Statistics *)

(** The counters during the loop of [get_queue_stats]: the five keys stay
    present, "total" keeps its value and each job adds one to the counter of
    its status. *)
Lemma stats_loop (l : list Job.t) : ∀ (stats : gmap string Z) p r c f total,
  stats !! "pending"%string = Some p → stats !! "processing"%string = Some r →
  stats !! "completed"%string = Some c → stats !! "failed"%string = Some f →
  stats !! "total"%string = Some total →
  ∃ stats',
    foldl (λ acc job, stats ← acc; stats_incr stats (JobStatus.value (Job.status job)))
          (Some stats) l = Some stats' ∧
    stats' !! "pending"%string =
      Some (p + Z.of_nat (length (filter (λ j, Job.status j = JobStatus.PENDING) l))) ∧
    stats' !! "processing"%string =
      Some (r + Z.of_nat (length (filter (λ j, Job.status j = JobStatus.PROCESSING) l))) ∧
    stats' !! "completed"%string =
      Some (c + Z.of_nat (length (filter (λ j, Job.status j = JobStatus.COMPLETED) l))) ∧
    stats' !! "failed"%string =
      Some (f + Z.of_nat (length (filter (λ j, Job.status j = JobStatus.FAILED) l))) ∧
    stats' !! "total"%string = Some total.
Proof.
  induction l as [|job l IH]; intros stats p r c f total Hp Hr Hc Hf Ht.
  - exists stats. simpl. rewrite !Z.add_0_r. done.
  - simpl. unfold stats_incr at 2.
    destruct (Job.status job) eqn:Hst; simpl.
    + rewrite Hp. simpl.
      edestruct (IH (<["pending"%string := p + 1]> stats)) as (stats' & -> & Hs);
        [by rewrite lookup_insert_eq | by rewrite lookup_insert_ne ..|].
      exists stats'. split; [done|].
      rewrite !filter_cons, Hst. simpl in *.
      destruct Hs as (-> & -> & -> & -> & ->). repeat split; f_equal; lia.
    + rewrite Hr. simpl.
      edestruct (IH (<["processing"%string := r + 1]> stats)) as (stats' & -> & Hs);
        [by rewrite lookup_insert_ne | by rewrite lookup_insert_eq
        | by rewrite lookup_insert_ne ..|].
      exists stats'. split; [done|].
      rewrite !filter_cons, Hst. simpl in *.
      destruct Hs as (-> & -> & -> & -> & ->). repeat split; f_equal; lia.
    + rewrite Hc. simpl.
      edestruct (IH (<["completed"%string := c + 1]> stats)) as (stats' & -> & Hs);
        [by rewrite lookup_insert_ne | by rewrite lookup_insert_ne
        | by rewrite lookup_insert_eq | by rewrite lookup_insert_ne ..|].
      exists stats'. split; [done|].
      rewrite !filter_cons, Hst. simpl in *.
      destruct Hs as (-> & -> & -> & -> & ->). repeat split; f_equal; lia.
    + rewrite Hf. simpl.
      edestruct (IH (<["failed"%string := f + 1]> stats)) as (stats' & -> & Hs);
        [by rewrite lookup_insert_ne | by rewrite lookup_insert_ne
        | by rewrite lookup_insert_ne | by rewrite lookup_insert_eq
        | by rewrite lookup_insert_ne |].
      exists stats'. split; [done|].
      rewrite !filter_cons, Hst. simpl in *.
      destruct Hs as (-> & -> & -> & -> & ->). repeat split; f_equal; lia.
Qed.

Lemma count_by_status (l : list Job.t) :
  (length (filter (λ j, Job.status j = JobStatus.PENDING) l) +
   length (filter (λ j, Job.status j = JobStatus.PROCESSING) l) +
   length (filter (λ j, Job.status j = JobStatus.COMPLETED) l) +
   length (filter (λ j, Job.status j = JobStatus.FAILED) l) = length l)%nat.
Proof.
  induction l as [|job l IH]; [done|].
  rewrite !filter_cons. destruct (Job.status job);
    rewrite ?decide_True, ?decide_False by done; simpl; lia.
Qed.

(** C7. For every store, [get_queue_stats] returns (no key is ever missing)
    a dict whose "pending", "processing", "completed" and "failed" entries
    are the numbers of stored jobs in each status and whose "total" entry is
    the number N of stored jobs; the four counts add up to total = N. *)
Theorem queue_stats_invariant (q : JobQueue.t) :
  ∃ stats pending processing completed failed total,
    get_queue_stats q = Some stats ∧
    stats !! "pending"%string = Some pending ∧
    stats !! "processing"%string = Some processing ∧
    stats !! "completed"%string = Some completed ∧
    stats !! "failed"%string = Some failed ∧
    stats !! "total"%string = Some total ∧
    pending = count_status JobStatus.PENDING q ∧
    processing = count_status JobStatus.PROCESSING q ∧
    completed = count_status JobStatus.COMPLETED q ∧
    failed = count_status JobStatus.FAILED q ∧
    total = Z.of_nat (length (jobs q)) ∧
    pending + processing + completed + failed = total.
Proof.
  unfold get_queue_stats.
  match goal with |- context [foldl _ (Some ?m) _] => set (stats0 := m) end.
  destruct (stats_loop (Py.dict_values (jobs q)) stats0 0 0 0 0
              (Z.of_nat (length (jobs q))))
    as (stats & -> & Hp & Hr & Hc & Hf & Ht); [done..|].
  eexists stats, _, _, _, _, _. split; [done|].
  repeat (split; [eassumption|]). unfold count_status.
  repeat (split; [done|]).
  pose proof (count_by_status (Py.dict_values (jobs q))) as Hsum.
  unfold Py.dict_values in *. rewrite length_fmap in Hsum. lia.
Qed.

(** *** Listing *)

Section SortedFacts.
Context {A : Type} (lt : A → A → bool).
Context (lt_asym : ∀ x y, lt x y = true → lt y x = false).
Context (le_trans : ∀ x y z, lt y x = false → lt z y = false → lt z x = false).

(** [x] may stand before [y]: [y < x] does not hold. *)
Let le (x y : A) : Prop := lt y x = false.

Lemma insert_sorted_perm a l : Py.insert_sorted lt a l ≡ₚ a :: l.
Proof.
  induction l as [|b l IH]; simpl; [done|].
  destruct (lt b a); [|done]. by rewrite IH, Permutation_swap.
Qed.

Lemma sorted_perm l : Py.sorted lt l ≡ₚ l.
Proof.
  induction l as [|a l IH]; simpl; [done|].
  unfold Py.sorted in IH. by rewrite insert_sorted_perm, IH.
Qed.

Lemma insert_sorted_sorted a l :
  StronglySorted le l → StronglySorted le (Py.insert_sorted lt a l).
Proof.
  induction 1 as [|b l Hl IH Hb]; simpl.
  - by repeat constructor.
  - destruct (lt b a) eqn:Hba.
    + constructor; [done|]. rewrite insert_sorted_perm.
      constructor; [by apply lt_asym|done].
    + constructor; [by constructor|]. constructor; [done|].
      eapply Forall_impl; [done|]. intros x Hx. by apply (le_trans _ b).
Qed.

Lemma sorted_sorted l : StronglySorted le (Py.sorted lt l).
Proof.
  induction l as [|a l IH]; simpl; [constructor|]. by apply insert_sorted_sorted.
Qed.

(** Stability: what is inserted goes before the elements it is not greater
    than, so jobs with equal keys keep their store order. *)
Lemma insert_sorted_head a l : Forall (le a) l → Py.insert_sorted lt a l = a :: l.
Proof. destruct 1 as [|b l Hb]; simpl; [done|]. unfold le in Hb. by rewrite Hb. Qed.

End SortedFacts.

Lemma StronglySorted_weaken {A} (R R' : A → A → Prop) l :
  (∀ x y, R x y → R' x y) → StronglySorted R l → StronglySorted R' l.
Proof.
  intros HR. induction 1 as [|a l Hl IH Ha]; constructor; [done|].
  eapply Forall_impl; [done|]. auto.
Qed.

(** A list has one sorted arrangement when the order is antisymmetric on it. *)
Lemma sorted_perm_unique {A} (R : A → A → Prop) (l1 : list A) : ∀ l2,
  (∀ x y, x ∈ l1 → y ∈ l1 → R x y → R y x → x = y) →
  StronglySorted R l1 → StronglySorted R l2 → l1 ≡ₚ l2 → l1 = l2.
Proof.
  induction l1 as [|x l1 IH]; intros l2 Hanti Hs1 Hs2 Hperm.
  - by apply Permutation_nil_l in Hperm.
  - destruct l2 as [|y l2]; [by apply Permutation_nil_r in Hperm|].
    apply StronglySorted_inv in Hs1 as [Hs1 Hx].
    apply StronglySorted_inv in Hs2 as [Hs2 Hy].
    assert (x = y) as ->.
    { assert (x ∈ y :: l2) as Hxin by (rewrite <-Hperm; left).
      assert (y ∈ x :: l1) as Hyin by (rewrite Hperm; left).
      apply elem_of_cons in Hxin as [->|Hxin]; [done|].
      apply elem_of_cons in Hyin as [->|Hyin]; [done|].
      rewrite Forall_forall in Hx, Hy.
      apply Hanti; [left|by right|by apply Hx|by apply Hy]. }
    f_equal. apply IH; [|done|done|by apply (inj (cons y))].
    intros a b Ha Hb. apply Hanti; by right.
Qed.

Lemma key_lt_spec (k1 k2 : Z * Py.datetime) :
  key_lt k1 k2 = true ↔ k1.1 < k2.1 ∨ (k1.1 = k2.1 ∧ k1.2 < k2.2).
Proof. unfold key_lt. destruct k1, k2; simpl. lia. Qed.

Lemma key_lt_false (k1 k2 : Z * Py.datetime) :
  key_lt k1 k2 = false ↔ k2.1 < k1.1 ∨ (k2.1 = k1.1 ∧ k2.2 ≤ k1.2).
Proof. unfold key_lt. destruct k1, k2; simpl. lia. Qed.

(** The dict lookup with default computes the priority key of the listing. *)
Lemma sort_key_priority job :
  sort_key job = (status_priority (Job.status job), Job.created_at job).
Proof. unfold sort_key. by destruct (Job.status job). Qed.

Lemma listed_before_key a b :
  key_lt (sort_key b) (sort_key a) = false ↔ listed_before a b.
Proof. rewrite key_lt_false, !sort_key_priority. unfold listed_before. simpl. lia. Qed.

Lemma get_all_jobs_perm q : get_all_jobs q ≡ₚ Py.dict_values (jobs q).
Proof. apply sorted_perm. Qed.

Lemma get_all_jobs_sorted q : StronglySorted listed_before (get_all_jobs q).
Proof.
  eapply StronglySorted_weaken; [|apply sorted_sorted].
  - intros a b. apply listed_before_key.
  - intros a b. rewrite key_lt_spec, key_lt_false. lia.
  - intros a b c. rewrite !key_lt_false. lia.
Qed.

(** C6. For every store, [get_all_jobs] lists exactly the stored jobs, each
    one once, ordered by the status priority processing(0) < pending(1) <
    completed(2) < failed(3) and, within one status, by [created_at]
    ascending.  In particular a store that holds, in any insertion order, the
    four jobs A:FAILED@t1, B:PENDING@t2, C:PROCESSING@t3, D:PENDING@t4 with
    t1 < t2 < t3 < t4 lists them as [C, B, D, A]. *)
Theorem get_all_jobs_order (q : JobQueue.t) :
  get_all_jobs q ≡ₚ Py.dict_values (jobs q) ∧
  StronglySorted listed_before (get_all_jobs q) ∧
  (∀ (a b c d : Job.t) (t1 t2 t3 t4 : Py.datetime),
     Job.status a = JobStatus.FAILED → Job.created_at a = t1 →
     Job.status b = JobStatus.PENDING → Job.created_at b = t2 →
     Job.status c = JobStatus.PROCESSING → Job.created_at c = t3 →
     Job.status d = JobStatus.PENDING → Job.created_at d = t4 →
     t1 < t2 → t2 < t3 → t3 < t4 →
     Py.dict_values (jobs q) ≡ₚ [a; b; c; d] →
     get_all_jobs q = [c; b; d; a]).
Proof.
  split; [apply get_all_jobs_perm|]. split; [apply get_all_jobs_sorted|].
  intros a b c d t1 t2 t3 t4 Ha Hta Hb Htb Hc Htc Hd Htd H12 H23 H34 Hperm.
  symmetry. apply (sorted_perm_unique listed_before).
  - intros x y Hx Hy Hxy Hyx. unfold listed_before in *.
    repeat match goal with
           | H : _ ∈ _ :: _ |- _ => apply elem_of_cons in H as [->|H]
           | H : _ ∈ [] |- _ => by apply elem_of_nil in H
           end;
      try done;
      rewrite ?Ha, ?Hb, ?Hc, ?Hd in Hxy, Hyx; simpl in *; lia.
  - unfold listed_before. repeat constructor; rewrite ?Ha, ?Hb, ?Hc, ?Hd; simpl; lia.
  - apply get_all_jobs_sorted.
  - rewrite get_all_jobs_perm, Hperm.
    apply (Permutation_cons_app [a; b] [d]). simpl.
    apply (Permutation_cons_app [a] [d]). simpl.
    apply perm_swap.
Qed.

(** The four jobs of the listing scenario, stored in creation order. *)
Example listing_scenario :
  Job.id <$> get_all_jobs
    {| jobs := [("A", Sample.job "A" JobStatus.FAILED 1);
                ("B", Sample.job "B" JobStatus.PENDING 2);
                ("C", Sample.job "C" JobStatus.PROCESSING 3);
                ("D", Sample.job "D" JobStatus.PENDING 4)]%string;
       queue := ["B"; "D"]%string; _lock := false |}
  = ["C"; "B"; "D"; "A"]%string.
Proof. reflexivity. Qed.

End JobQueueFacts.

(** ** The composition engine *)

Module ProcessorFacts.
Import VideoProcessor Observe.

Section Monad.
Context {A B : Type}.
Implicit Types (m : M A) (f : A → M B).

Lemma events_bind m f :
  events (m ≫= f) =
  events m ++ match outcome m with Py.Ok a => events (f a) | Py.Raise _ => [] end.
Proof.
  destruct m as [es [a|e]]; simpl; [|by rewrite app_nil_r].
  unfold events. simpl. by destruct (f a).
Qed.

Lemma outcome_bind m f :
  outcome (m ≫= f) =
  match outcome m with Py.Ok a => outcome (f a) | Py.Raise e => Py.Raise e end.
Proof. destruct m as [es [a|e]]; simpl; [|done]. unfold outcome. simpl. by destruct (f a). Qed.

Lemma lift_ok_bind (a : A) f : lift (Py.Ok a) ≫= f = f a.
Proof. unfold mbind, M_bind, lift. by destruct (f a). Qed.

Lemma lift_raise_bind (e : string) f : lift (Py.Raise e) ≫= f = raise e.
Proof. done. Qed.

Lemma events_try_except m (h : string → M A) :
  events (try_except m h) =
  events m ++ match outcome m with Py.Ok _ => [] | Py.Raise e => events (h e) end.
Proof.
  destruct m as [es [a|e]]; simpl; [by rewrite app_nil_r|].
  unfold events. simpl. by destruct (h e).
Qed.

Lemma outcome_try_except m (h : string → M A) :
  outcome (try_except m h) =
  match outcome m with Py.Ok a => Py.Ok a | Py.Raise e => outcome (h e) end.
Proof. destruct m as [es [a|e]]; simpl; [done|]. unfold outcome. simpl. by destruct (h e). Qed.

End Monad.

Lemma milestones_app es1 es2 : milestones (es1 ++ es2) = milestones es1 ++ milestones es2.
Proof.
  induction es1 as [|[] es1 IH]; simpl; [done| |by rewrite IH..]. done.
Qed.

Lemma milestones_logs es : Forall is_log es → milestones es = [].
Proof. induction 1 as [|[] es He Hes IH]; simpl; done. Qed.

Lemma progress_of_milestones es : progress_of (milestones es) = progress_of es.
Proof. induction es as [|[] es IH]; simpl; by rewrite ?IH. Qed.

Lemma progress_of_app es1 es2 : progress_of (es1 ++ es2) = progress_of es1 ++ progress_of es2.
Proof. induction es1 as [|[] es1 IH]; simpl; by rewrite ?IH. Qed.

Lemma progress_of_map ps : progress_of (map Progress ps) = ps.
Proof. induction ps as [|p ps IH]; simpl; by rewrite ?IH. Qed.

(** *** Computations that only log *)

Section OnlyLogs.
Context {A B : Type}.

Lemma only_logs_bind (m : M A) (f : A → M B) :
  only_logs m → (∀ a, only_logs (f a)) → only_logs (m ≫= f).
Proof.
  unfold only_logs. intros Hm Hf. rewrite events_bind.
  apply Forall_app. split; [done|]. destruct (outcome m); [apply Hf|constructor].
Qed.

Lemma only_logs_try (m : M A) (h : string → M A) :
  only_logs m → (∀ e, only_logs (h e)) → only_logs (try_except m h).
Proof.
  unfold only_logs. intros Hm Hh. rewrite events_try_except.
  apply Forall_app. split; [done|]. destruct (outcome m); [constructor|apply Hh].
Qed.

Lemma only_logs_lift (r : Py.result A) : only_logs (lift r).
Proof. constructor. Qed.

Lemma only_logs_ret (a : A) : only_logs (mret a : M A).
Proof. constructor. Qed.

Lemma only_logs_raise (e : string) : only_logs (raise e : M A).
Proof. constructor. Qed.

End OnlyLogs.

Lemma only_logs_log msg : only_logs (log_event msg).
Proof. by repeat constructor. Qed.

Lemma only_logs_call_log msg : only_logs (call_log (Some log_event) msg).
Proof. apply only_logs_log. Qed.

Lemma only_logs_call_log_none msg : only_logs (call_log None msg).
Proof. constructor. Qed.

Ltac only_logs_step :=
  first
    [ apply only_logs_bind; [|intros ?]
    | apply only_logs_try; [|intros ?]
    | apply only_logs_lift
    | apply only_logs_ret
    | apply only_logs_raise
    | apply only_logs_log
    | apply only_logs_call_log
    | apply only_logs_call_log_none
    | match goal with
      | |- only_logs (match ?x with _ => _ end) => destruct x
      end ].

Ltac only_logs := repeat only_logs_step.

(** The same, with a lemma for the loops met on the way. *)
Ltac only_logs_with tac := repeat first [tac | only_logs_step].

Section Engine.
Context `{Externals} (self : VideoProcessor.t).

Lemma create_image_overlay_clip_only_logs overlay w h :
  only_logs (create_image_overlay_clip self overlay w h (Some log_event)).
Proof. unfold create_image_overlay_clip. only_logs. Qed.

Lemma text_overlay_loop_only_logs clip overlays : ∀ text_clips,
  only_logs (text_overlay_loop (call_log (Some log_event)) clip overlays text_clips).
Proof. induction overlays as [|overlay rest IH]; intros; simpl; only_logs. apply IH. Qed.

Lemma image_overlay_loop_only_logs clip overlays : ∀ image_clips,
  only_logs (image_overlay_loop self (call_log (Some log_event)) (Some log_event)
               clip overlays image_clips).
Proof.
  induction overlays as [|overlay rest IH]; intros; simpl; only_logs. apply IH.
Qed.

(** Processing a clip reports no progress and writes nothing. *)
Lemma process_clip_only_logs clip_request aspect_ratio quality url_resolver :
  only_logs (process_clip self clip_request aspect_ratio quality (Some log_event)
               url_resolver).
Proof.
  unfold process_clip. only_logs;
    first [apply text_overlay_loop_only_logs | apply image_overlay_loop_only_logs].
Qed.

Lemma audio_loop_only_logs url_resolver audio_tracks : ∀ audio_clips,
  only_logs (audio_loop log_event url_resolver audio_tracks audio_clips).
Proof.
  induction audio_tracks as [|audio_req rest IH]; intros; simpl; only_logs. apply IH.
Qed.

End Engine.

(** *** Computations that keep to a list of milestones *)

Section Follows.
Context {A B : Type}.

Lemma follows_bind ms1 ms2 (m : M A) (f : A → M B) :
  follows ms1 m → (∀ a, follows ms2 (f a)) → follows (ms1 ++ ms2) (m ≫= f).
Proof.
  intros (k1 & Hk1 & Hm & Hok) Hf. unfold follows.
  rewrite events_bind, outcome_bind, milestones_app, Hm.
  destruct (outcome m) as [a|e].
  - destruct (Hf a) as (k2 & Hk2 & Hfa & Hfok). rewrite (Hok a eq_refl) in *.
    exists (length ms1 + k2)%nat. rewrite length_app, take_app_add, Hfa, firstn_all.
    split; [lia|]. split; [done|]. intros b Hb. by rewrite (Hfok b Hb).
  - exists k1. rewrite length_app, take_app_le, app_nil_r by done.
    split; [lia|]. split; [done|]. intros b Hb. done.
Qed.

Lemma follows_only_logs (m : M A) : only_logs m → follows [] m.
Proof. intros Hm. exists 0%nat. by rewrite (milestones_logs _ Hm). Qed.

(** [try: body  except Exception as e: log(...); raise] *)
Lemma follows_try_reraise ms (m : M A) (h : string → M A) :
  follows ms m → (∀ e, only_logs (h e)) →
  (∀ e a, outcome (h e) ≠ Py.Ok a) → follows ms (try_except m h).
Proof.
  intros (k & Hk & Hm & Hok) Hlogs Hraise. exists k.
  rewrite events_try_except, outcome_try_except, milestones_app, Hm.
  destruct (outcome m) as [a|e].
  - by rewrite app_nil_r.
  - rewrite (milestones_logs _ (Hlogs e)), app_nil_r.
    split; [done|]. split; [done|]. intros a Ha. by apply Hraise in Ha.
Qed.

End Follows.

Lemma follows_progress p : follows [Progress p] (progress_event p).
Proof. by exists 1%nat. Qed.

Lemma follows_written path : follows [Written path] (emit (Written path)).
Proof. by exists 1%nat. Qed.

Ltac quiet_step :=
  apply (follows_bind []); [apply follows_only_logs; only_logs|intros ?].

Section ExportRun.
Context `{Externals} (self : VideoProcessor.t).

Lemma clip_progress_ok i total_clips :
  total_clips ≠ 0%nat → clip_progress i total_clips = Py.Ok (clip_checkpoint total_clips i).
Proof.
  intros Hn. unfold clip_progress, Py.truediv.
  rewrite decide_False by lia. done.
Qed.

(** The clip loop reports the checkpoint of each clip after processing it. *)
Lemma clips_loop_follows settings url_resolver total_clips clips_requests :
  total_clips ≠ 0%nat → ∀ i processed_clips,
  follows (map Progress (clip_checkpoints_from total_clips i (length clips_requests)))
    (clips_loop self log_event progress_event settings url_resolver total_clips i
       clips_requests processed_clips).
Proof.
  intros Hn. induction clips_requests as [|clip_req rest IH]; intros i processed_clips.
  - apply follows_only_logs. constructor.
  - cbn [clips_loop length clip_checkpoints_from map]. do 2 quiet_step.
    apply (follows_bind []);
      [apply follows_only_logs, process_clip_only_logs|intros clip].
    rewrite clip_progress_ok, lift_ok_bind by done.
    apply (follows_bind [_]); [apply follows_progress|intros _]. apply IH.
Qed.

(** The export keeps to its plan: the clip checkpoints, 60, 70, 80, the
    write of the artifact, 100. *)
Lemma process_export_follows job clips_requests audio_tracks settings url_resolver uuid8 :
  follows (plan (length clips_requests) (output_path self settings uuid8))
    (process_export self job clips_requests audio_tracks settings
       log_event progress_event url_resolver uuid8).
Proof.
  unfold process_export. apply follows_try_reraise.
  2: { intros e. only_logs. }
  2: { intros e a. rewrite outcome_bind. done. }
  do 3 quiet_step. unfold plan.
  apply follows_bind.
  { destruct clips_requests as [|clip_req rest] eqn:Hreqs.
    - apply follows_only_logs. constructor.
    - rewrite <-Hreqs. apply clips_loop_follows. by rewrite Hreqs. }
  intros processed_clips. do 2 quiet_step.
  apply (follows_bind [_]); [apply follows_progress|intros _].
  do 2 quiet_step.
  apply (follows_bind [_]); [apply follows_progress|intros _].
  apply (follows_bind []).
  { apply follows_only_logs. only_logs_with ltac:(apply audio_loop_only_logs). }
  intros final_video.
  apply (follows_bind [_]); [apply follows_progress|intros _].
  do 3 quiet_step.
  apply (follows_bind [_]); [apply follows_written|intros _].
  apply (follows_bind [_] []); [apply follows_progress|intros _].
  apply follows_only_logs. only_logs.
Qed.

Lemma progress_of_plan n path : progress_of (plan n path) = checkpoints n.
Proof. unfold plan, checkpoints. by rewrite progress_of_app, progress_of_map. Qed.

Lemma length_clip_checkpoints_from n i k : length (clip_checkpoints_from n i k) = k.
Proof. revert i. induction k as [|k IH]; intros i; simpl; by rewrite ?IH. Qed.

Lemma length_plan n path : length (plan n path) = (n + 5)%nat.
Proof.
  unfold plan. rewrite length_app, length_map, length_clip_checkpoints_from. done.
Qed.

Lemma plan_written n path : plan n path !! (n + 3)%nat = Some (Written path).
Proof.
  unfold plan. rewrite lookup_app_r; rewrite length_map, length_clip_checkpoints_from;
    [|lia]. by replace (n + 3 - n)%nat with 3%nat by lia.
Qed.

Lemma plan_last n path : plan n path !! (n + 4)%nat = Some (Progress 100).
Proof.
  unfold plan. rewrite lookup_app_r; rewrite length_map, length_clip_checkpoints_from;
    [|lia]. by replace (n + 4 - n)%nat with 4%nat by lia.
Qed.

(** *** The stages of an export *)

Import Staging.

Lemma clips_outcome_length settings url_resolver clips_requests :
  (length (clips_outcome self settings url_resolver clips_requests).1
   ≤ length clips_requests)%nat ∧
  match (clips_outcome self settings url_resolver clips_requests).2 with
  | None => length (clips_outcome self settings url_resolver clips_requests).1
            = length clips_requests
  | Some _ => (length (clips_outcome self settings url_resolver clips_requests).1
               < length clips_requests)%nat
  end.
Proof.
  induction clips_requests as [|clip_req rest [IH1 IH2]]; [done|].
  cbn [clips_outcome].
  destruct (clip_outcome self settings url_resolver clip_req) as [clip|e];
    [|simpl; lia].
  destruct (clips_outcome self settings url_resolver rest) as [processed [e|]];
    simpl in *; lia.
Qed.

(** The clip loop, run: it emits the rounds of its clips and returns the
    clips processed, or raises the error of the first clip that fails. *)
Lemma clips_loop_run settings url_resolver total_clips clips_requests :
  total_clips ≠ 0%nat → ∀ i processed_clips,
  clips_loop self log_event progress_event settings url_resolver total_clips i
    clips_requests processed_clips =
  (clip_rounds self settings url_resolver total_clips i clips_requests,
   match (clips_outcome self settings url_resolver clips_requests).2 with
   | None => Py.Ok (processed_clips
                    ++ (clips_outcome self settings url_resolver clips_requests).1)
   | Some e => Py.Raise e
   end).
Proof.
  intros Hn. induction clips_requests as [|clip_req rest IH]; intros i processed_clips.
  - simpl. by rewrite app_nil_r.
  - cbn [clips_loop clip_rounds clips_outcome]. unfold clip_outcome.
    destruct (process_clip self clip_req _ _ _ _) as [es [clip|e]] eqn:Hclip.
    + rewrite clip_progress_ok by done.
      cbn [log_event progress_event emit lift mbind M_bind events outcome fst snd
           mret M_ret app].
      rewrite IH.
      destruct (clips_outcome self settings url_resolver rest) as [processed [e|]];
        cbn [fst snd]; rewrite <-?app_assoc; reflexivity.
    + cbn [log_event progress_event emit lift mbind M_bind events outcome fst snd
           mret M_ret app].
      by rewrite app_nil_r.
Qed.

Lemma milestones_clip_rounds settings url_resolver total_clips clips_requests : ∀ i,
  milestones (clip_rounds self settings url_resolver total_clips i clips_requests) =
  map Progress
    (clip_checkpoints_from total_clips i
       (length (clips_outcome self settings url_resolver clips_requests).1)).
Proof.
  induction clips_requests as [|clip_req rest IH]; intros i; [done|].
  cbn [clip_rounds clips_outcome]. rewrite !milestones_app.
  rewrite (milestones_logs (events _)) by apply process_clip_only_logs.
  cbn [milestones app].
  destruct (clip_outcome self settings url_resolver clip_req) as [clip|e]; [|done].
  cbn [milestones]. rewrite IH.
  by destruct (clips_outcome self settings url_resolver rest) as [processed err].
Qed.

Lemma audio_stage_only_logs url_resolver audio_tracks final_video :
  only_logs (audio_stage url_resolver audio_tracks final_video).
Proof.
  unfold audio_stage. only_logs_with ltac:(apply audio_loop_only_logs).
Qed.

Lemma take_plan_clips n path k :
  (k ≤ n)%nat → take k (plan n path) = map Progress (clip_checkpoints_from n 0 k).
Proof.
  intros Hk. unfold plan.
  rewrite take_app_le by (by rewrite length_map, length_clip_checkpoints_from).
  rewrite firstn_map. f_equal.
  assert (∀ m k i, (k ≤ m)%nat →
            take k (clip_checkpoints_from n i m) = clip_checkpoints_from n i k) as Htake.
  { clear. induction m as [|m IH]; intros [|k] i Hk; simpl; try done; [lia|].
    f_equal. apply IH. lia. }
  by apply Htake.
Qed.

Lemma take_plan_more n path j :
  take (n + j) (plan n path) =
  map Progress (clip_checkpoints_from n 0 n) ++
  take j [Progress 60; Progress 70; Progress 80; Written path; Progress 100].
Proof.
  unfold plan.
  rewrite <-(length_clip_checkpoints_from n 0 n) at 1.
  rewrite <-(length_map Progress). by rewrite take_app_add.
Qed.

Ltac stage_run :=
  cbn [log_event progress_event emit lift mbind M_bind try_except raise events outcome
       fst snd mret M_ret app Py.result_bind Py.result_ret].

Ltac stage_exists :=
  eexists; rewrite <-?app_assoc; cbn [app]; reflexivity.

Ltac stage_milestones :=
  repeat first
    [ rewrite milestones_app
    | match goal with H : milestones _ = _ |- _ => rewrite H end
    | match goal with H : Forall is_log ?es |- _ => rewrite (milestones_logs es H) end
    | progress cbn [milestones app events fst] ];
  rewrite ?app_nil_r, <-?app_assoc; cbn [app].

(** From the encoding on. *)
Ltac stage_tail n :=
  destruct (quality_settings_of _) as [quality_settings|e];
    [|stage_run; (split; [stage_exists|]); (split; [done|]);
      stage_milestones; by rewrite (take_plan_more n _ 3)];
  stage_run;
  destruct (write_videofile _ _ _ _ _ _) as [written|e];
    [|stage_run; (split; [stage_exists|]); (split; [done|]);
      stage_milestones; by rewrite (take_plan_more n _ 3)];
  stage_run;
  match goal with
  | |- context [close_all ?l] => destruct (close_all l) as [closed|e]
  end; stage_run;
  [match goal with
   | |- context [close ?v] => destruct (close v) as [closed'|e]
   end; stage_run|];
  (split; [stage_exists|]); (split; [|done]); stage_milestones; done.

(** An export stops at the first stage that raises, having reported the
    checkpoints of the stages before it and no other. *)
Lemma process_export_stages job clips_requests audio_tracks settings url_resolver uuid8 :
  let run := process_export self job clips_requests audio_tracks settings
               log_event progress_event url_resolver uuid8 in
  let n := length clips_requests in
  let path := output_path self settings uuid8 in
  let aspect_ratio := ExportSettings.aspect_ratio settings in
  let quality := ExportSettings.quality settings in
  let stops (e : string) (k : nat) :=
    outcome run = Py.Raise e ∧ milestones (events run) = take k (plan n path) in
  (∃ rest,
     events run =
       [Log "Starting export process...";
        Log ("URL resolver provided: "
             +:+ Py.str_of_bool (bool_decide (is_Some url_resolver)));
        Log ("Uploads directory: " +:+ uploads_dir self)] ++
       clip_rounds self settings url_resolver n 0 clips_requests ++ rest) ∧
  match clips_outcome self settings url_resolver clips_requests with
  | (processed, Some e) => (length processed < n)%nat ∧ stops e (length processed)
  | (processed, None) =>
      match concatenated processed with
      | Py.Raise e => stops e n
      | Py.Ok final_video =>
          match resize_to_aspect_ratio final_video aspect_ratio quality with
          | Py.Raise e => stops e (n + 1)%nat
          | Py.Ok resized =>
              match outcome (audio_stage url_resolver audio_tracks resized) with
              | Py.Raise e => stops e (n + 2)%nat
              | Py.Ok mixed =>
                  match encoded self settings mixed uuid8 with
                  | Py.Raise e => stops e (n + 3)%nat
                  | Py.Ok _ =>
                      milestones (events run) = plan n path ∧
                      outcome run =
                        (cleaned_up processed mixed;;
                         Py.Ok ("/api/download/" +:+ "export_" +:+ uuid8 +:+ "."
                                +:+ ExportSettings.format settings)%string)
                  end
              end
          end
      end
  end.
Proof.
  intros run n path aspect_ratio quality stops.
  assert (clips_loop self log_event progress_event settings url_resolver n 0
            clips_requests [] =
          (clip_rounds self settings url_resolver n 0 clips_requests,
           match (clips_outcome self settings url_resolver clips_requests).2 with
           | None => Py.Ok (clips_outcome self settings url_resolver clips_requests).1
           | Some e => Py.Raise e
           end)) as Hloop.
  { destruct clips_requests as [|clip_req rest] eqn:Hreqs; [done|].
    rewrite <-Hreqs. subst n. rewrite <-Hreqs. apply clips_loop_run.
    by rewrite Hreqs. }
  pose proof (clips_outcome_length settings url_resolver clips_requests) as [Hlen Hall].
  pose proof (milestones_clip_rounds settings url_resolver n clips_requests 0) as Hms.
  subst run stops aspect_ratio quality path.
  unfold process_export, encoded, cleaned_up, output_path. fold n.
  rewrite Hloop. clear Hloop.
  destruct (clips_outcome self settings url_resolver clips_requests) as [processed [e|]];
    cbn [fst snd] in *.
  { stage_run. split; [stage_exists|]. split; [done|]. split; [done|].
    stage_milestones. by rewrite take_plan_clips by lia. }
  fold n in Hall. rewrite Hall in Hms.
  stage_run.
  assert ((match processed with
           | [only] => mret only
           | _ => lift (concatenate_videoclips processed)
           end : M Clip) = lift (concatenated processed)) as ->
    by (by destruct processed as [|? [|? ?]]).
  destruct (concatenated processed) as [final_video|e].
  2: { stage_run. split; [stage_exists|]. split; [done|].
       stage_milestones. by rewrite take_plan_clips by lia. }
  stage_run.
  destruct (resize_to_aspect_ratio final_video _ _) as [resized|e].
  2: { stage_run. split; [stage_exists|]. split; [done|].
       stage_milestones. by rewrite (take_plan_more n _ 1). }
  stage_run. unfold audio_stage.
  destruct audio_tracks as [|audio_req rest_audio]; [stage_run; stage_tail n|].
  stage_run.
  match goal with
  | |- context [audio_loop ?l ?r ?a ?i] =>
      pose proof (audio_loop_only_logs r a i) as Haudio;
      destruct (audio_loop l r a i) as [es_a [audio_clips|e]]
  end; unfold only_logs in Haudio; cbn [events fst] in Haudio.
  2: { stage_run. split; [stage_exists|]. split; [done|].
       stage_milestones. by rewrite (take_plan_more n _ 2). }
  destruct audio_clips as [|audio_clip audio_clips]; [stage_run; stage_tail n|].
  stage_run.
  destruct (CompositeAudioClip _) as [final_audio|e]; [stage_run; stage_tail n|].
  stage_run. split; [stage_exists|]. split; [done|].
  stage_milestones. by rewrite (take_plan_more n _ 2).
Qed.

(** C2, as the code has it. An export of n clips with the worker's
    callbacks reports, in this order, (i+1)/n*50 after processing clip i,
    60 after concatenation, 70 after aspect-ratio normalization, 80 after the
    audio stage (whether or not the request has audio tracks), then writes
    the artifact and reports 100 right after the write.  A run that raises
    stops somewhere along this sequence; a run that returns has gone through
    all of it.  So 100 is reported only when the artifact has been written
    just before.  Each checkpoint is reported only after its stage has
    returned: the checkpoint of a clip comes right after what the processing
    of that clip logs, and the run stops at the first stage that raises,
    having reported the checkpoints of the stages before it and no other -
    those of the clips before the first clip that fails; all clip
    checkpoints if the concatenation fails; 60 besides if the normalization
    fails; 70 besides if the audio stage fails; 80 besides if the encoding
    fails; the write and 100 only if the encoding returned. *)
Theorem process_export_checkpoints job clips_requests audio_tracks settings
    url_resolver uuid8 :
  let run := process_export self job clips_requests audio_tracks settings
               log_event progress_event url_resolver uuid8 in
  let n := length clips_requests in
  let path := output_path self settings uuid8 in
  let aspect_ratio := ExportSettings.aspect_ratio settings in
  let quality := ExportSettings.quality settings in
  let stops (e : string) (k : nat) :=
    outcome run = Py.Raise e ∧ milestones (events run) = take k (plan n path) in
  (∃ k, (k ≤ n + 5)%nat ∧ milestones (events run) = take k (plan n path)) ∧
  (∀ url, outcome run = Py.Ok url →
     milestones (events run) = plan n path ∧
     progress_of (events run) = checkpoints n) ∧
  (∀ e, milestones (events run) !! (n + 4)%nat = Some e →
     e = Progress 100 ∧
     milestones (events run) !! (n + 3)%nat = Some (Written path)) ∧
  (∃ rest,
     events run =
       [Log "Starting export process...";
        Log ("URL resolver provided: "
             +:+ Py.str_of_bool (bool_decide (is_Some url_resolver)));
        Log ("Uploads directory: " +:+ uploads_dir self)] ++
       clip_rounds self settings url_resolver n 0 clips_requests ++ rest) ∧
  match clips_outcome self settings url_resolver clips_requests with
  | (processed, Some e) => (length processed < n)%nat ∧ stops e (length processed)
  | (processed, None) =>
      match concatenated processed with
      | Py.Raise e => stops e n
      | Py.Ok final_video =>
          match resize_to_aspect_ratio final_video aspect_ratio quality with
          | Py.Raise e => stops e (n + 1)%nat
          | Py.Ok resized =>
              match outcome (audio_stage url_resolver audio_tracks resized) with
              | Py.Raise e => stops e (n + 2)%nat
              | Py.Ok mixed =>
                  match encoded self settings mixed uuid8 with
                  | Py.Raise e => stops e (n + 3)%nat
                  | Py.Ok _ =>
                      milestones (events run) = plan n path ∧
                      outcome run =
                        (cleaned_up processed mixed;;
                         Py.Ok ("/api/download/" +:+ "export_" +:+ uuid8 +:+ "."
                                +:+ ExportSettings.format settings)%string)
                  end
              end
          end
      end
  end.
Proof.
  intros run n path aspect_ratio quality stops.
  destruct (process_export_follows job clips_requests audio_tracks settings
              url_resolver uuid8) as (k & Hk & Hms & Hok).
  fold run n path in Hk, Hms, Hok. rewrite length_plan in Hk, Hok.
  split; [by exists k|]. split.
  { intros url Hurl. rewrite (Hok url Hurl) in Hms.
    rewrite <-(length_plan n path), firstn_all in Hms. split; [done|].
    by rewrite <-progress_of_milestones, Hms, progress_of_plan. }
  split.
  { intros e He. rewrite Hms in He |- *.
    apply lookup_take_Some in He as [He Hlt].
    rewrite plan_last in He. split; [by simplify_eq|].
    rewrite lookup_take_lt by lia. apply plan_written. }
  apply process_export_stages.
Qed.

End ExportRun.

(** C2 as stated fails: an export of one clip whose request has no audio
    tracks still reports 80. *)
Lemma progress_80_without_audio_tracks :
  progress_of (events (Sample.export [Sample.clip []] [])) = [50; 60; 70; 80; 100]%float ∧
  outcome (Sample.export [Sample.clip []] []) = Py.Ok "/api/download/export_0123abcd.mp4"%string.
Proof. split; reflexivity. Qed.

(** For up to 256 clips the clip checkpoints lie in (0, 50]. *)
Example clip_checkpoints_within_50 :
  forallb (λ n, forallb (λ p, (0 <? p)%float && (p <=? 50)%float)
                  (clip_checkpoints_from n 0 n))
          (seq 1 256) = true.
Proof. vm_compute. reflexivity. Qed.

(** *** Aspect-ratio normalization *)

Lemma quality_settings_low :
  QUALITY_SETTINGS !! "low"%string =
  Some {| width := 854; height := 480; bitrate := "1000k"; fps := 24 |}.
Proof. reflexivity. Qed.

Lemma quality_settings_optimised :
  QUALITY_SETTINGS !! "optimised"%string =
  Some {| width := 1280; height := 720; bitrate := "2500k"; fps := 30 |}.
Proof. reflexivity. Qed.

Lemma quality_settings_high :
  QUALITY_SETTINGS !! "high"%string =
  Some {| width := 1920; height := 1080; bitrate := "5000k"; fps := 30 |}.
Proof. reflexivity. Qed.

Section Resize.
Context `{Externals}.

(** What [resize_to_aspect_ratio] does for the settings of the interface:
    it takes the target size of the specification, arrives at a content size
    through binary64 arithmetic and places the content of that size at the
    centre of the target. *)
Lemma resize_to_aspect_ratio_places clip aspect_ratio quality :
  aspect_ratio ∈ ExportSettings.aspect_ratios →
  quality ∈ ExportSettings.qualities →
  clip_w clip ≠ 0 → clip_h clip ≠ 0 →
  resize_to_aspect_ratio clip aspect_ratio quality =
  (size ← truncated_size (target_size aspect_ratio quality).1
            (target_size aspect_ratio quality).2 (clip_w clip) (clip_h clip);
   place clip (target_size aspect_ratio quality) size
     (content_pos (target_size aspect_ratio quality).1
        (target_size aspect_ratio quality).2 size.1 size.2)
     (preset_fps quality)).
Proof.
  intros Har Hq Hw Hh.
  unfold resize_to_aspect_ratio, quality_settings_of, truncated_size, place,
    content_pos, keep_fps_and_audio, Py.truediv, Py.floordiv.
  unfold ExportSettings.aspect_ratios, ExportSettings.qualities in *.
  rewrite !elem_of_cons in Har, Hq.
  destruct Hq as [->|[->|[->|Hq]]]; [| | |by apply elem_of_nil in Hq];
    rewrite ?quality_settings_low, ?quality_settings_optimised, ?quality_settings_high;
    (destruct Har as [->|[->|[->|Har]]]; [| | |by apply elem_of_nil in Har]);
    repeat match goal with
           | |- context [target_size ?a ?q] =>
               let v := eval vm_compute in (target_size a q) in
               change (target_size a q) with v
           | |- context [preset_fps ?q] =>
               let v := eval vm_compute in (preset_fps q) in
               change (preset_fps q) with v
           end;
    repeat (case_decide; try done);
    simpl;
    repeat match goal with
           | |- context [Z.min ?a ?b] =>
               let v := eval vm_compute in (Z.min a b) in
               change (Z.min a b) with v
           end;
    repeat (match goal with
            | |- context [Py.int ?x] => destruct (Py.int x)
            end; simpl; try done).
Qed.

(** For the source sizes in common use the binary64 arithmetic arrives at
    the exact content size, whatever the settings. *)
Lemma truncated_size_standard src aspect_ratio quality :
  src ∈ standard_sources →
  aspect_ratio ∈ ExportSettings.aspect_ratios →
  quality ∈ ExportSettings.qualities →
  truncated_size (target_size aspect_ratio quality).1
    (target_size aspect_ratio quality).2 src.1 src.2 =
  Py.Ok (content_size (target_size aspect_ratio quality).1
           (target_size aspect_ratio quality).2 src.1 src.2).
Proof.
  unfold standard_sources, ExportSettings.aspect_ratios, ExportSettings.qualities.
  rewrite !elem_of_cons.
  intros Hsrc Har Hq.
  repeat (destruct Hsrc as [->|Hsrc]; [|]);
    try (by apply elem_of_nil in Hsrc);
    (destruct Hq as [->|[->|[->|Hq]]]; [| | |by apply elem_of_nil in Hq]);
    (destruct Har as [->|[->|[->|Har]]]; [| | |by apply elem_of_nil in Har]);
    vm_compute; reflexivity.
Qed.

(** C8. For the settings of the interface and a source of non-zero size,
    [resize_to_aspect_ratio] picks the target of the specification (the
    preset W x H for 16:9, the preset swapped for 9:16, the square of
    min(W, H) for 1:1), resizes the source, and centres the result, floor
    halves, on a black background of the target size.  The size it resizes to
    is the one its binary64 arithmetic arrives at.  Where that is the exact
    size (srcW*scale, srcH*scale) for scale = min(targetW/srcW,
    targetH/srcH), the result is the letterboxing of the specification; so
    it is for every source size in common use, and for the scenario: 1280x720
    at 9:16 / optimised gets target 720x1280, scale 0.5625, content 720x405
    at (0, 437).  It is not always: for a 100x50 source at 16:9 / low the
    exact content is 854x427 at (0, 26), and the code resizes to 853x426
    and puts it at (0, 27). *)
Theorem resize_to_aspect_ratio_geometry clip aspect_ratio quality :
  aspect_ratio ∈ ExportSettings.aspect_ratios →
  quality ∈ ExportSettings.qualities →
  clip_w clip ≠ 0 → clip_h clip ≠ 0 →
  let target := target_size aspect_ratio quality in
  let exact := content_size target.1 target.2 (clip_w clip) (clip_h clip) in
  let code := truncated_size target.1 target.2 (clip_w clip) (clip_h clip) in
  (∃ preset,
     QUALITY_SETTINGS !! quality = Some preset ∧
     (aspect_ratio = "16:9"%string → target = (width preset, height preset)) ∧
     (aspect_ratio = "9:16"%string → target = (height preset, width preset)) ∧
     (aspect_ratio = "1:1"%string →
        target = (Z.min (width preset) (height preset),
                  Z.min (width preset) (height preset))) ∧
     preset_fps quality = fps preset) ∧
  resize_to_aspect_ratio clip aspect_ratio quality =
    (size ← code;
     place clip target size (content_pos target.1 target.2 size.1 size.2)
       (preset_fps quality)) ∧
  (code = Py.Ok exact →
   resize_to_aspect_ratio clip aspect_ratio quality =
     letterbox clip target.1 target.2 (preset_fps quality)) ∧
  ((clip_w clip, clip_h clip) ∈ standard_sources → code = Py.Ok exact) ∧
  (clip_w clip = 1280 → clip_h clip = 720 →
   aspect_ratio = "9:16"%string → quality = "optimised"%string →
   target = (720, 1280) ∧
   QArith_base.Qeq (fit_scale 720 1280 1280 720) (QArith_base.Qmake 5625 10000) ∧
   exact = (720, 405) ∧ content_pos 720 1280 720 405 = (0, 437) ∧
   code = Py.Ok (720, 405) ∧
   resize_to_aspect_ratio clip aspect_ratio quality =
     place clip (720, 1280) (720, 405) (0, 437) 30) ∧
  (clip_w clip = 100 → clip_h clip = 50 →
   aspect_ratio = "16:9"%string → quality = "low"%string →
   target = (854, 480) ∧
   exact = (854, 427) ∧ content_pos 854 480 854 427 = (0, 26) ∧
   code = Py.Ok (853, 426) ∧ content_pos 854 480 853 426 = (0, 27) ∧
   letterbox clip 854 480 24 = place clip (854, 480) (854, 427) (0, 26) 24 ∧
   resize_to_aspect_ratio clip aspect_ratio quality =
     place clip (854, 480) (853, 426) (0, 27) 24).
Proof.
  intros Har Hq Hw Hh target exact code.
  pose proof (resize_to_aspect_ratio_places clip aspect_ratio quality Har Hq Hw Hh)
    as Hcode.
  fold target in Hcode. fold code in Hcode.
  split.
  { unfold ExportSettings.qualities, ExportSettings.aspect_ratios in *.
    rewrite !elem_of_cons in Hq, Har. subst target.
    destruct Hq as [->|[->|[->|Hq]]]; [| | |by apply elem_of_nil in Hq];
      eexists;
      (split; [first [apply quality_settings_low | apply quality_settings_optimised
                     | apply quality_settings_high]|]);
      (destruct Har as [->|[->|[->|Har]]]; [| | |by apply elem_of_nil in Har]);
      repeat split; intros; done. }
  split; [exact Hcode|].
  split.
  { intros Hexact. rewrite Hcode, Hexact. unfold letterbox. by destruct target. }
  split.
  { intros Hsrc.
    apply (truncated_size_standard (clip_w clip, clip_h clip) aspect_ratio quality
             Hsrc Har Hq). }
  split.
  - intros Hw' Hh' -> ->. subst exact code target.
    rewrite Hcode, Hw', Hh'.
    assert (target_size "9:16" "optimised" = (720, 1280)) as -> by reflexivity.
    cbn [fst snd].
    assert (truncated_size 720 1280 1280 720 = Py.Ok (720, 405)) as ->
      by (vm_compute; reflexivity).
    repeat split; by vm_compute.
  - intros Hw' Hh' -> ->. subst exact code target.
    rewrite Hcode, Hw', Hh'. unfold letterbox. rewrite Hw', Hh'.
    assert (target_size "16:9" "low" = (854, 480)) as -> by reflexivity.
    cbn [fst snd].
    assert (truncated_size 854 480 100 50 = Py.Ok (853, 426)) as ->
      by (vm_compute; reflexivity).
    assert (content_size 854 480 100 50 = (854, 427)) as ->
      by (vm_compute; reflexivity).
    repeat split; by vm_compute.
Qed.

End Resize.

Lemma resize_to_aspect_ratio_geometry_witness :
  let clip : Clip (Externals := Sample.externals) := (100, 50) in
  let target := target_size "16:9" "low" in
  let exact := content_size target.1 target.2 100 50 in
  let code := truncated_size target.1 target.2 100 50 in
  (∃ preset,
     QUALITY_SETTINGS !! "low"%string = Some preset ∧
     ("16:9" = "16:9" → target = (width preset, height preset)) ∧
     ("16:9" = "9:16" → target = (height preset, width preset)) ∧
     ("16:9" = "1:1" →
        target = (Z.min (width preset) (height preset),
                  Z.min (width preset) (height preset))) ∧
     preset_fps "low" = fps preset) ∧
  resize_to_aspect_ratio (H := Sample.externals) clip "16:9" "low" =
    (size ← code;
     place (H := Sample.externals) clip target size
       (content_pos target.1 target.2 size.1 size.2) (preset_fps "low")) ∧
  (code = Py.Ok exact →
   resize_to_aspect_ratio (H := Sample.externals) clip "16:9" "low" =
     letterbox (H := Sample.externals) clip target.1 target.2 (preset_fps "low")) ∧
  ((100, 50) ∈ standard_sources → code = Py.Ok exact) ∧
  (100 = 1280 → 50 = 720 → "16:9" = "9:16" → "low" = "optimised" →
   target = (720, 1280) ∧
   QArith_base.Qeq (fit_scale 720 1280 1280 720) (QArith_base.Qmake 5625 10000) ∧
   exact = (720, 405) ∧ content_pos 720 1280 720 405 = (0, 437) ∧
   code = Py.Ok (720, 405) ∧
   resize_to_aspect_ratio (H := Sample.externals) clip "16:9" "low" =
     place (H := Sample.externals) clip (720, 1280) (720, 405) (0, 437) 30) ∧
  (100 = 100 → 50 = 50 → "16:9" = "16:9" → "low" = "low" →
   target = (854, 480) ∧
   exact = (854, 427) ∧ content_pos 854 480 854 427 = (0, 26) ∧
   code = Py.Ok (853, 426) ∧ content_pos 854 480 853 426 = (0, 27) ∧
   letterbox (H := Sample.externals) clip 854 480 24 =
     place (H := Sample.externals) clip (854, 480) (854, 427) (0, 26) 24 ∧
   resize_to_aspect_ratio (H := Sample.externals) clip "16:9" "low" =
     place (H := Sample.externals) clip (854, 480) (853, 426) (0, 27) 24).
Proof.
  apply (resize_to_aspect_ratio_geometry (H := Sample.externals) (100, 50)
           "16:9" "low"); [repeat constructor..|simpl; lia|simpl; lia].
Defined.

(** The divergence on the stand-in, where a clip is its size: the code
    returns the target as composed, having resized the content to 853x426
    where the exact geometry asks for 854x427. *)
Example resize_100x50_low :
  truncated_size 854 480 100 50 = Py.Ok (853, 426) ∧
  content_size 854 480 100 50 = (854, 427) ∧
  truncated_size 1920 1080 854 480 = Py.Ok (1919, 1079) ∧
  content_size 1920 1080 854 480 = (1920, 1079).
Proof. repeat split; vm_compute; reflexivity. Qed.

(** *** Overlay failures *)

Section Relations.
Context {A B : Type}.

Lemma extends_bind extra (m : M A) (f g : A → M B) :
  (∀ a, extends extra (f a) (g a)) → extends extra (m ≫= f) (m ≫= g).
Proof.
  intros Hfg. unfold extends. rewrite outcome_bind.
  destruct m as [es [a|e]]; simpl; [|done].
  specialize (Hfg a). unfold extends in Hfg.
  unfold mbind, M_bind. destruct (g a) as [esg [b|e]]; simpl in *.
  - rewrite Hfg. simpl. by rewrite app_assoc.
  - by rewrite Hfg.
Qed.

Lemma mret_bind (a : A) (f : A → M B) : mret a ≫= f = f a.
Proof. unfold mbind, M_bind, mret, M_ret. by destruct (f a). Qed.

Lemma same_but_logs_bind (m1 m2 : M A) (f g : A → M B) :
  same_but_logs m1 m2 → (∀ a, same_but_logs (f a) (g a)) →
  same_but_logs (m1 ≫= f) (m2 ≫= g).
Proof.
  intros [Ho Hm] Hfg. unfold same_but_logs.
  rewrite !outcome_bind, !events_bind, !milestones_app, Ho, Hm.
  destruct (outcome m2) as [a|e]; [|done].
  destruct (Hfg a) as [-> ->]. done.
Qed.

Lemma same_but_logs_refl (m : M A) : same_but_logs m m.
Proof. done. Qed.

Lemma same_but_logs_try (m1 m2 : M A) (h : string → M A) :
  same_but_logs m1 m2 → same_but_logs (try_except m1 h) (try_except m2 h).
Proof.
  intros [Ho Hm]. unfold same_but_logs.
  rewrite !outcome_try_except, !events_try_except, !milestones_app, Ho, Hm. done.
Qed.

End Relations.

Lemma extends_same_but_logs {A} extra (m base : M A) :
  Forall is_log extra → extends extra m base → same_but_logs m base.
Proof.
  intros Hlogs Hext. unfold extends in Hext.
  destruct base as [es [a|e]]; simpl in *; subst; [|done].
  split; [done|]. simpl. unfold events. simpl.
  by rewrite milestones_app, (milestones_logs extra), app_nil_r.
Qed.

Section Overlays.
Context `{Externals} (self : VideoProcessor.t).

(** A failed download: [create_image_overlay_clip] logs it and raises the
    same error again. *)
Lemma create_image_overlay_clip_fetch_fails overlay w h e :
  requests_get_to_file (temp_dir self) (ImageOverlay.image_url overlay) = Py.Raise e →
  create_image_overlay_clip self overlay w h (Some log_event) =
    ([Log ("Failed to create image overlay: "
           +:+ download_error (ImageOverlay.image_url overlay) e)],
     Py.Raise (download_error (ImageOverlay.image_url overlay) e)).
Proof.
  intros Hfetch. unfold create_image_overlay_clip, download_image. by rewrite Hfetch.
Qed.

(** [process_clip] catches it: the overlay is left out and a warning is
    logged; the clip is otherwise processed as without the overlay. *)
Lemma process_clip_drops_failed_overlay c overlay e aspect_ratio quality url_resolver :
  ClipRequest.text_overlays c = [] →
  ClipRequest.image_overlays c = [overlay] →
  requests_get_to_file (temp_dir self) (ImageOverlay.image_url overlay) = Py.Raise e →
  extends (dropped_overlay_logs (ImageOverlay.image_url overlay) e)
    (process_clip self c aspect_ratio quality (Some log_event) url_resolver)
    (process_clip self (without_image_overlays c) aspect_ratio quality
       (Some log_event) url_resolver).
Proof.
  intros Htext Himg Hfetch. unfold process_clip.
  cbn [without_image_overlays ClipRequest.video_url ClipRequest.start_time
       ClipRequest.end_time ClipRequest.effects ClipRequest.text_overlays
       ClipRequest.image_overlays].
  rewrite Htext, Himg.
  do 6 (apply extends_bind; intros ?).
  rewrite !mret_bind.
  cbn [image_overlay_loop length].
  rewrite (create_image_overlay_clip_fetch_fails _ _ _ e) by done.
  reflexivity.
Qed.

Lemma elem_of_events_bind_l {A B} (m : M A) (f : A → M B) e :
  e ∈ events m → e ∈ events (m ≫= f).
Proof. intros He. rewrite events_bind, elem_of_app. by left. Qed.

Lemma elem_of_events_bind_r {A B} (m : M A) (f : A → M B) a e :
  outcome m = Py.Ok a → e ∈ events (f a) → e ∈ events (m ≫= f).
Proof. intros Hm He. rewrite events_bind, Hm, elem_of_app. by right. Qed.

Lemma elem_of_events_try {A} (m : M A) (h : string → M A) e :
  e ∈ events m → e ∈ events (try_except m h).
Proof. intros He. rewrite events_try_except, elem_of_app. by left. Qed.

(** An export of one clip differs from the export of a clip that is
    processed alike only in its log lines. *)
Lemma process_export_single_same_but_logs job c c' audio_tracks settings
    url_resolver uuid8 :
  same_but_logs
    (process_clip self c (ExportSettings.aspect_ratio settings)
       (ExportSettings.quality settings) (Some log_event) url_resolver)
    (process_clip self c' (ExportSettings.aspect_ratio settings)
       (ExportSettings.quality settings) (Some log_event) url_resolver) →
  ClipRequest.video_url c = ClipRequest.video_url c' →
  same_but_logs
    (process_export self job [c] audio_tracks settings log_event progress_event
       url_resolver uuid8)
    (process_export self job [c'] audio_tracks settings log_event progress_event
       url_resolver uuid8).
Proof.
  intros Hclip Hurl. unfold process_export. cbn [clips_loop length]. rewrite Hurl.
  apply same_but_logs_try.
  do 3 (apply same_but_logs_bind; [apply same_but_logs_refl|intros ?]).
  apply same_but_logs_bind; [|intros ?; apply same_but_logs_refl].
  do 2 (apply same_but_logs_bind; [apply same_but_logs_refl|intros ?]).
  apply same_but_logs_bind; [done|intros ?; apply same_but_logs_refl].
Qed.

(** If the export of one clip returns, its clip was processed. *)
Lemma process_export_single_ok job c audio_tracks settings url_resolver uuid8 url :
  outcome (process_export self job [c] audio_tracks settings log_event progress_event
             url_resolver uuid8) = Py.Ok url →
  ∃ clip,
    outcome (process_clip self c (ExportSettings.aspect_ratio settings)
               (ExportSettings.quality settings) (Some log_event) url_resolver)
    = Py.Ok clip.
Proof.
  unfold process_export. cbn [clips_loop length].
  rewrite outcome_try_except.
  repeat (rewrite outcome_bind; cbn [outcome log_event emit snd]).
  destruct (outcome (process_clip _ _ _ _ _ _)) as [clip|e]; [by eexists|].
  rewrite outcome_bind. done.
Qed.

(** What the clip stage logs, the export logs. *)
Lemma process_export_single_logs job c audio_tracks settings url_resolver uuid8 e :
  e ∈ events (process_clip self c (ExportSettings.aspect_ratio settings)
                (ExportSettings.quality settings) (Some log_event) url_resolver) →
  e ∈ events (process_export self job [c] audio_tracks settings log_event
                progress_event url_resolver uuid8).
Proof.
  intros He. unfold process_export. cbn [clips_loop length].
  apply elem_of_events_try.
  do 3 (apply (elem_of_events_bind_r _ _ ()); [done|]).
  apply elem_of_events_bind_l.
  do 2 (apply (elem_of_events_bind_r _ _ ()); [done|]).
  by apply elem_of_events_bind_l.
Qed.

End Overlays.

End ProcessorFacts.

(** ** More on the job store *)

Module StoreFacts.
Import JobQueue Observe Calls JobQueueFacts.

Section DictMore.
Context {V : Type}.
Implicit Types (d : list (string * V)) (k : string) (v : V).

Lemma dict_set_absent d k v : Py.dict_get d k = None → Py.dict_set d k v = d ++ [(k, v)].
Proof.
  induction d as [|[k' v'] d IH]; simpl; [done|].
  destruct (decide (k' = k)); [done|]. intros Hget. by rewrite IH.
Qed.

Lemma dict_set_keys d k v v0 :
  Py.dict_get d k = Some v0 → (Py.dict_set d k v).*1 = d.*1.
Proof.
  induction d as [|[k' v'] d IH]; simpl; [done|].
  destruct (decide (k' = k)) as [->|Hne]; simpl; [done|].
  intros Hget. f_equal. by apply IH.
Qed.

Lemma dict_get_app_absent d k v : Py.dict_get d k = None →
  Py.dict_get (d ++ [(k, v)]) k = Some v.
Proof.
  induction d as [|[k' v'] d IH]; simpl; [by rewrite decide_True|].
  destruct (decide (k' = k)); [done|]. apply IH.
Qed.

Lemma dict_set_app_last d k v v' : Py.dict_get d k = None →
  Py.dict_set (d ++ [(k, v)]) k v' = d ++ [(k, v')].
Proof.
  induction d as [|[k0 v0] d IH]; simpl; [by rewrite decide_True|].
  destruct (decide (k0 = k)); [done|]. intros Hget. by rewrite IH.
Qed.

Lemma dict_get_None_keys d k : Py.dict_get d k = None ↔ k ∉ d.*1.
Proof.
  induction d as [|[k' v'] d IH]; simpl.
  - split; [intros _; apply not_elem_of_nil|done].
  - rewrite not_elem_of_cons. destruct (decide (k' = k)) as [->|Hne].
    + split; [done|]. by intros [? _].
    + rewrite IH. split; [by intros ?|by intros [_ ?]].
Qed.

End DictMore.

(** *** The methods on a free lock, as changes of one job *)

Lemma update_job_free q job_id kwargs :
  _lock q = false →
  update_job job_id kwargs q =
    Returns () (apply_job job_id (λ job, foldl Job.setattr job kwargs) q).
Proof.
  intros Hfree. unfold apply_job. destruct (jobs_get job_id q) as [job|] eqn:Hget.
  - by apply update_job_present.
  - by apply update_job_absent.
Qed.

Lemma add_log_free q job_id log now :
  _lock q = false →
  add_log job_id log now q =
    Returns () (apply_job job_id (append_log (stamped now log)) q).
Proof.
  intros Hfree. unfold apply_job. destruct (jobs_get job_id q) as [job|] eqn:Hget.
  - by apply add_log_present.
  - unfold add_log. rewrite with_lock_free by done.
    unfold mutate_job, jobs_get in *. simpl. rewrite Hget.
    destruct q; simpl in *; by subst.
Qed.

Lemma apply_job_lock job_id f q : _lock (apply_job job_id f q) = _lock q.
Proof. unfold apply_job. by destruct (jobs_get job_id q). Qed.

Lemma apply_job_queue job_id f q : queue (apply_job job_id f q) = queue q.
Proof. unfold apply_job. by destruct (jobs_get job_id q). Qed.

Lemma apply_job_stored_ids job_id f q : stored_ids (apply_job job_id f q) = stored_ids q.
Proof.
  unfold apply_job, stored_ids. destruct (jobs_get job_id q) as [job|] eqn:Hget; [|done].
  simpl. by eapply dict_set_keys.
Qed.

Lemma apply_job_get job_id f q other :
  jobs_get other (apply_job job_id f q) =
  if decide (job_id = other) then f <$> jobs_get other q else jobs_get other q.
Proof.
  unfold apply_job. destruct (decide (job_id = other)) as [->|Hne].
  - destruct (jobs_get other q) as [job|] eqn:Hget; simpl; [|done].
    apply jobs_get_with_jobs_eq.
  - destruct (jobs_get job_id q) as [job|] eqn:Hget; [|done].
    by apply jobs_get_with_jobs_ne.
Qed.

Lemma create_job_free q request job_id now now_log :
  _lock q = false →
  let job0 := {| Job.id := job_id; Job.status := JobStatus.PENDING;
                 Job.progress := 0; Job.logs := []; Job.created_at := now;
                 Job.completed_at := None; Job.output_url := None;
                 Job.request := Some request |} in
  let job := append_log (stamped now_log "Job created and added to queue") job0 in
  create_job request job_id now now_log q =
    Returns job {| jobs := Py.dict_set (Py.dict_set (jobs q) job_id job0) job_id job;
                   queue := queue q ++ [job_id]; _lock := false |}.
Proof.
  intros Hfree job0 job. unfold create_job, mbind, method_bind, bind.
  rewrite with_lock_free by done. simpl.
  erewrite add_log_present; [|done|apply dict_get_set_eq].
  simpl. unfold jobs_get. simpl. by rewrite dict_get_set_eq.
Qed.

(** X1. A job created under an id that is not in the store: the call
    returns the job, which is PENDING at progress 0 with the creation entry
    as its only log line; the job is stored last, its id is queued last, and
    nothing else in the store changes. *)
Theorem create_job_fresh q request job_id now now_log :
  _lock q = false → jobs_get job_id q = None →
  ∃ q' job,
    create_job request job_id now now_log q = Returns job q' ∧
    get_job job_id q' = Some job ∧
    Job.id job = job_id ∧
    Job.status job = JobStatus.PENDING ∧
    Job.progress job = 0%float ∧
    Job.logs job = [stamped now_log "Job created and added to queue"] ∧
    Job.created_at job = now ∧
    Job.completed_at job = None ∧ Job.output_url job = None ∧
    Job.request job = Some request ∧
    jobs q' = jobs q ++ [(job_id, job)] ∧
    queue q' = queue q ++ [job_id] ∧
    _lock q' = false.
Proof.
  intros Hfree Hget. eexists _, _. split; [by apply create_job_free|].
  unfold get_job, jobs_get in *. simpl.
  rewrite (dict_set_absent (jobs q)), dict_set_app_last by done.
  split; [by apply dict_get_app_absent|]. done.
Qed.

Lemma create_job_fresh_witness :
  ∃ q' job,
    create_job Sample.request "D" 5000000 5000001 Sample.abc = Returns job q' ∧
    get_job "D" q' = Some job ∧
    Job.id job = "D"%string ∧
    Job.status job = JobStatus.PENDING ∧
    Job.progress job = 0%float ∧
    Job.logs job = [stamped 5000001 "Job created and added to queue"] ∧
    Job.created_at job = 5000000 ∧
    Job.completed_at job = None ∧ Job.output_url job = None ∧
    Job.request job = Some Sample.request ∧
    jobs q' = jobs Sample.abc ++ [("D"%string, job)] ∧
    queue q' = queue Sample.abc ++ ["D"%string] ∧
    _lock q' = false.
Proof.
  apply (create_job_fresh Sample.abc Sample.request "D" 5000000 5000001); reflexivity.
Defined.

(** X2. For a job in the store, [complete_job] returns; afterwards the job
    is COMPLETED at progress 100 whatever its progress was, with
    [completed_at] and the output url set and the success entry appended to
    its log; its id, creation time and request, every other job and the
    queue are as before. *)
Theorem complete_job_frame q job_id job output_url now now_log :
  _lock q = false → jobs_get job_id q = Some job →
  ∃ q' job',
    complete_job job_id output_url now now_log q = Returns () q' ∧
    jobs_get job_id q' = Some job' ∧
    Job.status job' = JobStatus.COMPLETED ∧
    Job.progress job' = 100%float ∧
    Job.completed_at job' = Some now ∧
    Job.output_url job' = Some output_url ∧
    Job.logs job' = Job.logs job ++ [stamped now_log "Job completed successfully"] ∧
    Job.id job' = Job.id job ∧
    Job.created_at job' = Job.created_at job ∧
    Job.request job' = Job.request job ∧
    (∀ other, other ≠ job_id → jobs_get other q' = jobs_get other q) ∧
    stored_ids q' = stored_ids q ∧
    queue q' = queue q ∧ _lock q' = false.
Proof.
  intros Hfree Hget. unfold complete_job, mbind, method_bind, bind.
  rewrite update_job_free by done.
  rewrite add_log_free by (by rewrite apply_job_lock).
  eexists _, _. split; [done|].
  rewrite !apply_job_get, !decide_True, Hget by done. simpl.
  split; [done|]. repeat (split; [done|]).
  split; [|by rewrite !apply_job_stored_ids, !apply_job_queue, !apply_job_lock].
  intros other Hne. by rewrite !apply_job_get, !decide_False.
Qed.

Lemma complete_job_frame_witness :
  ∃ q' job',
    complete_job "j1" "/api/download/export_0123abcd.mp4" 7000000 8000000
      (Sample.store (Sample.job "j1" JobStatus.PROCESSING 0) []) = Returns () q' ∧
    jobs_get "j1" q' = Some job' ∧
    Job.status job' = JobStatus.COMPLETED ∧
    Job.progress job' = 100%float ∧
    Job.completed_at job' = Some 7000000 ∧
    Job.output_url job' = Some "/api/download/export_0123abcd.mp4"%string ∧
    Job.logs job' = Job.logs (Sample.job "j1" JobStatus.PROCESSING 0)
                    ++ [stamped 8000000 "Job completed successfully"] ∧
    Job.id job' = Job.id (Sample.job "j1" JobStatus.PROCESSING 0) ∧
    Job.created_at job' = Job.created_at (Sample.job "j1" JobStatus.PROCESSING 0) ∧
    Job.request job' = Job.request (Sample.job "j1" JobStatus.PROCESSING 0) ∧
    (∀ other, other ≠ "j1"%string →
       jobs_get other q' =
       jobs_get other (Sample.store (Sample.job "j1" JobStatus.PROCESSING 0) [])) ∧
    stored_ids q' = stored_ids (Sample.store (Sample.job "j1" JobStatus.PROCESSING 0) []) ∧
    queue q' = [] ∧ _lock q' = false.
Proof.
  apply (complete_job_frame
           (Sample.store (Sample.job "j1" JobStatus.PROCESSING 0) []) "j1"
           (Sample.job "j1" JobStatus.PROCESSING 0)
           "/api/download/export_0123abcd.mp4" 7000000 8000000); reflexivity.
Defined.

(** X3. A call about an id that is not in the store does nothing: marking,
    logging, setting progress, completing, failing and cancelling all return
    and leave the store exactly as it was. *)
Theorem unknown_job_is_ignored q job_id :
  _lock q = false → jobs_get job_id q = None →
  (∀ kwargs, update_job job_id kwargs q = Returns () q) ∧
  (∀ log now, add_log job_id log now q = Returns () q) ∧
  (∀ progress, set_progress job_id progress q = Returns () q) ∧
  (∀ url now now_log, complete_job job_id url now now_log q = Returns () q) ∧
  (∀ error now now_log, fail_job job_id error now now_log q = Returns () q) ∧
  (∀ now now_log, cancel_job job_id now now_log q = Returns () q).
Proof.
  intros Hfree Hget.
  assert (∀ f, apply_job job_id f q = q) as Happly.
  { intros f. unfold apply_job. by rewrite Hget. }
  split; [intros; by rewrite update_job_free, Happly|].
  split; [intros; by rewrite add_log_free, Happly|].
  split; [intros; unfold set_progress; by rewrite update_job_free, Happly|].
  split.
  { intros. unfold complete_job, mbind, method_bind, bind.
    rewrite update_job_free, Happly by done. by rewrite add_log_free, Happly. }
  split.
  { intros. unfold fail_job, mbind, method_bind, bind.
    rewrite update_job_free, Happly by done. by rewrite add_log_free, Happly. }
  intros. by apply cancel_job_unknown.
Qed.

Lemma unknown_job_is_ignored_witness :
  (∀ kwargs, update_job "zz" kwargs Sample.abc = Returns () Sample.abc) ∧
  (∀ log now, add_log "zz" log now Sample.abc = Returns () Sample.abc) ∧
  (∀ progress, set_progress "zz" progress Sample.abc = Returns () Sample.abc) ∧
  (∀ url now now_log, complete_job "zz" url now now_log Sample.abc = Returns () Sample.abc) ∧
  (∀ error now now_log, fail_job "zz" error now now_log Sample.abc = Returns () Sample.abc) ∧
  (∀ now now_log, cancel_job "zz" now now_log Sample.abc = Returns () Sample.abc).
Proof. apply (unknown_job_is_ignored Sample.abc "zz"); reflexivity. Defined.

(** *** What no call does *)

Lemma run_held c q : _lock q = true → run c q = Blocked q.
Proof.
  intros Hheld.
  destruct c; simpl;
    unfold create_job, complete_job, fail_job, set_progress, mbind, method_bind, bind;
    rewrite ?update_job_held, ?add_log_held, ?get_next_job_held by done;
    try done.
  - by rewrite with_lock_held.
  - unfold cancel_job. by rewrite with_lock_held.
Qed.

Lemma continues_refl job : continues job job.
Proof. by repeat split. Qed.

Lemma continues_trans job1 job2 job3 :
  continues job1 job2 → continues job2 job3 → continues job1 job3.
Proof.
  intros (? & ? & ? & ?) (? & ? & ? & ?).
  repeat split; try congruence. by etrans.
Qed.

Lemma continues_append_log entry job : continues job (append_log entry job).
Proof. repeat split; try done. simpl. by apply prefix_app_r. Qed.

(** A stored job after a change of the job under some id by [f]. *)
Lemma apply_job_continues job_id f q other job :
  (∀ j, continues j (f j)) → jobs_get other q = Some job →
  ∃ job', jobs_get other (apply_job job_id f q) = Some job' ∧ continues job job'.
Proof.
  intros Hf Hget. rewrite apply_job_get, Hget.
  destruct (decide (job_id = other)); simpl; eexists; split; try done.
Qed.

(** X4. No call of the service removes a job or rewrites its history.  For
    every call other than the creation of a job under the same id, and
    whether the call returns or blocks, a job that was in the store is still
    there afterwards under the same id, with the same id field, creation
    time and request, and with a log that starts with the log it had. *)
Theorem stored_job_persists c q job_id job :
  jobs_get job_id q = Some job →
  (∀ request now now_log, c ≠ CreateJob request job_id now now_log) →
  ∃ job', jobs_get job_id (state_of (run c q)) = Some job' ∧ continues job job'.
Proof.
  intros Hget Hc. destruct (_lock q) eqn:Hlock.
  { rewrite run_held by done. exists job. split; [done|apply continues_refl]. }
  destruct c as [request id now now_log|id|id log now|id p| |id url now now_log
                |id e now now_log|id now now_log]; simpl.
  - assert (id ≠ job_id) as Hne by (intros ->; by eapply Hc).
    unfold mbind, method_bind, bind. rewrite create_job_free by done. simpl.
    exists job. split; [|apply continues_refl].
    unfold jobs_get in *. simpl. by rewrite !dict_get_set_ne.
  - rewrite update_job_free by done. simpl.
    apply apply_job_continues; [|done]. intros j. by repeat split.
  - rewrite add_log_free by done. simpl.
    apply apply_job_continues; [|done]. intros j. apply continues_append_log.
  - unfold set_progress. rewrite update_job_free by done. simpl.
    apply apply_job_continues; [|done]. intros j. by repeat split.
  - unfold mbind, method_bind, bind. rewrite get_next_job_free by done. simpl.
    exists job. split; [done|apply continues_refl].
  - unfold complete_job, mbind, method_bind, bind.
    rewrite update_job_free by done.
    rewrite add_log_free by (by rewrite apply_job_lock). simpl.
    edestruct (apply_job_continues id
                 (λ j, foldl Job.setattr j
                         [Job.kw_status JobStatus.COMPLETED; Job.kw_progress 100;
                          Job.kw_completed_at (Some now); Job.kw_output_url (Some url)])
                 q job_id job) as (job1 & Hget1 & Hc1); [by repeat split|done|].
    edestruct (apply_job_continues id
                 (append_log (stamped now_log "Job completed successfully"))
                 _ job_id job1 (continues_append_log _) Hget1) as (job2 & Hget2 & Hc2).
    exists job2. split; [done|]. by eapply continues_trans.
  - unfold fail_job, mbind, method_bind, bind.
    rewrite update_job_free by done.
    rewrite add_log_free by (by rewrite apply_job_lock). simpl.
    edestruct (apply_job_continues id
                 (λ j, foldl Job.setattr j
                         [Job.kw_status JobStatus.FAILED; Job.kw_completed_at (Some now)])
                 q job_id job) as (job1 & Hget1 & Hc1); [by repeat split|done|].
    edestruct (apply_job_continues id
                 (append_log (stamped now_log ("Job failed: " +:+ e)))
                 _ job_id job1 (continues_append_log _) Hget1) as (job2 & Hget2 & Hc2).
    exists job2. split; [done|]. by eapply continues_trans.
  - destruct (jobs_get id q) as [j|] eqn:Hid.
    + destruct (decide (Job.status j = JobStatus.PENDING)) as [Hp|Hp].
      * rewrite (cancel_job_pending _ _ j) by done. simpl.
        unfold jobs_get in *. simpl.
        destruct (decide (id = job_id)) as [->|Hne].
        -- rewrite dict_get_set_eq. simplify_eq. eexists. split; [done|].
           by repeat split.
        -- rewrite dict_get_set_ne by done. exists job. split; [done|apply continues_refl].
      * rewrite (cancel_job_not_pending _ _ j) by done. simpl.
        exists job. split; [done|apply continues_refl].
    + rewrite cancel_job_unknown by done. simpl.
      exists job. split; [done|apply continues_refl].
Qed.

Lemma stored_job_persists_witness :
  ∃ job',
    jobs_get "B" (state_of (run (FailJob "B" "boom" 7000000 8000000) Sample.abc))
    = Some job' ∧
    continues
      (Job.setattr (Sample.job "B" JobStatus.PENDING 2000000)
         (Job.kw_logs ["[00:00:02] Job created and added to queue"%string]))
      job'.
Proof.
  apply (stored_job_persists (FailJob "B" "boom" 7000000 8000000) Sample.abc "B");
    [reflexivity|discriminate].
Defined.

(** X5. On a free lock every call returns with the lock free again, except
    the cancellation of a stored PENDING job, which is the only call that
    blocks.  The ids of the stored jobs keep their order: a call leaves them
    as they are, or, when it creates a job under a new id, adds that id at
    the end. *)
Theorem call_returns_or_is_cancel c q :
  _lock q = false →
  (∃ q', run c q = Returns () q' ∧ _lock q' = false ∧
         (stored_ids q' = stored_ids q ∨
          ∃ request job_id now now_log,
            c = CreateJob request job_id now now_log ∧
            (job_id ∉ stored_ids q) ∧ stored_ids q' = stored_ids q ++ [job_id])) ∨
  (∃ q' job_id now now_log job,
     run c q = Blocked q' ∧ c = CancelJob job_id now now_log ∧
     jobs_get job_id q = Some job ∧ Job.status job = JobStatus.PENDING ∧
     _lock q' = true ∧ stored_ids q' = stored_ids q).
Proof.
  intros Hfree.
  destruct c as [request id now now_log|id|id log now|id p| |id url now now_log
                |id e now now_log|id now now_log]; simpl.
  - left. unfold mbind, method_bind, bind. rewrite create_job_free by done. simpl.
    eexists. split; [done|]. split; [done|]. unfold stored_ids. simpl.
    destruct (Py.dict_get (jobs q) id) as [j|] eqn:Hid.
    + left. erewrite dict_set_keys; [|apply dict_get_set_eq].
      by eapply dict_set_keys.
    + right. exists request, id, now, now_log. split; [done|].
      split; [by apply dict_get_None_keys|].
      rewrite (dict_set_absent (jobs q)), dict_set_app_last by done.
      by rewrite fmap_app.
  - left. rewrite update_job_free by done. eexists. split; [done|].
    rewrite apply_job_lock, apply_job_stored_ids. split; [done|by left].
  - left. rewrite add_log_free by done. eexists. split; [done|].
    rewrite apply_job_lock, apply_job_stored_ids. split; [done|by left].
  - left. unfold set_progress. rewrite update_job_free by done. eexists. split; [done|].
    rewrite apply_job_lock, apply_job_stored_ids. split; [done|by left].
  - left. unfold mbind, method_bind, bind. rewrite get_next_job_free by done. simpl.
    eexists. split; [done|]. split; [done|by left].
  - left. unfold complete_job, mbind, method_bind, bind.
    rewrite update_job_free by done.
    rewrite add_log_free by (by rewrite apply_job_lock).
    eexists. split; [done|].
    rewrite !apply_job_lock, !apply_job_stored_ids. split; [done|by left].
  - left. unfold fail_job, mbind, method_bind, bind.
    rewrite update_job_free by done.
    rewrite add_log_free by (by rewrite apply_job_lock).
    eexists. split; [done|].
    rewrite !apply_job_lock, !apply_job_stored_ids. split; [done|by left].
  - destruct (jobs_get id q) as [j|] eqn:Hid.
    + destruct (decide (Job.status j = JobStatus.PENDING)) as [Hp|Hp].
      * right. eexists _, id, now, now_log, j.
        split; [by apply cancel_job_pending|]. repeat (split; [done|]).
        unfold stored_ids. simpl. by eapply dict_set_keys.
      * left. rewrite (cancel_job_not_pending _ _ j) by done.
        eexists. split; [done|]. split; [done|by left].
    + left. rewrite cancel_job_unknown by done.
      eexists. split; [done|]. split; [done|by left].
Qed.

Lemma call_returns_or_is_cancel_witness :
  (∃ q', run (CancelJob "B" 4000000 4000001) Sample.abc = Returns () q' ∧
         _lock q' = false ∧
         (stored_ids q' = stored_ids Sample.abc ∨
          ∃ request job_id now now_log,
            CancelJob "B" 4000000 4000001 = CreateJob request job_id now now_log ∧
            (job_id ∉ stored_ids Sample.abc) ∧
            stored_ids q' = stored_ids Sample.abc ++ [job_id])) ∨
  (∃ q' job_id now now_log job,
     run (CancelJob "B" 4000000 4000001) Sample.abc = Blocked q' ∧
     CancelJob "B" 4000000 4000001 = CancelJob job_id now now_log ∧
     jobs_get job_id Sample.abc = Some job ∧ Job.status job = JobStatus.PENDING ∧
     _lock q' = true ∧ stored_ids q' = stored_ids Sample.abc).
Proof.
  apply (call_returns_or_is_cancel (CancelJob "B" 4000000 4000001) Sample.abc).
  reflexivity.
Defined.

(** *** First in, first out *)

Lemma pending_of_cons js job_id ids :
  pending_of js (job_id :: ids) =
    match Py.dict_get js job_id with
    | Some job =>
        if decide (Job.status job = JobStatus.PENDING)
        then job :: pending_of js ids else pending_of js ids
    | None => pending_of js ids
    end.
Proof.
  unfold pending_of. simpl. destruct (Py.dict_get js job_id) as [job|]; simpl; [|done].
  by destruct (decide (Job.status job = JobStatus.PENDING)).
Qed.

Lemma pop_pending_pending_of js ids :
  pop_pending js ids =
    match pending_of js ids with
    | [] => (None, [])
    | job :: _ => (Some job, (pop_pending js ids).2)
    end ∧
  pending_of js (pop_pending js ids).2 = tail (pending_of js ids) ∧
  (length (pop_pending js ids).2 + length (pending_of js ids)
   ≤ length ids + length (tail (pending_of js ids)))%nat.
Proof.
  induction ids as [|job_id ids IH]; [done|].
  rewrite pending_of_cons. cbn [pop_pending].
  destruct (Py.dict_get js job_id) as [job|] eqn:Hget.
  - destruct (decide (Job.status job = JobStatus.PENDING)) as [Hp|Hp].
    + cbn [snd tail length]. split; [done|]. split; [done|]. lia.
    + destruct IH as (IH1 & IH2 & IH3). split; [done|]. split; [done|].
      cbn [length]. lia.
  - destruct IH as (IH1 & IH2 & IH3). split; [done|]. split; [done|].
    cbn [length]. lia.
Qed.

(** [n] calls of [get_next_job] in a row, with [n] at least the length of
    the queue. *)
Lemma drain_returns n : ∀ q,
  _lock q = false → (length (queue q) ≤ n)%nat →
  drain n q =
    Returns (take n (map Some (pending_of (jobs q) (queue q)) ++ replicate n None))
            (with_queue q []).
Proof.
  induction n as [|n IH]; intros q Hfree Hlen.
  - simpl. destruct q as [js ids l]. simpl in *.
    destruct ids; [|simpl in Hlen; lia]. by rewrite take_0.
  - cbn [drain]. unfold mbind, method_bind, bind.
    rewrite get_next_job_free by done.
    destruct (pop_pending_pending_of (jobs q) (queue q)) as (Hpop & Htail & Hlen').
    rewrite (IH (with_queue q (pop_pending (jobs q) (queue q)).2)); [|done|].
    + simpl. rewrite Htail, Hpop.
      destruct (pending_of (jobs q) (queue q)) as [|job rest]; simpl.
      * by f_equal.
      * unfold mret, method_ret. f_equal. f_equal.
        change (None :: replicate n None) with (replicate (S n) (@None Job.t)).
        rewrite !take_app, !take_replicate. do 2 f_equal. lia.
    + simpl. destruct (pending_of (jobs q) (queue q)) as [|job rest].
      * rewrite Hpop. simpl. lia.
      * simpl in *. lia.
Qed.

(** The ids of the stored PENDING jobs among [ids] are a selection of [ids],
    in order, when the jobs are stored under their own ids. *)
Lemma pending_of_ids js ids :
  (∀ job_id job, Py.dict_get js job_id = Some job → Job.id job = job_id) →
  Job.id <$> pending_of js ids `sublist_of` ids.
Proof.
  intros Hkeyed. induction ids as [|job_id ids IH]; [done|].
  rewrite pending_of_cons.
  destruct (Py.dict_get js job_id) as [job|] eqn:Hget; [|by apply sublist_cons].
  destruct (decide (Job.status job = JobStatus.PENDING)); [|by apply sublist_cons].
  rewrite fmap_cons, (Hkeyed _ _ Hget). by apply sublist_skip.
Qed.

(** X6. First in, first out.  On a free lock, [n] calls of [get_next_job] in
    a row, with [n] at least the length of the queue, return in queue order,
    for each id in the queue, the job stored under it if it is PENDING, and
    [None] from then on.  Ids whose job is missing or no longer PENDING are
    dropped without being returned; afterwards the queue is empty and the
    stored jobs are as before (dequeuing does not mark a job as processing).
    A job is returned as many times as its id is in the queue: once when the
    ids in the queue are distinct and the jobs are stored under their own
    ids, twice for an id that was queued twice. *)
Theorem get_next_job_fifo n : ∀ q,
  _lock q = false → (length (queue q) ≤ n)%nat →
  drain n q =
    Returns (take n (map Some (pending_of (jobs q) (queue q)) ++ replicate n None))
            (with_queue q []) ∧
  ((∀ job_id job, jobs_get job_id q = Some job → Job.id job = job_id) →
   NoDup (queue q) → NoDup (Job.id <$> pending_of (jobs q) (queue q))).
Proof.
  intros q Hfree Hlen. split; [by apply drain_returns|].
  intros Hkeyed Hqueue. eapply sublist_NoDup; [done|]. by apply pending_of_ids.
Qed.

Lemma get_next_job_fifo_witness :
  drain 5 Sample.abc =
    Returns (take 5 (map Some (pending_of (jobs Sample.abc) (queue Sample.abc))
                     ++ replicate 5 None))
            (with_queue Sample.abc []) ∧
  ((∀ job_id job, jobs_get job_id Sample.abc = Some job → Job.id job = job_id) →
   NoDup (queue Sample.abc) →
   NoDup (Job.id <$> pending_of (jobs Sample.abc) (queue Sample.abc))).
Proof.
  apply (get_next_job_fifo 5 Sample.abc); [reflexivity|].
  vm_compute. repeat constructor.
Defined.

(** An id that is queued twice: the second [create_job] under the id "A"
    replaces the stored job and queues the id again, and the job is then
    returned by two calls of [get_next_job]. *)
Example get_next_job_repeats :
  let q := state_of ((create_job Sample.request "A" 1000000 1000001;;
                      create_job Sample.request "A" 2000000 2000001) init) in
  queue q = ["A"; "A"]%string ∧
  match drain 3 q with
  | Returns found _ => map (option_map Job.id) found
  | Blocked _ => []
  end = [Some "A"; Some "A"; None]%string.
Proof. vm_compute. done. Qed.

(** *** The cancel endpoint *)

(** X7. POST /api/job/{job_id}/cancel never answers with its success message.
    For an unknown id it answers 404 and for a job that is not PENDING 400,
    both with the store unchanged; for a PENDING job the call into
    [cancel_job] does not return.  This holds whether the lock is free or
    held. *)
Theorem cancel_job_endpoint_outcomes job_id now now_log q :
  (jobs_get job_id q = None ∧
   Api.cancel_job_endpoint job_id now now_log q =
     Returns (Api.HTTPException 404 "Job not found") q) ∨
  (∃ job, jobs_get job_id q = Some job ∧ Job.status job ≠ JobStatus.PENDING ∧
     Api.cancel_job_endpoint job_id now now_log q =
       Returns (Api.HTTPException 400 "Can only cancel pending jobs") q) ∨
  (∃ job q', jobs_get job_id q = Some job ∧ Job.status job = JobStatus.PENDING ∧
     Api.cancel_job_endpoint job_id now now_log q = Blocked q').
Proof.
  unfold Api.cancel_job_endpoint, get_job.
  destruct (jobs_get job_id q) as [job|] eqn:Hget; [|by left].
  right. destruct (decide (Job.status job ≠ JobStatus.PENDING)) as [Hst|Hst].
  - left. by exists job.
  - right. assert (Job.status job = JobStatus.PENDING) as Hp
      by (destruct (decide (Job.status job = JobStatus.PENDING)); [done|by destruct Hst]).
    exists job. unfold mbind, method_bind, bind.
    destruct (_lock q) eqn:Hlock.
    + exists q. split; [done|]. split; [done|].
      unfold cancel_job. by rewrite with_lock_held.
    + eexists. split; [done|]. split; [done|].
      by rewrite (cancel_job_pending q job_id job).
Qed.

(** *** Listing order of equal keys *)

(** X8. The listing is stable: when the stored jobs already stand in listing
    order (for instance jobs that were created one after the other and are
    all still PENDING, also with equal creation times), [get_all_jobs]
    returns them in store order. *)
Theorem get_all_jobs_stable q :
  StronglySorted listed_before (Py.dict_values (jobs q)) →
  get_all_jobs q = Py.dict_values (jobs q).
Proof.
  unfold get_all_jobs. generalize (Py.dict_values (jobs q)) as l.
  induction 1 as [|a l Hl IH Ha]; [done|].
  unfold Py.sorted in *. cbn [foldr]. rewrite IH.
  apply insert_sorted_head. eapply Forall_impl; [done|].
  intros b Hb. by apply listed_before_key.
Qed.

Lemma get_all_jobs_stable_witness :
  get_all_jobs Sample.abc = Py.dict_values (jobs Sample.abc).
Proof.
  apply (get_all_jobs_stable Sample.abc).
  cbv -[listed_before].
  repeat first [apply SSorted_nil | apply SSorted_cons
               | apply Forall_nil_2 | apply Forall_cons_2];
    right; (split; [reflexivity|vm_compute; discriminate]).
Defined.

End StoreFacts.

(** ** More on the export engine *)

Module EngineFacts.
Import VideoProcessor Observe Stages ProcessorFacts.

Section Loops.
Context `{Externals} (self : VideoProcessor.t).

(** X9. The text overlay loop never raises.  It returns the clips it was
    given followed by one clip for each overlay whose text can be rendered,
    in the order of the overlays, and logs one warning for each of the
    others and nothing else: an overlay that fails is dropped and the loop
    goes on. *)
Theorem text_overlay_loop_keeps clip overlays : ∀ text_clips,
  text_overlay_loop (call_log (Some log_event)) clip overlays text_clips =
    (omap text_warning_of overlays,
     Py.Ok (text_clips ++ omap (text_clip_of clip) overlays)).
Proof.
  induction overlays as [|overlay rest IH]; intros text_clips.
  - simpl. by rewrite app_nil_r.
  - cbn [text_overlay_loop omap list_omap].
    unfold text_warning_of at 1, text_clip_of at 1.
    destruct (TextClip _ _ _ _) as [txt_clip|e];
      cbn [try_except lift mbind M_bind mret M_ret call_log log_event emit app];
      rewrite IH; cbn [app]; by rewrite <-?app_assoc.
Qed.

(** X10. The image overlay loop never raises either: it returns the clips it
    was given followed by the clip of each overlay that could be made, in the
    order of the overlays. *)
Theorem image_overlay_loop_keeps clip overlays : ∀ image_clips,
  outcome (image_overlay_loop self (call_log (Some log_event)) (Some log_event)
             clip overlays image_clips) =
    Py.Ok (image_clips ++ omap (image_clip_of self clip) overlays).
Proof.
  induction overlays as [|overlay rest IH]; intros image_clips.
  - simpl. by rewrite app_nil_r.
  - cbn [image_overlay_loop omap list_omap].
    rewrite outcome_bind, outcome_try_except, outcome_bind.
    unfold image_clip_of at 1.
    destruct (outcome (create_image_overlay_clip _ _ _ _ _)) as [img_clip|e];
      cbn [outcome mret M_ret snd]; [by rewrite IH, <-app_assoc|].
    rewrite outcome_bind. cbn [call_log log_event emit outcome snd mret M_ret].
    apply IH.
Qed.

(** X11. The audio loop never raises.  It returns the audio clips it was given
    followed by one clip, with its volume and start set, for each track
    whose file exists and can be read, in the order of the tracks; for each
    of the other tracks it logs one warning, and it logs nothing else. *)
Theorem audio_loop_keeps url_resolver audio_tracks : ∀ audio_clips,
  audio_loop log_event url_resolver audio_tracks audio_clips =
    (omap (audio_warning_of url_resolver) audio_tracks,
     Py.Ok (audio_clips ++ omap (audio_clip_of url_resolver) audio_tracks)).
Proof.
  induction audio_tracks as [|audio_req rest IH]; intros audio_clips.
  - simpl. by rewrite app_nil_r.
  - cbn [audio_loop omap list_omap].
    unfold audio_warning_of at 1, audio_clip_of at 1.
    change (match url_resolver with
            | Some resolve => resolve (AudioTrackRequest.url audio_req)
            | None => AudioTrackRequest.url audio_req
            end) with (audio_path_of url_resolver audio_req).
    destruct (os_path_exists (audio_path_of url_resolver audio_req));
      [destruct (AudioFileClip _) as [audio_clip|e]|];
      cbn [negb try_except lift mbind M_bind mret M_ret log_event emit app];
      rewrite IH; cbn [app]; by rewrite <-?app_assoc.
Qed.

End Loops.

Section Sources.
Context `{Externals} (self : VideoProcessor.t).

(** A clip whose source file is missing is not processed. *)
Lemma process_clip_missing clip_request aspect_ratio quality url_resolver :
  os_path_exists (video_path_of self url_resolver clip_request) = false →
  outcome (process_clip self clip_request aspect_ratio quality (Some log_event)
             url_resolver) =
    Py.Raise ("Video file not found at path: "
              +:+ video_path_of self url_resolver clip_request).
Proof.
  intros Hmissing. unfold process_clip, video_path_of in *.
  destruct url_resolver as [resolve|];
    [|destruct (Py.startswith _ _)];
    cbn [call_log log_event emit mbind M_bind mret M_ret try_except];
    rewrite Hmissing; by destruct (os_listdir _).
Qed.

Lemma outcome_log_bind {B} msg (f : () → M B) :
  outcome (log_event msg ≫= f) = outcome (f ()).
Proof. by rewrite outcome_bind. Qed.

Lemma outcome_bind_ok {A B} (m : M A) (f : A → M B) b :
  outcome (m ≫= f) = Py.Ok b → ∃ a, outcome m = Py.Ok a ∧ outcome (f a) = Py.Ok b.
Proof. rewrite outcome_bind. destruct (outcome m) as [a|e]; [by exists a|done]. Qed.

Lemma outcome_try_reraise_ok {A} (m : M A) (h : string → M A) a :
  (∀ e a', outcome (h e) ≠ Py.Ok a') →
  outcome (try_except m h) = Py.Ok a → outcome m = Py.Ok a.
Proof.
  intros Hh. rewrite outcome_try_except. destruct (outcome m) as [a'|e]; [done|].
  intros Hok. by apply Hh in Hok.
Qed.

Lemma outcome_log_raise e a (label : string) :
  outcome (log_event (label +:+ e) ≫= λ _, raise e : M string) ≠ Py.Ok a.
Proof. by rewrite outcome_bind. Qed.

(** The clip loop returns only if every clip has been processed. *)
Lemma clips_loop_ok settings url_resolver total_clips clips_requests :
  ∀ i processed_clips result,
  outcome (clips_loop self log_event progress_event settings url_resolver total_clips i
             clips_requests processed_clips) = Py.Ok result →
  Forall (λ clip_req,
            ∃ clip, outcome (process_clip self clip_req
                               (ExportSettings.aspect_ratio settings)
                               (ExportSettings.quality settings)
                               (Some log_event) url_resolver) = Py.Ok clip)
         clips_requests.
Proof.
  induction clips_requests as [|clip_req rest IH]; intros i processed_clips result;
    [by constructor|].
  cbn [clips_loop]. rewrite !outcome_log_bind.
  intros (clip & Hclip & Hrest)%outcome_bind_ok.
  apply outcome_bind_ok in Hrest as (p & _ & Hrest).
  apply outcome_bind_ok in Hrest as (_ & _ & Hrest).
  constructor; [by exists clip|]. by eapply IH.
Qed.

(** X12. An export returns only if the source file of every one of its clips
    exists where [process_clip] looks for it. *)
Theorem export_needs_every_source job clips_requests audio_tracks settings
    url_resolver uuid8 url :
  outcome (process_export self job clips_requests audio_tracks settings
             log_event progress_event url_resolver uuid8) = Py.Ok url →
  Forall (λ clip_req, os_path_exists (video_path_of self url_resolver clip_req) = true)
         clips_requests.
Proof.
  unfold process_export. intros Hok.
  apply outcome_try_reraise_ok in Hok; [|intros; apply outcome_log_raise].
  rewrite !outcome_log_bind in Hok.
  apply outcome_bind_ok in Hok as (processed_clips & Hloop & _).
  apply clips_loop_ok in Hloop. eapply Forall_impl; [done|].
  intros clip_req [clip Hclip]. simpl in Hclip.
  destruct (os_path_exists (video_path_of self url_resolver clip_req)) eqn:Hex; [done|].
  by rewrite process_clip_missing in Hclip.
Qed.

(** X13. An export whose first clip has no source file raises the error that
    names the missing path, reports no progress and writes nothing, and
    the last thing it logs is that error. *)
Theorem missing_source_fails_export job clip_req rest audio_tracks settings
    url_resolver uuid8 :
  os_path_exists (video_path_of self url_resolver clip_req) = false →
  let run := process_export self job (clip_req :: rest) audio_tracks settings
               log_event progress_event url_resolver uuid8 in
  let e := ("Video file not found at path: "
            +:+ video_path_of self url_resolver clip_req)%string in
  outcome run = Py.Raise e ∧
  only_logs run ∧
  last (events run) = Some (Log ("Export failed: " +:+ e)).
Proof.
  intros Hmissing run e.
  pose proof (process_clip_missing clip_req (ExportSettings.aspect_ratio settings)
                (ExportSettings.quality settings) url_resolver Hmissing) as Hclip.
  pose proof (process_clip_only_logs self clip_req (ExportSettings.aspect_ratio settings)
                (ExportSettings.quality settings) url_resolver) as Hlogs.
  fold e in Hclip. unfold only_logs in *.
  subst run. unfold process_export. cbn [clips_loop].
  destruct (process_clip self clip_req _ _ _ _) as [es r].
  simpl in Hclip, Hlogs. subst r.
  cbn [log_event emit mbind M_bind try_except raise events outcome fst snd app mret M_ret].
  split; [done|]. split.
  - repeat (constructor; [done|]). apply Forall_app. split; [done|].
    by repeat constructor.
  - rewrite !app_comm_cons. apply last_snoc.
Qed.

(** X14. Whenever an export raises, the last thing it logs is
    "Export failed: " followed by the error it raises. *)
Theorem export_failure_is_logged job clips_requests audio_tracks settings
    url_resolver uuid8 e :
  let run := process_export self job clips_requests audio_tracks settings
               log_event progress_event url_resolver uuid8 in
  outcome run = Py.Raise e →
  last (events run) = Some (Log ("Export failed: " +:+ e)).
Proof.
  intros run. subst run. unfold process_export.
  match goal with |- context [try_except ?body _] => generalize body end.
  intros [es [a|e']]; [done|].
  cbn [log_event emit mbind M_bind try_except raise events outcome fst snd app].
  intros [= ->]. apply last_snoc.
Qed.

Lemma returns_only_bind {A B} (m : M A) (f : A → M B) v :
  (∀ a, returns_only v (f a)) → returns_only v (m ≫= f).
Proof. intros Hf b (a & _ & Hb)%outcome_bind_ok. by eapply Hf. Qed.

Lemma elem_of_milestones e es : e ∈ milestones es → e ∈ es.
Proof.
  induction es as [|[msg|p|path] es IH]; simpl; [done|..].
  - intros Hin. apply elem_of_cons. right. by apply IH.
  - intros [->|Hin]%elem_of_cons; [left|right; by apply IH].
  - intros [->|Hin]%elem_of_cons; [left|right; by apply IH].
Qed.

(** X15. An export that returns has written the file named
    export_<uuid8>.<format> in the exports directory, and what it returns is
    the download url of that name: the file that the download endpoint
    serves for the returned url is the file written. *)
Theorem export_returns_download_url job clips_requests audio_tracks settings
    url_resolver uuid8 url :
  let run := process_export self job clips_requests audio_tracks settings
               log_event progress_event url_resolver uuid8 in
  outcome run = Py.Ok url →
  url = ("/api/download/" +:+ output_filename settings uuid8)%string ∧
  Written (Api.download_path (exports_dir self) (output_filename settings uuid8))
    ∈ events run.
Proof.
  intros run Hok. split.
  - subst run. unfold process_export in Hok.
    apply outcome_try_reraise_ok in Hok; [|intros; apply outcome_log_raise].
    revert url Hok.
    match goal with
    | |- ∀ url, outcome ?m = Py.Ok url → url = ?v => change (returns_only v m)
    end.
    repeat (apply returns_only_bind; intros ?).
    by intros url [= <-].
  - destruct (process_export_follows self job clips_requests audio_tracks settings
                url_resolver uuid8) as (k & Hk & Hms & Hall).
    fold run in Hms, Hall. rewrite (Hall url Hok), firstn_all in Hms.
    apply elem_of_milestones. rewrite Hms. unfold plan.
    apply elem_of_app. right. do 3 right. left.
Qed.

(** X16. An export of no clips reports no clip progress and asks for the
    concatenation of nothing; when that fails, the export raises its error
    without having reported any progress. *)
Theorem empty_export_fails job audio_tracks settings url_resolver uuid8 e :
  concatenate_videoclips [] = Py.Raise e →
  process_export self job [] audio_tracks settings
    log_event progress_event url_resolver uuid8 =
  ([Log "Starting export process...";
    Log ("URL resolver provided: " +:+ Py.str_of_bool (bool_decide (is_Some url_resolver)));
    Log ("Uploads directory: " +:+ uploads_dir self);
    Log "Concatenating clips...";
    Log ("Export failed: " +:+ e)],
   Py.Raise e).
Proof. intros Hcat. unfold process_export. cbn [clips_loop]. simpl. by rewrite Hcat. Qed.

End Sources.

Lemma export_needs_every_source_witness :
  Forall (λ clip_req,
            os_path_exists (Externals := Sample.externals)
              (video_path_of Sample.processor (Some Sample.resolver) clip_req) = true)
         [Sample.clip []].
Proof.
  apply (export_needs_every_source (H := Sample.externals) Sample.processor
           (Sample.job "j1" JobStatus.PROCESSING 0) [Sample.clip []] [] Sample.settings
           (Some Sample.resolver) "0123abcd" "/api/download/export_0123abcd.mp4").
  reflexivity.
Defined.

Lemma missing_source_fails_export_witness :
  let run := Sample.export [MoreSamples.missing_clip; Sample.clip []] [] in
  let e := ("Video file not found at path: "
            +:+ video_path_of Sample.processor (Some Sample.resolver)
                  MoreSamples.missing_clip)%string in
  outcome run = Py.Raise e ∧
  only_logs run ∧
  last (events run) = Some (Log ("Export failed: " +:+ e)).
Proof.
  apply (missing_source_fails_export (H := Sample.externals) Sample.processor
           (Sample.job "j1" JobStatus.PROCESSING 0) MoreSamples.missing_clip
           [Sample.clip []] [] Sample.settings (Some Sample.resolver) "0123abcd").
  reflexivity.
Defined.

Lemma export_failure_is_logged_witness :
  last (events (Sample.export [] [])) =
    Some (Log ("Export failed: " +:+ "list index out of range")).
Proof.
  apply (export_failure_is_logged (H := Sample.externals) Sample.processor
           (Sample.job "j1" JobStatus.PROCESSING 0) [] [] Sample.settings
           (Some Sample.resolver) "0123abcd" "list index out of range").
  reflexivity.
Defined.

Lemma export_returns_download_url_witness :
  "/api/download/export_0123abcd.mp4"%string =
    ("/api/download/" +:+ output_filename Sample.settings "0123abcd")%string ∧
  Written (Api.download_path "/exports" (output_filename Sample.settings "0123abcd"))
    ∈ events (Sample.export [Sample.clip []] []).
Proof.
  apply (export_returns_download_url (H := Sample.externals) Sample.processor
           (Sample.job "j1" JobStatus.PROCESSING 0) [Sample.clip []] [] Sample.settings
           (Some Sample.resolver) "0123abcd" "/api/download/export_0123abcd.mp4").
  reflexivity.
Defined.

Lemma empty_export_fails_witness :
  Sample.export [] [] =
  ([Log "Starting export process...";
    Log ("URL resolver provided: "
         +:+ Py.str_of_bool (bool_decide (is_Some (Some Sample.resolver))));
    Log ("Uploads directory: " +:+ uploads_dir Sample.processor);
    Log "Concatenating clips...";
    Log ("Export failed: " +:+ "list index out of range")],
   Py.Raise "list index out of range").
Proof.
  apply (empty_export_fails (H := Sample.externals) Sample.processor
           (Sample.job "j1" JobStatus.PROCESSING 0) [] Sample.settings
           (Some Sample.resolver) "0123abcd" "list index out of range").
  reflexivity.
Defined.

End EngineFacts.

(** ** More on the worker *)

Module RoundFacts.
Import JobQueue VideoProcessor Worker Observe Stages Calls.
Import JobQueueFacts ProcessorFacts StoreFacts.

(** *** Jobs are stored under their own id *)

Lemma apply_job_well_keyed job_id f q :
  (∀ j, Job.id (f j) = Job.id j) → well_keyed q → well_keyed (apply_job job_id f q).
Proof.
  intros Hf Hq other job'. rewrite apply_job_get.
  destruct (decide (job_id = other)) as [->|Hne]; [|apply Hq].
  destruct (jobs_get other q) as [job|] eqn:Hget; simpl; [|done].
  intros [= <-]. rewrite Hf. by apply Hq.
Qed.

Lemma well_keyed_init : well_keyed init.
Proof. by intros job_id job. Qed.

(** X18. Every call of the service keeps the jobs stored under their own
    ids, whether the call returns or blocks; the empty store has the
    property, so every store the service reaches has it. *)
Theorem run_keeps_well_keyed c q :
  well_keyed q → well_keyed (state_of (run c q)).
Proof.
  intros Hq. destruct (_lock q) eqn:Hlock; [by rewrite run_held|].
  destruct c as [request id now now_log|id|id log now|id p| |id url now now_log
                |id e now now_log|id now now_log]; simpl.
  - unfold mbind, method_bind, bind. rewrite create_job_free by done. simpl.
    intros other job'. unfold jobs_get. simpl.
    destruct (decide (id = other)) as [->|Hne].
    + rewrite dict_get_set_eq. by intros [= <-].
    + rewrite !dict_get_set_ne by done. apply Hq.
  - rewrite update_job_free by done. simpl. by apply apply_job_well_keyed.
  - rewrite add_log_free by done. simpl. by apply apply_job_well_keyed.
  - unfold set_progress. rewrite update_job_free by done. simpl.
    by apply apply_job_well_keyed.
  - unfold mbind, method_bind, bind. rewrite get_next_job_free by done. simpl.
    apply Hq.
  - unfold complete_job, mbind, method_bind, bind.
    rewrite update_job_free by done.
    rewrite add_log_free by (by rewrite apply_job_lock). simpl.
    by do 2 (apply apply_job_well_keyed; [done|]).
  - unfold fail_job, mbind, method_bind, bind.
    rewrite update_job_free by done.
    rewrite add_log_free by (by rewrite apply_job_lock). simpl.
    by do 2 (apply apply_job_well_keyed; [done|]).
  - destruct (jobs_get id q) as [j|] eqn:Hid.
    + destruct (decide (Job.status j = JobStatus.PENDING)) as [Hp|Hp].
      * rewrite (cancel_job_pending _ _ j) by done. simpl.
        intros other job'. unfold jobs_get. simpl.
        destruct (decide (id = other)) as [->|Hne].
        -- rewrite dict_get_set_eq. intros [= <-]. simpl. by apply Hq.
        -- rewrite dict_get_set_ne by done. apply Hq.
      * by rewrite (cancel_job_not_pending _ _ j).
    + by rewrite cancel_job_unknown.
Qed.

Lemma run_keeps_well_keyed_witness :
  well_keyed init ∧
  well_keyed (state_of (run (CreateJob Sample.request "A" 1000000 1000001) init)).
Proof.
  split; [by intros job_id job|].
  apply (run_keeps_well_keyed (CreateJob Sample.request "A" 1000000 1000001) init).
  by intros job_id job.
Defined.

Lemma update_well_keyed q job_id job job' :
  jobs_get job_id q = Some job → Job.id job' = Job.id job → well_keyed q →
  well_keyed (with_jobs q (Py.dict_set (jobs q) job_id job')).
Proof.
  intros Hget Hid Hq other j. destruct (decide (job_id = other)) as [->|Hne].
  - rewrite jobs_get_with_jobs_eq. intros [= <-]. rewrite Hid. by apply Hq.
  - rewrite jobs_get_with_jobs_ne by done. apply Hq.
Qed.

(** *** Requests served during a round *)

Lemma create_job_well_keyed q request job_id now now_log job q' :
  _lock q = false → well_keyed q →
  create_job request job_id now now_log q = Returns job q' → well_keyed q'.
Proof.
  intros Hfree Hq. rewrite create_job_free by done. intros [= _ <-].
  intros other job'. unfold jobs_get. simpl.
  destruct (decide (job_id = other)) as [->|Hne].
  - rewrite dict_get_set_eq. by intros [= <-].
  - rewrite !dict_get_set_ne by done. apply Hq.
Qed.

(** A harmless request is served: the lock is free again and the job of the
    round is as it was. *)
Lemma serve_harmless job_id h q job :
  harmless job_id h →
  _lock q = false → jobs_get job_id q = Some job →
  Job.status job ≠ JobStatus.PENDING →
  ∃ q', serve h q = Returns () q' ∧ _lock q' = false ∧
        jobs_get job_id q' = Some job ∧ (well_keyed q → well_keyed q').
Proof.
  intros Hh Hfree Hget Hst.
  destruct h as [request other now now_log|other now now_log]; simpl in Hh.
  - unfold serve, Api.start_export, mbind, method_bind, bind.
    pose proof (create_job_well_keyed q request other now now_log) as Hkeyed.
    rewrite create_job_free in Hkeyed |- * by done. simpl.
    eexists. split; [done|]. split; [done|]. split.
    + unfold jobs_get in *. simpl. by rewrite !dict_get_set_ne.
    + intros Hq. by eapply Hkeyed.
  - subst other. exists q.
    unfold serve, Api.cancel_job_endpoint, get_job, mbind, method_bind, bind.
    rewrite Hget, decide_True by done. done.
Qed.

Lemma serve_all_harmless job_id hs : ∀ q job,
  Forall (harmless job_id) hs →
  _lock q = false → jobs_get job_id q = Some job →
  Job.status job ≠ JobStatus.PENDING →
  ∃ q', serve_all hs q = Returns () q' ∧ _lock q' = false ∧
        jobs_get job_id q' = Some job ∧ (well_keyed q → well_keyed q').
Proof.
  induction hs as [|h hs IH]; intros q job Hhs Hfree Hget Hst.
  - by exists q.
  - apply Forall_cons in Hhs as [Hh Hhs].
    destruct (serve_harmless job_id h q job Hh Hfree Hget Hst)
      as (q1 & Hserve & Hfree1 & Hget1 & Hkeyed1).
    destruct (IH q1 job Hhs Hfree1 Hget1 Hst) as (q2 & Hall & Hfree2 & Hget2 & Hkeyed2).
    exists q2. cbn [serve_all]. unfold mbind, method_bind, bind.
    rewrite Hserve, Hall. repeat (split; [done|]). auto.
Qed.

(** Forwarding the events of a run to the job of the round, among harmless
    requests: it returns with the lock free; the job keeps its identity, its
    status and its completion fields, keeps the log entries it had and gets
    one stamped entry per log line of the run. *)
Lemma forward_settles job_id clock meanwhile es : ∀ q j k job,
  (∀ i, Forall (harmless job_id) (meanwhile i)) →
  _lock q = false → jobs_get job_id q = Some job →
  Job.status job ≠ JobStatus.PENDING →
  ∃ q' job' k',
    forward job_id clock meanwhile j k es q = Returns k' q' ∧
    _lock q' = false ∧ jobs_get job_id q' = Some job' ∧
    continues job job' ∧
    Job.status job' = Job.status job ∧
    Job.completed_at job' = Job.completed_at job ∧
    Job.output_url job' = Job.output_url job ∧
    (∀ msg, Log msg ∈ es → ∃ t, stamped t msg ∈ Job.logs job') ∧
    (well_keyed q → well_keyed q').
Proof.
  induction es as [|e es IH]; intros q j k job Hmean Hfree Hget Hst.
  - exists q, job, k. repeat (split; [done|]). split; [|done].
    intros msg Hin. by apply elem_of_nil in Hin.
  - cbn [forward]. unfold mbind, method_bind, bind.
    destruct (serve_all_harmless job_id (meanwhile j) q job (Hmean j) Hfree Hget Hst)
      as (q0 & -> & Hfree0 & Hget0 & Hkeyed0).
    destruct e as [msg|p|path].
    + rewrite (add_log_present _ _ job) by done.
      edestruct (IH (with_jobs q0 (Py.dict_set (jobs q0) job_id
                       (append_log (stamped (clock k) msg) job))) (S j) (S k))
        as (q' & job' & k' & -> & Hfree' & Hget' & Hcont & Hst' & Hat & Hurl & Hnew
            & Hkeyed');
        [done|done|apply jobs_get_with_jobs_eq|done|].
      exists q', job', k'. repeat (split; [done|]).
      split; [eapply continues_trans; [apply continues_append_log|done]|].
      repeat (split; [done|]). split.
      * intros msg' [[= ->]|Hin]%elem_of_cons; [|by apply Hnew].
        exists (clock k). destruct Hcont as (_ & _ & _ & Hpre).
        eapply elem_of_prefix; [|done]. simpl. apply elem_of_app. right. by left.
      * intros Hq. apply Hkeyed'. apply (update_well_keyed _ _ job); auto.
    + rewrite (set_progress_present _ _ job) by done.
      edestruct (IH (with_jobs q0 (Py.dict_set (jobs q0) job_id
                       (Job.setattr job (Job.kw_progress (Py.min p 100))))) (S j) k)
        as (q' & job' & k' & -> & Hfree' & Hget' & Hcont & Hst' & Hat & Hurl & Hnew
            & Hkeyed');
        [done|done|apply jobs_get_with_jobs_eq|done|].
      exists q', job', k'. repeat (split; [done|]).
      split.
      * intros msg' [[=]|Hin]%elem_of_cons. by apply Hnew.
      * intros Hq. apply Hkeyed'. apply (update_well_keyed _ _ job); auto.
    + destruct (IH q0 (S j) k job Hmean Hfree0 Hget0 Hst)
        as (q' & job' & k' & -> & Hfree' & Hget' & Hcont & Hst' & Hat & Hurl & Hnew
            & Hkeyed').
      exists q', job', k'. repeat (split; [done|]). split; [|auto].
      intros msg' [[=]|Hin]%elem_of_cons. by apply Hnew.
Qed.

Section Round.
Context `{Externals} (processor : VideoProcessor.t).

(** A round among harmless requests. *)
Lemma process_job_returns url_to_filepath clock meanwhile uuid8 job q :
  (∀ i, Forall (harmless (Job.id job)) (meanwhile i)) →
  _lock q = false → jobs_get (Job.id job) q = Some job →
  let run := export_of processor url_to_filepath uuid8 job in
  ∃ q' job',
    process_job processor url_to_filepath clock meanwhile uuid8 job q = Returns () q' ∧
    _lock q' = false ∧
    jobs_get (Job.id job) q' = Some job' ∧
    Job.id job' = Job.id job ∧
    is_Some (Job.completed_at job') ∧
    (∀ msg, Log msg ∈ events run → ∃ t, stamped t msg ∈ Job.logs job') ∧
    match outcome run with
    | Py.Ok url =>
        Job.status job' = JobStatus.COMPLETED ∧ Job.progress job' = 100%float ∧
        Job.output_url job' = Some url
    | Py.Raise e =>
        Job.status job' = JobStatus.FAILED ∧
        ∃ t, last (Job.logs job') = Some (stamped t ("Job failed: " +:+ e))
    end ∧
    (well_keyed q → well_keyed q').
Proof.
  intros Hmean Hfree Hget run. unfold process_job. fold run.
  unfold mbind, method_bind, bind.
  rewrite (update_job_present _ _ job) by done.
  erewrite add_log_present; [|done|apply jobs_get_with_jobs_eq].
  match goal with
  | |- context [forward ?i ?c ?m ?j ?k ?es ?q0] =>
      destruct (forward_settles i c m es q0 j k _ Hmean Hfree
                  (jobs_get_with_jobs_eq _ _ _))
        as (q1 & job1 & k1 & -> & Hfree1 & Hget1 & Hcont1 & Hst1 & Hat1 & Hurl1
            & Hnew1 & Hkeyed1); [done|]
  end.
  destruct (serve_all_harmless (Job.id job) (meanwhile (length (events run))) q1 job1
              (Hmean _) Hfree1 Hget1) as (q2 & -> & Hfree2 & Hget2 & Hkeyed2).
  { by rewrite Hst1. }
  destruct Hcont1 as (Hid1 & _).
  assert (well_keyed q → well_keyed q2) as Hkeyed.
  { intros Hq. apply Hkeyed2, Hkeyed1.
    eapply update_well_keyed; [apply jobs_get_with_jobs_eq|done|].
    by apply (update_well_keyed _ _ job). }
  destruct (outcome run) as [url|e].
  - unfold complete_job, mbind, method_bind, bind.
    rewrite (update_job_present _ _ job1) by done.
    erewrite add_log_present; [|done|apply jobs_get_with_jobs_eq].
    eexists _, _. split; [done|]. split; [done|].
    split; [apply jobs_get_with_jobs_eq|]. simpl.
    split; [done|]. split; [done|]. split; [|split; [done|]].
    + intros msg Hmsg. destruct (Hnew1 msg Hmsg) as [t Ht].
      exists t. apply elem_of_app. by left.
    + intros Hq.
      eapply update_well_keyed; [apply jobs_get_with_jobs_eq|done|].
      apply (update_well_keyed _ _ job1); auto.
  - unfold fail_job, mbind, method_bind, bind.
    rewrite (update_job_present _ _ job1) by done.
    erewrite add_log_present; [|done|apply jobs_get_with_jobs_eq].
    eexists _, _. split; [done|]. split; [done|].
    split; [apply jobs_get_with_jobs_eq|]. simpl.
    split; [done|]. split; [done|]. split; [|split].
    + intros msg Hmsg. destruct (Hnew1 msg Hmsg) as [t Ht].
      exists t. apply elem_of_app. by left.
    + split; [done|]. eexists. apply last_snoc.
    + intros Hq.
      eapply update_well_keyed; [apply jobs_get_with_jobs_eq|done|].
      apply (update_well_keyed _ _ job1); auto.
Qed.

(** X17. A round of the worker on a stored job, during which the service
    starts exports under other ids and refuses cancel requests for the job
    in progress, returns with the lock free and settles the job: the job ends
    COMPLETED at progress 100 with the output url when its export returns,
    and FAILED with the error as its last log entry when the export raises;
    in both cases its completion time is set and every line the export
    logged is in its log. *)
Theorem process_job_settles url_to_filepath clock meanwhile uuid8 job q :
  (∀ i, Forall (harmless (Job.id job)) (meanwhile i)) →
  _lock q = false → jobs_get (Job.id job) q = Some job →
  let run := export_of processor url_to_filepath uuid8 job in
  ∃ q' job',
    process_job processor url_to_filepath clock meanwhile uuid8 job q = Returns () q' ∧
    _lock q' = false ∧
    jobs_get (Job.id job) q' = Some job' ∧
    Job.id job' = Job.id job ∧
    is_Some (Job.completed_at job') ∧
    (∀ msg, Log msg ∈ events run → ∃ t, stamped t msg ∈ Job.logs job') ∧
    match outcome run with
    | Py.Ok url =>
        Job.status job' = JobStatus.COMPLETED ∧ Job.progress job' = 100%float ∧
        Job.output_url job' = Some url
    | Py.Raise e =>
        Job.status job' = JobStatus.FAILED ∧
        ∃ t, last (Job.logs job') = Some (stamped t ("Job failed: " +:+ e))
    end.
Proof.
  intros Hmean Hfree Hget run.
  destruct (process_job_returns url_to_filepath clock meanwhile uuid8 job q
              Hmean Hfree Hget)
    as (q' & job' & Hrun & Hfree' & Hget' & Hid & Hat & Hlogs & Hout & _).
  by exists q', job'.
Qed.

(** X19. One turn of the worker loop.  In a store whose jobs are stored under
    their own ids and whose lock is free, a job that [get_next_job] returns
    is PENDING, and the round that follows, among requests that start
    exports under other ids or ask to cancel the job in progress, returns and
    leaves the job COMPLETED or FAILED with its completion time set; the
    store stays well keyed with a free lock, so the next turn starts from the
    same conditions. *)
Theorem worker_turn_settles url_to_filepath clock meanwhile uuid8 q job q1 :
  well_keyed q → _lock q = false →
  get_next_job q = Returns (Some job) q1 →
  (∀ i, Forall (harmless (Job.id job)) (meanwhile i)) →
  Job.status job = JobStatus.PENDING ∧
  ∃ q2 job',
    process_job processor url_to_filepath clock meanwhile uuid8 job q1 = Returns () q2 ∧
    jobs_get (Job.id job) q2 = Some job' ∧
    (Job.status job' = JobStatus.COMPLETED ∨ Job.status job' = JobStatus.FAILED) ∧
    is_Some (Job.completed_at job') ∧
    well_keyed q2 ∧ _lock q2 = false.
Proof.
  intros Hq Hfree Hnext Hmean.
  destruct (get_next_job_returns q Hfree) as (found & rest & Hret & Hfound).
  rewrite Hnext in Hret. injection Hret as <- ->.
  destruct Hfound as (skipped & job_id & Hqueue & Hget & Hpending & _).
  split; [done|].
  pose proof (Hq _ _ Hget) as Hid. subst job_id.
  destruct (process_job_returns url_to_filepath clock meanwhile uuid8 job
              (with_queue q rest) Hmean Hfree Hget)
    as (q2 & job' & Hrun & Hfree2 & Hget2 & Hid2 & Hat & _ & Hout & Hkeyed).
  exists q2, job'. repeat (split; [done|]).
  split; [destruct (outcome _); [left|right]; apply Hout|].
  split; [done|]. split; [|done]. apply Hkeyed.
  intros other job2 Hother. by apply Hq.
Qed.

(** X27. A round does not survive a cancel request for a PENDING job: when
    such a request is the first one served while the export runs, the
    request blocks with the lock held, and with it the round; the job of the
    round stays PROCESSING and is never completed or failed. *)
Theorem process_job_blocked_by_cancel url_to_filepath clock meanwhile uuid8 job q
    other_id other now now_log rest :
  _lock q = false → jobs_get (Job.id job) q = Some job →
  other_id ≠ Job.id job → jobs_get other_id q = Some other →
  Job.status other = JobStatus.PENDING →
  meanwhile 0%nat = Cancel other_id now now_log :: rest →
  ∃ q' job',
    process_job processor url_to_filepath clock meanwhile uuid8 job q = Blocked q' ∧
    _lock q' = true ∧
    jobs_get (Job.id job) q' = Some job' ∧
    Job.status job' = JobStatus.PROCESSING ∧
    Job.completed_at job' = Job.completed_at job ∧
    Job.output_url job' = Job.output_url job.
Proof.
  intros Hfree Hget Hne Hother Hpending Hmean.
  unfold process_job, mbind, method_bind, bind.
  rewrite (update_job_present _ _ job) by done.
  erewrite add_log_present; [|done|apply jobs_get_with_jobs_eq].
  set (q0 := with_jobs _ _).
  assert (_lock q0 = false) as Hfree0 by done.
  assert (jobs_get other_id q0 = Some other) as Hother0.
  { subst q0. rewrite jobs_get_with_jobs_ne by done.
    by rewrite jobs_get_with_jobs_ne by done. }
  assert (∃ q', serve_all (meanwhile 0%nat) q0 = Blocked q' ∧ _lock q' = true ∧
                jobs_get (Job.id job) q' = jobs_get (Job.id job) q0)
    as (q' & Hserve & Hheld & Hsame).
  { rewrite Hmean. cbn [serve_all serve].
    unfold Api.cancel_job_endpoint, get_job, mbind, method_bind, bind.
    rewrite Hother0, decide_False by (by intros Hst; apply Hst).
    rewrite (cancel_job_pending q0 other_id other) by done.
    eexists. split; [done|]. split; [done|].
    unfold jobs_get. simpl. by rewrite dict_get_set_ne. }
  assert (jobs_get (Job.id job) q0 =
          Some (append_log (stamped (clock 0%nat) "Starting processing...")
                  (foldl Job.setattr job [Job.kw_status JobStatus.PROCESSING])))
    as Hjob0 by apply jobs_get_with_jobs_eq.
  exists q'. eexists. split; [|split; [done|]; split; [by rewrite Hsame|done]].
  destruct (events (export_of processor url_to_filepath uuid8 job)) as [|e es].
  - cbn [forward length]. unfold mret, method_ret, ret. by rewrite Hserve.
  - cbn [forward]. unfold mbind, method_bind, bind. by rewrite Hserve.
Qed.

End Round.

Lemma process_job_settles_witness :
  let run := export_of (H := Sample.externals) Sample.processor Sample.resolver
               "0123abcd" Sample.overlay_job in
  let q := Sample.store Sample.overlay_job ["j1"%string] in
  let meanwhile := λ i : nat,
    match i with
    | O => [StartExport Sample.request "j2" 43200500000 43200500001;
            Cancel "j1" 43200600000 43200600001]
    | _ => []
    end in
  ∃ q' job',
    process_job (H := Sample.externals) Sample.processor Sample.resolver
      Sample.clock meanwhile "0123abcd" Sample.overlay_job q = Returns () q' ∧
    _lock q' = false ∧
    jobs_get (Job.id Sample.overlay_job) q' = Some job' ∧
    Job.id job' = Job.id Sample.overlay_job ∧
    is_Some (Job.completed_at job') ∧
    (∀ msg, Log msg ∈ events run → ∃ t, stamped t msg ∈ Job.logs job') ∧
    match outcome run with
    | Py.Ok url =>
        Job.status job' = JobStatus.COMPLETED ∧ Job.progress job' = 100%float ∧
        Job.output_url job' = Some url
    | Py.Raise e =>
        Job.status job' = JobStatus.FAILED ∧
        ∃ t, last (Job.logs job') = Some (stamped t ("Job failed: " +:+ e))
    end.
Proof.
  apply (process_job_settles (H := Sample.externals) Sample.processor Sample.resolver
           Sample.clock
           (λ i : nat,
              match i with
              | O => [StartExport Sample.request "j2" 43200500000 43200500001;
                      Cancel "j1" 43200600000 43200600001]
              | _ => []
              end)
           "0123abcd" Sample.overlay_job
           (Sample.store Sample.overlay_job ["j1"%string])); [|reflexivity..].
  intros [|i]; [|constructor].
  repeat constructor. discriminate.
Defined.

Lemma worker_turn_settles_witness :
  let q := Sample.store Sample.overlay_job ["j1"%string] in
  let meanwhile := λ i : nat,
    match i with
    | O => [StartExport Sample.request "j2" 43200500000 43200500001]
    | _ => []
    end in
  Job.status Sample.overlay_job = JobStatus.PENDING ∧
  ∃ q2 job',
    process_job (H := Sample.externals) Sample.processor Sample.resolver
      Sample.clock meanwhile "0123abcd" Sample.overlay_job (with_queue q [])
      = Returns () q2 ∧
    jobs_get (Job.id Sample.overlay_job) q2 = Some job' ∧
    (Job.status job' = JobStatus.COMPLETED ∨ Job.status job' = JobStatus.FAILED) ∧
    is_Some (Job.completed_at job') ∧
    well_keyed q2 ∧ _lock q2 = false.
Proof.
  apply (worker_turn_settles (H := Sample.externals) Sample.processor Sample.resolver
           Sample.clock
           (λ i : nat,
              match i with
              | O => [StartExport Sample.request "j2" 43200500000 43200500001]
              | _ => []
              end)
           "0123abcd" (Sample.store Sample.overlay_job ["j1"%string])
           Sample.overlay_job).
  - intros job_id job. unfold jobs_get. simpl.
    destruct (decide ("j1"%string = job_id)) as [<-|]; [|done]. by intros [= <-].
  - reflexivity.
  - reflexivity.
  - intros [|i]; [|constructor]. repeat constructor. discriminate.
Defined.

Lemma process_job_blocked_by_cancel_witness :
  let q := state_of (create_job Sample.request "j2" 43199500000 43199500001
                       (Sample.store Sample.overlay_job [])) in
  let meanwhile := λ i : nat,
    match i with
    | O => [Cancel "j2" 43200500000 43200500001]
    | _ => []
    end in
  ∃ q' job',
    process_job (H := Sample.externals) Sample.processor Sample.resolver
      Sample.clock meanwhile "0123abcd" Sample.overlay_job q = Blocked q' ∧
    _lock q' = true ∧
    jobs_get (Job.id Sample.overlay_job) q' = Some job' ∧
    Job.status job' = JobStatus.PROCESSING ∧
    Job.completed_at job' = Job.completed_at Sample.overlay_job ∧
    Job.output_url job' = Job.output_url Sample.overlay_job.
Proof.
  eapply (process_job_blocked_by_cancel (H := Sample.externals) Sample.processor
            Sample.resolver Sample.clock
            (λ i : nat,
               match i with
               | O => [Cancel "j2" 43200500000 43200500001]
               | _ => []
               end)
            "0123abcd" Sample.overlay_job _ "j2");
    [reflexivity|reflexivity|discriminate|reflexivity|reflexivity|reflexivity].
Defined.

End RoundFacts.

(** ** An overlay whose image cannot be fetched *)

Module WorkerFacts.
Import JobQueue VideoProcessor Worker Observe Stages Staging Calls.
Import JobQueueFacts ProcessorFacts StoreFacts RoundFacts.

Ltac run_m :=
  cbn [call_log log_event progress_event emit lift mbind M_bind try_except raise
       events outcome fst snd mret M_ret app Py.result_bind Py.result_ret].

Section OverlayFailure.
Context `{Externals} (processor : VideoProcessor.t).

(** A clip without overlays is processed when its source exists and the
    media calls on it return: the result is the source loaded, trimmed and
    with its effects applied. *)
Lemma process_clip_plain c aspect_ratio quality resolve
    (loaded trimmed sped faded_in faded_out : Clip) :
  ClipRequest.text_overlays c = [] → ClipRequest.image_overlays c = [] →
  os_path_exists (resolve (ClipRequest.video_url c)) = true →
  VideoFileClip (resolve (ClipRequest.video_url c)) = Py.Ok loaded →
  subclip loaded (ClipRequest.start_time c) (ClipRequest.end_time c) = Py.Ok trimmed →
  (if negb (ClipEffects.speed (ClipRequest.effects c) =? 1)%float
   then speedx trimmed (ClipEffects.speed (ClipRequest.effects c))
   else Py.Ok trimmed) = Py.Ok sped →
  (if (0 <? ClipEffects.fade_in (ClipRequest.effects c))%float
   then fadein sped (ClipEffects.fade_in (ClipRequest.effects c))
   else Py.Ok sped) = Py.Ok faded_in →
  (if (0 <? ClipEffects.fade_out (ClipRequest.effects c))%float
   then fadeout faded_in (ClipEffects.fade_out (ClipRequest.effects c))
   else Py.Ok faded_in) = Py.Ok faded_out →
  outcome (process_clip processor c aspect_ratio quality (Some log_event)
             (Some resolve)) = Py.Ok faded_out.
Proof.
  intros Htext Himg Hex Hload Htrim Hspeed Hfin Hfout.
  unfold process_clip. rewrite Htext, Himg. run_m.
  rewrite Hex. run_m. rewrite Hload. run_m. rewrite Htrim. run_m.
  revert Hspeed. destruct (negb _); intros Hspeed; run_m;
    [rewrite Hspeed|injection Hspeed as <-]; run_m;
    (revert Hfin; destruct (0 <? ClipEffects.fade_in _)%float; intros Hfin; run_m;
     [rewrite Hfin|injection Hfin as <-]); run_m;
    (revert Hfout; destruct (0 <? ClipEffects.fade_out _)%float; intros Hfout; run_m;
     [rewrite Hfout|injection Hfout as <-]); run_m; reflexivity.
Qed.


(** C4. Take an export of one clip that has no text overlay and one image
    overlay whose remote fetch fails, run by the worker for a stored job
    while the service goes on serving requests that leave the round alone.
    Let the source of the clip exist, and let the calls of the media library
    on it return: loading, trimming, the effects, the resizing and
    compositing of the aspect-ratio normalization for valid settings, the
    audio stage, the encoding and the closing of the clips.  Then the fetch
    failure stays in the clip stage: [process_clip] returns the clip it
    returns without the overlay, having logged three lines more, the last one
    the warning.  The export returns the download url of the artifact, with
    the warning logged and every checkpoint reported, as the export of the
    clip without the overlay does.  The round of the worker returns and
    leaves the job COMPLETED at progress 100 with that url and with the
    warning in its log. *)
Theorem failed_image_fetch_does_not_fail_job (c : ClipRequest.t)
    (overlay : ImageOverlay.t) (e : string) (job : Job.t)
    (audio_tracks : list AudioTrackRequest.t) (settings : ExportSettings.t)
    (url_to_filepath : string → string) (clock : nat → Py.datetime)
    (meanwhile : nat → list handled) (uuid8 : string)
    (loaded trimmed sped faded_in faded_out resized mixed : Clip) (size : Z * Z) :
  Job.request job = Some {| ExportRequest.clips := [c];
                            ExportRequest.audio_tracks := audio_tracks;
                            ExportRequest.settings := settings |} →
  ClipRequest.text_overlays c = [] →
  ClipRequest.image_overlays c = [overlay] →
  requests_get_to_file (temp_dir processor) (ImageOverlay.image_url overlay)
    = Py.Raise e →
  os_path_exists (url_to_filepath (ClipRequest.video_url c)) = true →
  VideoFileClip (url_to_filepath (ClipRequest.video_url c)) = Py.Ok loaded →
  subclip loaded (ClipRequest.start_time c) (ClipRequest.end_time c) = Py.Ok trimmed →
  (if negb (ClipEffects.speed (ClipRequest.effects c) =? 1)%float
   then speedx trimmed (ClipEffects.speed (ClipRequest.effects c))
   else Py.Ok trimmed) = Py.Ok sped →
  (if (0 <? ClipEffects.fade_in (ClipRequest.effects c))%float
   then fadein sped (ClipEffects.fade_in (ClipRequest.effects c))
   else Py.Ok sped) = Py.Ok faded_in →
  (if (0 <? ClipEffects.fade_out (ClipRequest.effects c))%float
   then fadeout faded_in (ClipEffects.fade_out (ClipRequest.effects c))
   else Py.Ok faded_in) = Py.Ok faded_out →
  ExportSettings.aspect_ratio settings ∈ ExportSettings.aspect_ratios →
  ExportSettings.quality settings ∈ ExportSettings.qualities →
  clip_w faded_out ≠ 0 → clip_h faded_out ≠ 0 →
  truncated_size
    (target_size (ExportSettings.aspect_ratio settings) (ExportSettings.quality settings)).1
    (target_size (ExportSettings.aspect_ratio settings) (ExportSettings.quality settings)).2
    (clip_w faded_out) (clip_h faded_out) = Py.Ok size →
  place faded_out
    (target_size (ExportSettings.aspect_ratio settings) (ExportSettings.quality settings))
    size
    (content_pos
       (target_size (ExportSettings.aspect_ratio settings)
          (ExportSettings.quality settings)).1
       (target_size (ExportSettings.aspect_ratio settings)
          (ExportSettings.quality settings)).2 size.1 size.2)
    (preset_fps (ExportSettings.quality settings)) = Py.Ok resized →
  outcome (audio_stage (Some url_to_filepath) audio_tracks resized) = Py.Ok mixed →
  encoded processor settings mixed uuid8 = Py.Ok () →
  cleaned_up [faded_out] mixed = Py.Ok () →
  (∀ i, Forall (harmless (Job.id job)) (meanwhile i)) →
  let run := process_export processor job [c] audio_tracks settings
               log_event progress_event (Some url_to_filepath) uuid8 in
  let base := process_export processor job [without_image_overlays c] audio_tracks
                settings log_event progress_event (Some url_to_filepath) uuid8 in
  let clip_run := process_clip processor c (ExportSettings.aspect_ratio settings)
                    (ExportSettings.quality settings) (Some log_event)
                    (Some url_to_filepath) in
  let clip_base := process_clip processor (without_image_overlays c)
                     (ExportSettings.aspect_ratio settings)
                     (ExportSettings.quality settings) (Some log_event)
                     (Some url_to_filepath) in
  let warning := ("Warning: Failed to add image overlay: "
                  +:+ download_error (ImageOverlay.image_url overlay) e)%string in
  let url := ("/api/download/" +:+ "export_" +:+ uuid8 +:+ "."
              +:+ ExportSettings.format settings)%string in
  clip_run = (events clip_base
                ++ dropped_overlay_logs (ImageOverlay.image_url overlay) e,
              Py.Ok faded_out) ∧
  outcome clip_base = Py.Ok faded_out ∧
  same_but_logs run base ∧
  outcome run = Py.Ok url ∧
  Log warning ∈ events run ∧
  milestones (events run) =
    [Progress 50; Progress 60; Progress 70; Progress 80;
     Written (output_path processor settings uuid8); Progress 100] ∧
  (∀ q, _lock q = false → jobs_get (Job.id job) q = Some job →
     ∃ q' job',
       process_job processor url_to_filepath clock meanwhile uuid8 job q
         = Returns () q' ∧
       jobs_get (Job.id job) q' = Some job' ∧
       Job.status job' = JobStatus.COMPLETED ∧
       Job.progress job' = 100%float ∧
       Job.output_url job' = Some url ∧
       ∃ t, stamped t warning ∈ Job.logs job').
Proof.
  intros Hreq Htext Himg Hfetch Hex Hload Htrim Hspeed Hfin Hfout Har Hq Hw Hh
    Hsize Hplace Haudio Hencoded Hclean Hmean run base clip_run clip_base warning url.
  assert (outcome clip_base = Py.Ok faded_out) as Hbase.
  { by apply (process_clip_plain (without_image_overlays c)
                (ExportSettings.aspect_ratio settings) (ExportSettings.quality settings)
                url_to_filepath loaded trimmed sped faded_in faded_out). }
  pose proof (process_clip_drops_failed_overlay processor c overlay e
                (ExportSettings.aspect_ratio settings) (ExportSettings.quality settings)
                (Some url_to_filepath) Htext Himg Hfetch) as Hext.
  fold clip_run clip_base in Hext.
  assert (same_but_logs run base) as Hsame.
  { apply process_export_single_same_but_logs; [|done].
    eapply extends_same_but_logs; [|done]. by repeat constructor. }
  unfold extends in Hext. rewrite Hbase in Hext.
  assert (resize_to_aspect_ratio faded_out (ExportSettings.aspect_ratio settings)
            (ExportSettings.quality settings) = Py.Ok resized) as Hresize.
  { rewrite resize_to_aspect_ratio_places by done. by rewrite Hsize. }
  destruct (process_export_stages processor job [c] audio_tracks settings
              (Some url_to_filepath) uuid8) as [_ Hstages].
  cbn [clips_outcome] in Hstages. unfold clip_outcome in Hstages.
  fold clip_run in Hstages. rewrite Hext in Hstages.
  cbn [outcome snd concatenated length] in Hstages.
  rewrite Hresize, Haudio, Hencoded, Hclean in Hstages.
  destruct Hstages as [Hms Hout]. fold run in Hms, Hout.
  assert (Log warning ∈ events run) as Hwarn.
  { apply process_export_single_logs. fold clip_run. rewrite Hext.
    cbn [events fst]. apply elem_of_app. right.
    unfold dropped_overlay_logs. do 2 right. left. }
  repeat (split; [done|]).
  intros q Hfree Hget.
  destruct (process_job_returns processor url_to_filepath clock meanwhile uuid8 job q
              Hmean Hfree Hget)
    as (q' & job' & Hround & _ & Hget' & _ & _ & Hlogs & Hdone & _).
  unfold export_of in Hlogs, Hdone. rewrite Hreq in Hlogs, Hdone.
  cbn [ExportRequest.clips ExportRequest.audio_tracks ExportRequest.settings]
    in Hlogs, Hdone.
  fold run in Hlogs, Hdone. rewrite Hout in Hdone.
  destruct Hdone as (Hst & Hprog & Hurl).
  exists q', job'. repeat (split; [done|]). by apply Hlogs.
Qed.

End OverlayFailure.

Lemma failed_image_fetch_does_not_fail_job_witness :
  let c := Sample.clip [Sample.overlay] in
  let meanwhile := λ i : nat,
    match i with
    | O => [StartExport Sample.request "j2" 43200500000 43200500001]
    | _ => []
    end in
  let run := Sample.export [c] [] in
  let base := Sample.export [without_image_overlays c] [] in
  let clip_run := process_clip (H := Sample.externals) Sample.processor c
                    "9:16" "optimised" (Some log_event) (Some Sample.resolver) in
  let clip_base := process_clip (H := Sample.externals) Sample.processor
                     (without_image_overlays c) "9:16" "optimised" (Some log_event)
                     (Some Sample.resolver) in
  let warning := ("Warning: Failed to add image overlay: "
                  +:+ download_error "https://example.org/logo.png" "404 Client Error")%string in
  let url := "/api/download/export_0123abcd.mp4"%string in
  clip_run = (events clip_base
                ++ dropped_overlay_logs "https://example.org/logo.png" "404 Client Error",
              Py.Ok (1280, 720)) ∧
  outcome clip_base = Py.Ok (1280, 720) ∧
  same_but_logs run base ∧
  outcome run = Py.Ok url ∧
  Log warning ∈ events run ∧
  milestones (events run) =
    [Progress 50; Progress 60; Progress 70; Progress 80;
     Written "/exports/export_0123abcd.mp4"; Progress 100] ∧
  (∀ q, _lock q = false → jobs_get "j1" q = Some Sample.overlay_job →
     ∃ q' job',
       process_job (H := Sample.externals) Sample.processor Sample.resolver
         Sample.clock meanwhile "0123abcd" Sample.overlay_job q = Returns () q' ∧
       jobs_get "j1" q' = Some job' ∧
       Job.status job' = JobStatus.COMPLETED ∧
       Job.progress job' = 100%float ∧
       Job.output_url job' = Some url ∧
       ∃ t, stamped t warning ∈ Job.logs job').
Proof.
  apply (failed_image_fetch_does_not_fail_job (H := Sample.externals) Sample.processor
           (Sample.clip [Sample.overlay]) Sample.overlay "404 Client Error"
           Sample.overlay_job [] Sample.settings Sample.resolver Sample.clock
           (λ i : nat,
              match i with
              | O => [StartExport Sample.request "j2" 43200500000 43200500001]
              | _ => []
              end)
           "0123abcd" (1280, 720) (1280, 720) (1280, 720) (1280, 720) (1280, 720)
           (720, 1280) (720, 1280) (720, 405));
    try reflexivity; try (repeat constructor; fail); try discriminate.
  intros [|i]; [|constructor]. repeat constructor. discriminate.
Defined.

(** The sample round, run: while the export of the clip with the failing
    overlay runs, another export is started; the job ends COMPLETED at
    progress 100 with its output url and the warning in its log, and the
    other job waits in the queue. *)
Example overlay_job_completes :
  match process_job (H := Sample.externals) Sample.processor Sample.resolver
          Sample.clock
          (λ i : nat,
             match i with
             | O => [StartExport Sample.request "j2" 43200500000 43200500001]
             | _ => []
             end)
          "0123abcd" Sample.overlay_job (Sample.store Sample.overlay_job []) with
  | Returns _ q' =>
      ((λ j, (Job.status j, Job.progress j, Job.output_url j,
              bool_decide
                (stamped (Sample.clock 19)
                   ("Warning: Failed to add image overlay: "
                    +:+ download_error "https://example.org/logo.png" "404 Client Error")
                 ∈ Job.logs j))) <$> jobs_get "j1" q',
       queue q')
  | Blocked _ => (None, [])
  end = (Some (JobStatus.COMPLETED, 100%float,
               Some "/api/download/export_0123abcd.mp4"%string, true),
         ["j2"%string]).
Proof. vm_compute. reflexivity. Qed.

End WorkerFacts.

(** ** Paths, thumbnails and the edges of the resize *)

Module ToolFacts.
Import VideoProcessor VideoTools Observe Stages ProcessorFacts.

(** *** The frame of a thumbnail *)

Local Ltac order_cases x y :=
  destruct x as [[]|[]| |[] ? ?], y as [[]|[]| |[] ? ?];
  simpl; try congruence;
  repeat match goal with
    | |- context [Z.compare ?a ?b] => destruct (Z.compare_spec a b)
    | |- context [Pos.compare_cont Eq ?a ?b] =>
        change (Pos.compare_cont Eq a b) with (Pos.compare a b);
        destruct (Pos.compare_spec a b)
    end;
  simpl; try congruence; try lia.

Lemma SFleb_ltb_trans x y z :
  SFleb x y = true → SFltb y z = true → SFltb x z = true.
Proof.
  unfold SFltb, SFleb. destruct z as [[]|[]| |[] ? ?]; order_cases x y.
Qed.

Lemma SFltb_refl_l x y : SFltb x y = true → SFeqb x x = true.
Proof.
  unfold SFltb, SFeqb. destruct x as [[]|[]| |[] ? ?], y as [[]|[]| |[] ? ?];
    simpl; try congruence; intros _;
    rewrite ?Z.compare_refl, ?Pos.compare_cont_refl; done.
Qed.

Lemma SFleb_refl_r x y : SFleb x y = true → SFeqb y y = true.
Proof.
  unfold SFleb, SFeqb. destruct x as [[]|[]| |[] ? ?], y as [[]|[]| |[] ? ?];
    simpl; try congruence; intros _;
    rewrite ?Z.compare_refl, ?Pos.compare_cont_refl; done.
Qed.

Lemma leb_ltb_trans (x y z : float) :
  (x <=? y)%float = true → (y <? z)%float = true → (x <? z)%float = true.
Proof. rewrite !FloatAxioms.ltb_spec, FloatAxioms.leb_spec. apply SFleb_ltb_trans. Qed.

Lemma ltb_refl_l (x y : float) : (x <? y)%float = true → (x =? x)%float = true.
Proof. rewrite FloatAxioms.eqb_spec, FloatAxioms.ltb_spec. apply SFltb_refl_l. Qed.

Lemma leb_refl_r (x y : float) : (x <=? y)%float = true → (y =? y)%float = true.
Proof. rewrite FloatAxioms.eqb_spec, FloatAxioms.leb_spec. apply SFleb_refl_r. Qed.

Lemma ltb_irrefl (x : float) : (x <? x)%float = false.
Proof.
  destruct (x <? x)%float eqn:E; [|done].
  pose proof (FloatOrder.ltb_asym _ _ E). congruence.
Qed.

(** X20. The time at which [generate_thumbnail] takes its frame is never
    before the start of the video.  For a video of at least 0.1 s and a
    requested time that is a number, it is not after duration - 0.1; a
    requested time between 0 and duration - 0.1 is used as it is; and for a
    video shorter than 0.1 s the frame is taken at 0. *)
Theorem frame_time_within (time duration : float) :
  (frame_time time duration <? 0)%float = false ∧
  ((time =? time)%float = true → (0 <=? duration - tenth)%float = true →
   (frame_time time duration <=? duration - tenth)%float = true) ∧
  ((0 <=? time)%float = true → (time <=? duration - tenth)%float = true →
   frame_time time duration = time) ∧
  ((time =? time)%float = true → (duration - tenth <? 0)%float = true →
   frame_time time duration = 0%float).
Proof.
  unfold frame_time, PyMore.max, Py.min.
  generalize (duration - tenth)%float. intros m.
  split; [|split; [|split]].
  - destruct (m <? time)%float.
    + destruct (m <? 0)%float eqn:E; [done|exact E].
    + destruct (time <? 0)%float eqn:E; [done|exact E].
  - intros Htime Hm. pose proof (leb_refl_r _ _ Hm) as Hnum.
    destruct (m <? time)%float eqn:E1.
    + destruct (m <? 0)%float eqn:E2; [done|].
      apply FloatOrder.leb_total; [done..|apply ltb_irrefl].
    + destruct (time <? 0)%float eqn:E2; [done|].
      by apply FloatOrder.leb_total.
  - intros H0 Hle. rewrite (FloatOrder.leb_ltb_false _ _ Hle).
    by rewrite (FloatOrder.leb_ltb_false _ _ H0).
  - intros Htime Hm.
    destruct (m <? time)%float eqn:E1; [by rewrite Hm|].
    assert ((time <=? m)%float = true) as Hle.
    { apply FloatOrder.leb_total; [done| |done]. by eapply ltb_refl_l. }
    by rewrite (leb_ltb_trans _ _ _ Hle Hm).
Qed.

Section Thumbnail.
Context `{Frames} (self : VideoProcessor.t).

(** X21. A thumbnail that is returned was saved, in a 320x180 box, under the
    path returned: the given output path or, without one, thumb_<uuid8>.jpg
    in the temp directory; its frame was read at a time that is not before
    the start of the video, and the clip was closed.  Every failure on the
    way is raised as "Failed to generate thumbnail: " followed by the error. *)
Theorem generate_thumbnail_outcomes video_path time output_path uuid8 :
  match generate_thumbnail self video_path time output_path uuid8 with
  | Py.Ok path =>
      path = default (Py.os_path_join (temp_dir self) ("thumb_" +:+ uuid8 +:+ ".jpg"))
               output_path ∧
      ∃ clip frame t,
        VideoFileClip video_path = Py.Ok clip ∧
        t = frame_time time (clip_duration clip) ∧ (t <? 0)%float = false ∧
        get_frame clip t = Py.Ok frame ∧
        save_thumbnail frame (320, 180) path = Py.Ok () ∧
        close clip = Py.Ok ()
  | Py.Raise e => ∃ e', e = ("Failed to generate thumbnail: " +:+ e')%string
  end.
Proof.
  unfold generate_thumbnail.
  destruct (VideoFileClip video_path) as [clip|e] eqn:Hclip; simpl; [|by eexists].
  destruct (get_frame clip _) as [frame|e] eqn:Hframe; simpl; [|by eexists].
  destruct (save_thumbnail frame _ _) as [[]|e] eqn:Hsave; simpl; [|by eexists].
  destruct (close clip) as [[]|e] eqn:Hclose; simpl; [|by eexists].
  split; [by destruct output_path|].
  exists clip, frame, (frame_time time (clip_duration clip)).
  split; [done|]. split; [done|]. split; [apply frame_time_within|].
  split; [done|]. split; [|done].
  by destruct output_path.
Qed.

End Thumbnail.

(** *** Path resolution *)

Lemma prefix_app_l (a b : string) : String.prefix a (a +:+ b) = true.
Proof.
  induction a as [|c a IH]; simpl; [by destruct b|].
  by destruct (Ascii.ascii_dec c c).
Qed.

Lemma prefix_no_slash (old s : string) :
  String.prefix old s = true → PyMore.no_slash s = true → PyMore.no_slash old = true.
Proof.
  revert s. induction old as [|c old IH]; intros [|c' s]; simpl; try done.
  destruct (Ascii.ascii_dec c c') as [->|]; [|done].
  intros Hpre [Hc Hs]%andb_true_iff. rewrite Hc. simpl. by eapply IH.
Qed.

Lemma replace_from_skip old new pre : ∀ s,
  Py.replace_from old new (String.length pre) (pre +:+ s) = Py.replace_from old new 0 s.
Proof. induction pre as [|c pre IH]; intros s; simpl; [done|apply IH]. Qed.

(** Nothing is replaced in a text in which [old] cannot occur. *)
Lemma replace_from_no_slash old new : ∀ s,
  PyMore.no_slash old = false → PyMore.no_slash s = true →
  Py.replace_from old new 0 s = s.
Proof.
  intros s Hold. induction s as [|c s IH]; [done|]. intros Hs.
  cbn [Py.replace_from].
  destruct (String.prefix old (String c s)) eqn:Hpre.
  - pose proof (prefix_no_slash _ _ Hpre Hs). congruence.
  - simpl in Hs. apply andb_true_iff in Hs as [_ Hs]. by rewrite IH.
Qed.

(** The static prefix is cut off the url of a plain file name. *)
Lemma replace_static old name :
  old ≠ EmptyString → PyMore.no_slash old = false → PyMore.no_slash name = true →
  Py.replace (old +:+ name) old "" = name.
Proof.
  intros Hne Hold Hname. unfold Py.replace.
  destruct old as [|c old']; [done|].
  change (String c old' +:+ name) with (String c (old' +:+ name)).
  cbn [Py.replace_from].
  change (String c (old' +:+ name)) with (String c old' +:+ name).
  rewrite prefix_app_l. cbn [String.length Nat.pred].
  rewrite replace_from_skip. simpl. by apply replace_from_no_slash.
Qed.

Lemma no_slash_prefix_slash name :
  PyMore.no_slash name = true → String.prefix "/" name = false.
Proof.
  destruct name as [|c name]; [done|]. cbn [PyMore.no_slash String.prefix].
  intros [Hc _]%andb_true_iff.
  match goal with
  | |- context [Ascii.ascii_dec ?a c] => destruct (Ascii.ascii_dec a c) as [<-|]; [|done]
  end.
  by vm_compute in Hc.
Qed.

Lemma no_slash_rev_app s1 : ∀ s2,
  PyMore.no_slash (String.rev_app s1 s2) = PyMore.no_slash s1 && PyMore.no_slash s2.
Proof.
  induction s1 as [|c s1 IH]; intros s2; simpl; [done|].
  rewrite IH. simpl. destruct (bool_decide _), (PyMore.no_slash s1); done.
Qed.

Lemma no_slash_basename_from s : ∀ acc,
  PyMore.no_slash acc = true → PyMore.no_slash (PyMore.basename_from acc s) = true.
Proof.
  induction s as [|c s IH]; intros acc Hacc; simpl.
  - unfold String.rev. by rewrite no_slash_rev_app, Hacc.
  - case_bool_decide as Hc; apply IH; [done|]. simpl.
    by rewrite bool_decide_false, Hacc.
Qed.

(** The base name of a path has no "/" in it. *)
Lemma no_slash_basename p : PyMore.no_slash (PyMore.os_path_basename p) = true.
Proof. by apply no_slash_basename_from. Qed.

Lemma prefix_app_inv (a b s : string) :
  String.prefix (a +:+ b) s = true → String.prefix a s = true.
Proof.
  revert s. induction a as [|c a IH]; intros [|c' s]; simpl; try done.
  destruct (Ascii.ascii_dec c c'); [apply IH|done].
Qed.

Lemma startswith_slash_inv (s : string) :
  Py.startswith s "/" = true → ∃ s', s = String PyMore.slash s'.
Proof.
  unfold Py.startswith. destruct s as [|c s]; [done|]. cbn [String.prefix].
  match goal with
  | |- context [Ascii.ascii_dec ?a c] => destruct (Ascii.ascii_dec a c) as [<-|]; [|done]
  end.
  by exists s.
Qed.

Section Resolve.
Context (UPLOADS_DIR EXPORTS_DIR TEMP_DIR : string) (urlparse_path : string → string).

Local Ltac not_http url :=
  unfold Api.url_to_filepath; rewrite bool_decide_false by done;
  assert (Py.startswith url "http://" = false) as -> by done;
  assert (Py.startswith url "https://" = false) as -> by done;
  cbn [orb].

(** Joining a directory and a name without "/" puts the name after the
    directory. *)
Lemma os_path_join_entry dir name :
  PyMore.no_slash name = true →
  Py.os_path_join dir name = PyMore.entry_path dir name.
Proof.
  intros Hname. unfold Py.os_path_join, PyMore.entry_path.
  rewrite no_slash_prefix_slash by done.
  by destruct (_ || _).
Qed.

(** X22. The static url of a name without "/" resolves to the join of the
    directory the url names (uploads, exports or temp) and that name, which
    is the directory, a "/" unless the directory ends with one, and the name
    as it is.  The name is not looked at beyond that: for the name ".." the
    result is the path "<directory>/..". *)
Theorem url_to_filepath_static_file name :
  PyMore.no_slash name = true →
  (Api.url_to_filepath UPLOADS_DIR EXPORTS_DIR TEMP_DIR urlparse_path) ("/static/uploads/" +:+ name) = Py.os_path_join UPLOADS_DIR name ∧
  (Api.url_to_filepath UPLOADS_DIR EXPORTS_DIR TEMP_DIR urlparse_path) ("/static/exports/" +:+ name) = Py.os_path_join EXPORTS_DIR name ∧
  (Api.url_to_filepath UPLOADS_DIR EXPORTS_DIR TEMP_DIR urlparse_path) ("/static/temp/" +:+ name) = Py.os_path_join TEMP_DIR name ∧
  Py.os_path_join UPLOADS_DIR name = PyMore.entry_path UPLOADS_DIR name ∧
  Py.os_path_join EXPORTS_DIR name = PyMore.entry_path EXPORTS_DIR name ∧
  Py.os_path_join TEMP_DIR name = PyMore.entry_path TEMP_DIR name.
Proof.
  intros Hname. split; [|split; [|split]].
  - not_http ("/static/uploads/" +:+ name)%string.
    unfold Py.startswith. rewrite prefix_app_l. by rewrite replace_static.
  - not_http ("/static/exports/" +:+ name)%string.
    assert (Py.startswith ("/static/exports/" +:+ name) "/static/uploads/" = false)
      as -> by done.
    unfold Py.startswith. rewrite prefix_app_l. by rewrite replace_static.
  - not_http ("/static/temp/" +:+ name)%string.
    assert (Py.startswith ("/static/temp/" +:+ name) "/static/uploads/" = false)
      as -> by done.
    assert (Py.startswith ("/static/temp/" +:+ name) "/static/exports/" = false)
      as -> by done.
    unfold Py.startswith. rewrite prefix_app_l. by rewrite replace_static.
  - repeat split; by apply os_path_join_entry.
Qed.

(** X23. A url that is neither empty nor a full url and does not start with
    "/" resolves to the join of the uploads directory and the base name of
    the url: the directories that the url names are left out, and what is
    left has no "/", so the result is the uploads directory, a "/" unless the
    directory ends with one, and that base name as it is.  The base name is
    not looked at beyond that: the url "a/.." resolves to the path
    "<uploads directory>/..". *)
Theorem url_to_filepath_relative url :
  url ≠ EmptyString →
  Py.startswith url "http://" = false → Py.startswith url "https://" = false →
  PyMore.os_path_isabs url = false →
  (Api.url_to_filepath UPLOADS_DIR EXPORTS_DIR TEMP_DIR urlparse_path) url = Py.os_path_join UPLOADS_DIR (PyMore.os_path_basename url) ∧
  PyMore.no_slash (PyMore.os_path_basename url) = true ∧
  Py.os_path_join UPLOADS_DIR (PyMore.os_path_basename url) = PyMore.entry_path UPLOADS_DIR (PyMore.os_path_basename url).
Proof.
  intros Hne Hhttp Hhttps Hrel.
  assert (∀ rest, Py.startswith url ("/" +:+ rest) = false) as Hstatic.
  { intros rest. unfold Py.startswith.
    destruct (String.prefix ("/" +:+ rest) url) eqn:Hpre; [|done].
    apply prefix_app_inv in Hpre. unfold PyMore.os_path_isabs in Hrel. congruence. }
  assert ((Api.url_to_filepath UPLOADS_DIR EXPORTS_DIR TEMP_DIR urlparse_path) url = Py.os_path_join UPLOADS_DIR (PyMore.os_path_basename url)) as Hres.
  { unfold Api.url_to_filepath. rewrite bool_decide_false by done.
    rewrite Hhttp, Hhttps. cbn [orb].
    assert (Py.startswith url "/static/uploads/" = false) as ->
      by apply (Hstatic "static/uploads/").
    assert (Py.startswith url "/static/exports/" = false) as ->
      by apply (Hstatic "static/exports/").
    assert (Py.startswith url "/static/temp/" = false) as ->
      by apply (Hstatic "static/temp/").
    by rewrite Hrel. }
  split; [done|]. split; [apply no_slash_basename|].
  apply os_path_join_entry, no_slash_basename.
Qed.

(** X24. An absolute path that is not a static url is returned as it is, and
    so is the rest of an upload url whose name starts with another "/": the
    url "/static/uploads//name" resolves to "/name", outside the uploads
    directory. *)
Theorem url_to_filepath_absolute :
  (∀ url,
     PyMore.os_path_isabs url = true → Py.startswith url "/static/" = false →
     (Api.url_to_filepath UPLOADS_DIR EXPORTS_DIR TEMP_DIR urlparse_path) url = url) ∧
  (∀ name,
     PyMore.no_slash name = true →
     (Api.url_to_filepath UPLOADS_DIR EXPORTS_DIR TEMP_DIR urlparse_path) ("/static/uploads//" +:+ name) = ("/" +:+ name)%string).
Proof.
  split.
  - intros url Habs Hstatic.
    assert (∀ rest, Py.startswith url ("/static/" +:+ rest) = false) as Hrest.
    { intros rest. unfold Py.startswith in *.
      destruct (String.prefix ("/static/" +:+ rest) url) eqn:Hpre; [|done].
      apply prefix_app_inv in Hpre. congruence. }
    assert (Py.startswith url "/static/uploads/" = false) as Hu
      by apply (Hrest "uploads/").
    assert (Py.startswith url "/static/exports/" = false) as He
      by apply (Hrest "exports/").
    assert (Py.startswith url "/static/temp/" = false) as Ht
      by apply (Hrest "temp/").
    destruct (startswith_slash_inv url Habs) as [url' ->].
    unfold Api.url_to_filepath. rewrite bool_decide_false by done.
    assert (Py.startswith (String PyMore.slash url') "http://" = false) as -> by done.
    assert (Py.startswith (String PyMore.slash url') "https://" = false) as -> by done.
    cbn [orb]. by rewrite Hu, He, Ht, Habs.
  - intros name Hname.
    not_http ("/static/uploads//" +:+ name)%string.
    change ("/static/uploads//" +:+ name)%string
      with ("/static/uploads/" +:+ ("/" +:+ name))%string.
    unfold Py.startswith. rewrite prefix_app_l.
    assert (Py.replace ("/static/uploads/" +:+ ("/" +:+ name)) "/static/uploads/" ""
            = ("/" +:+ name)%string) as ->.
    { unfold Py.replace.
      change ("/static/uploads/" +:+ ("/" +:+ name))%string
        with (String PyMore.slash ("static/uploads/" +:+ ("/" +:+ name))).
      cbn [Py.replace_from].
      change (String PyMore.slash ("static/uploads/" +:+ ("/" +:+ name)))
        with ("/static/uploads/" +:+ ("/" +:+ name))%string.
      rewrite prefix_app_l.
      change (Nat.pred (String.length "/static/uploads/"))
        with (String.length "static/uploads/").
      rewrite replace_from_skip.
      change ("/" +:+ name)%string with (String PyMore.slash name).
      cbn [Py.replace_from].
      assert (String.prefix "/static/uploads/" (String PyMore.slash name) = false) as ->.
      { destruct (String.prefix _ _) eqn:Hpre; [|done].
        assert (String.prefix "static/uploads/" name = true) as Hpre' by exact Hpre.
        by pose proof (prefix_no_slash _ _ Hpre' Hname). }
      by rewrite replace_from_no_slash. }
    unfold Py.os_path_join. by destruct name.
Qed.

(** X25. A full url resolves as its path does: for a url that starts with
    "http://" or "https://" and whose path starts with "/", the result is
    that of the path alone. *)
Theorem url_to_filepath_full_url url :
  Py.startswith url "http://" || Py.startswith url "https://" = true →
  Py.startswith (urlparse_path url) "/" = true →
  (Api.url_to_filepath UPLOADS_DIR EXPORTS_DIR TEMP_DIR urlparse_path) url = (Api.url_to_filepath UPLOADS_DIR EXPORTS_DIR TEMP_DIR urlparse_path) (urlparse_path url).
Proof.
  intros Hhttp Hpath. unfold Api.url_to_filepath.
  rewrite Hhttp. destruct (startswith_slash_inv _ Hpath) as [path ->].
  rewrite (bool_decide_false (url = _)) by (by intros ->).
  rewrite (bool_decide_false (String _ _ = _)) by done.
  assert (Py.startswith (String PyMore.slash path) "http://" = false) as -> by done.
  assert (Py.startswith (String PyMore.slash path) "https://" = false) as -> by done.
  done.
Qed.

End Resolve.

Lemma url_to_filepath_static_file_witness :
  let resolve := Api.url_to_filepath "/srv/uploads" "/srv/exports" "/srv/temp" id in
  resolve ("/static/uploads/" +:+ "a.mp4") = Py.os_path_join "/srv/uploads" "a.mp4" ∧
  resolve ("/static/exports/" +:+ "a.mp4") = Py.os_path_join "/srv/exports" "a.mp4" ∧
  resolve ("/static/temp/" +:+ "a.mp4") = Py.os_path_join "/srv/temp" "a.mp4" ∧
  Py.os_path_join "/srv/uploads" "a.mp4" = PyMore.entry_path "/srv/uploads" "a.mp4" ∧
  Py.os_path_join "/srv/exports" "a.mp4" = PyMore.entry_path "/srv/exports" "a.mp4" ∧
  Py.os_path_join "/srv/temp" "a.mp4" = PyMore.entry_path "/srv/temp" "a.mp4".
Proof.
  apply (url_to_filepath_static_file "/srv/uploads" "/srv/exports" "/srv/temp" id "a.mp4").
  reflexivity.
Defined.

Lemma url_to_filepath_relative_witness :
  let resolve := Api.url_to_filepath "/srv/uploads" "/srv/exports" "/srv/temp" id in
  resolve "static/exports/a.mp4" =
    Py.os_path_join "/srv/uploads" (PyMore.os_path_basename "static/exports/a.mp4") ∧
  PyMore.no_slash (PyMore.os_path_basename "static/exports/a.mp4") = true ∧
  Py.os_path_join "/srv/uploads" (PyMore.os_path_basename "static/exports/a.mp4") =
    PyMore.entry_path "/srv/uploads" (PyMore.os_path_basename "static/exports/a.mp4").
Proof.
  apply (url_to_filepath_relative "/srv/uploads" "/srv/exports" "/srv/temp" id
           "static/exports/a.mp4"); [discriminate|reflexivity..].
Defined.

(** The names are used as they are: the static url of ".." and the url
    "a/.." both resolve to the entry ".." of the uploads directory. *)
Example url_to_filepath_dot_dot :
  let resolve := Api.url_to_filepath "/srv/uploads" "/srv/exports" "/srv/temp" id in
  resolve "/static/uploads/.." = "/srv/uploads/.."%string ∧
  resolve "a/.." = "/srv/uploads/.."%string ∧
  resolve "static/exports/a.mp4" = "/srv/uploads/a.mp4"%string.
Proof. vm_compute. done. Qed.

Lemma url_to_filepath_full_url_witness :
  let urlparse_path := λ _ : string, "/static/uploads/a.mp4"%string in
  Api.url_to_filepath "/srv/uploads" "/srv/exports" "/srv/temp" urlparse_path
    "http://localhost:8000/static/uploads/a.mp4" =
  Api.url_to_filepath "/srv/uploads" "/srv/exports" "/srv/temp" urlparse_path
    "/static/uploads/a.mp4".
Proof.
  apply (url_to_filepath_full_url "/srv/uploads" "/srv/exports" "/srv/temp"
           (λ _, "/static/uploads/a.mp4"%string)
           "http://localhost:8000/static/uploads/a.mp4"); reflexivity.
Defined.

(** *** Outside the settings of the interface *)

Section ResizeEdges.
Context `{Externals}.

(** X26. Outside the settings that the interface allows,
    [resize_to_aspect_ratio] raises the key error of an unknown quality
    before it does anything else; with a known quality it raises a division
    by zero for a source of width or height 0; and every aspect ratio other
    than "16:9" and "9:16" is treated as "1:1". *)
Theorem resize_to_aspect_ratio_edges clip aspect_ratio quality :
  (quality ∉ ExportSettings.qualities →
   resize_to_aspect_ratio clip aspect_ratio quality = Py.Raise ("'" +:+ quality +:+ "'")) ∧
  (quality ∈ ExportSettings.qualities → clip_w clip = 0 ∨ clip_h clip = 0 →
   resize_to_aspect_ratio clip aspect_ratio quality = Py.Raise "division by zero") ∧
  (aspect_ratio ≠ "16:9"%string → aspect_ratio ≠ "9:16"%string →
   resize_to_aspect_ratio clip aspect_ratio quality =
   resize_to_aspect_ratio clip "1:1" quality).
Proof.
  split; [|split].
  - intros Hq. unfold resize_to_aspect_ratio, quality_settings_of.
    assert (QUALITY_SETTINGS !! quality = None) as ->; [|done].
    apply not_elem_of_list_to_map_1. exact Hq.
  - unfold ExportSettings.qualities. rewrite !elem_of_cons.
    intros [->|[->|[->|Hq]]] Hzero; [| | |by apply elem_of_nil in Hq];
      unfold resize_to_aspect_ratio, quality_settings_of, Py.truediv;
      rewrite ?quality_settings_low, ?quality_settings_optimised, ?quality_settings_high;
      simpl; repeat case_decide; simpl; try done;
      repeat case_decide; simpl; try done; lia.
  - intros H169 H916. unfold resize_to_aspect_ratio.
    destruct (quality_settings_of quality) as [preset|e]; [|done]. simpl.
    by rewrite !decide_False by done.
Qed.

End ResizeEdges.

End ToolFacts.
